(** * Sen: the provider-abstraction core (services/translationService.ts)
      and the translation history of the application shell.

    The development embeds the TypeScript service shallowly:

    - a JavaScript string is its sequence of UTF-16 code units ([jsstring]);
      arrays and strings share one [slice];
    - module-level mutable state ([activeConfig], [aiInstance]) is threaded
      through a state monad [M]; thrown errors are the [Throw] outcome and
      every externally visible action (fetch, OCR, SDK call, console) is
      appended to a trace;
    - the browser, the network and the SDKs are a [World]: deterministic
      oracles that answer each request;
    - values typed [any] in the source are read at the type the surrounding
      code uses them at; a field the code guards with [?.] or [||] is an
      [option] or may be empty. *)

From Stdlib Require Import ZArith NArith String Ascii List QArith_base.
From stdpp Require Import base list strings gmap pretty.
From stdpp Require Import sorting.
Local Open Scope Z_scope.

(** ** JavaScript strings and arrays *)

Definition jsstring := list N.

Definition lit (s : string) : jsstring :=
  N_of_ascii <$> list_ascii_of_string s.

(** [ToBoolean] on a string: only the empty string is falsy. *)
Definition truthy (s : jsstring) : bool :=
  match s with [] => false | _ => true end.

(** [a || d] on strings. *)
Definition or_else (a d : jsstring) : jsstring :=
  if truthy a then a else d.

(** [${n}] for an integral number. *)
Definition showZ (n : Z) : jsstring := lit (pretty n).

Module JS.

(** Relative index of [Array.prototype.slice] / [String.prototype.slice]:
    a negative index counts from the end, everything is clamped to
    [0 .. len]. *)
Definition relIndex (len : nat) (i : Z) : nat :=
  Z.to_nat (if i <? 0 then Z.max (Z.of_nat len + i) 0
            else Z.min i (Z.of_nat len)).

Definition slice {A} (start : Z) (end_ : option Z) (l : list A) : list A :=
  let len := length l in
  let from := relIndex len start in
  let to := match end_ with Some e => relIndex len e | None => len end in
  take (to - from) (drop from l).

Fixpoint startsWith (p s : jsstring) : bool :=
  match p, s with
  | [], _ => true
  | a :: p', b :: s' => (a =? b)%N && startsWith p' s'
  | _ :: _, [] => false
  end.

(** [hay.includes(needle)] *)
Fixpoint includes (needle hay : jsstring) : bool :=
  startsWith needle hay ||
  match hay with
  | [] => false
  | _ :: hay' => includes needle hay'
  end.

(** [s.split(sep)[0]] for a one-code-unit separator: what precedes the
    first separator, the whole string when there is none. *)
Fixpoint splitHead (sep : N) (s : jsstring) : jsstring :=
  match s with
  | [] => []
  | c :: s' => if (c =? sep)%N then [] else c :: splitHead sep s'
  end.

(** The maximal run of code units satisfying [p], and the rest. *)
Fixpoint span (p : N -> bool) (s : jsstring) : jsstring * jsstring :=
  match s with
  | [] => ([], [])
  | c :: s' =>
      if p c then let '(r, t) := span p s' in (c :: r, t) else ([], s)
  end.

Fixpoint dropWhile (p : N -> bool) (s : jsstring) : jsstring :=
  match s with
  | [] => []
  | c :: s' => if p c then dropWhile p s' else s
  end.

(** First occurrence of [needle]: what precedes it and what follows. *)
Fixpoint findSub (needle hay : jsstring) : option (jsstring * jsstring) :=
  if startsWith needle hay then Some ([], drop (length needle) hay)
  else match hay with
       | [] => None
       | c :: hay' =>
           match findSub needle hay' with
           | Some (b, a) => Some (c :: b, a)
           | None => None
           end
       end.

(** ECMAScript LineTerminator code units. *)
Definition isLineTerminator (c : N) : bool :=
  bool_decide (c ∈ [10; 13; 8232; 8233]%N).

(** ECMAScript WhiteSpace and LineTerminator code units, as stripped by
    [String.prototype.trim]. *)
Definition isWhiteSpace (c : N) : bool :=
  bool_decide (c ∈ [9; 10; 11; 12; 13; 32; 160; 5760; 8192; 8193; 8194;
                    8195; 8196; 8197; 8198; 8199; 8200; 8201; 8202; 8232;
                    8233; 8239; 8287; 12288; 65279]%N).

Definition trim (s : jsstring) : jsstring :=
  reverse (dropWhile isWhiteSpace (reverse (dropWhile isWhiteSpace s))).

(** [s.replace(/\/+$/, '')]: the trailing run of slashes removed. *)
Definition stripTrailingSlashes (s : jsstring) : jsstring :=
  reverse (dropWhile (fun c => (c =? 47)%N) (reverse s)).

End JS.

(** [s.match(re)] for the data-URI pattern [^data:] lazy-any [;base64,]
    any [$]: the two captured groups.  The dot excludes line terminators
    and [$] is the end of input, so the pattern matches exactly when
    everything after [data:] is free of line terminators and holds the
    marker; the lazy first group stops at the first marker. *)
Definition matchDataUri (s : jsstring) : option (jsstring * jsstring) :=
  if JS.startsWith (lit "data:") s then
    let r := drop 5 s in
    if forallb (fun c => negb (JS.isLineTerminator c)) r
    then JS.findSub (lit ";base64,") r
    else None
  else None.

(** One attempt of [/\[([^\]]+)\]\((https?:\/\/[^\)]+)\)/] at the head of
    [s]: the two groups and the length of the match.  Both character
    classes are followed by the one code unit they exclude, so each group
    is the maximal run and no backtracking can succeed where it fails. *)
Definition matchLinkAt (s : jsstring) : option (jsstring * jsstring * nat) :=
  match s with
  | 91%N :: s1 =>
      let '(title, s2) := JS.span (fun c => negb (c =? 93)%N) s1 in
      match title, s2 with
      | _ :: _, 93%N :: 40%N :: s3 =>
          let scheme :=
            if JS.startsWith (lit "https://") s3 then Some (lit "https://")
            else if JS.startsWith (lit "http://") s3 then Some (lit "http://")
            else None in
          match scheme with
          | Some sch =>
              let '(rest, s4) :=
                JS.span (fun c => negb (c =? 41)%N) (drop (length sch) s3) in
              match rest, s4 with
              | _ :: _, 41%N :: _ =>
                  Some (title, sch ++ rest,
                        (length title + length sch + length rest + 4)%nat)
              | _, _ => None
              end
          | None => None
          end
      | _, _ => None
      end
  | _ => None
  end.

(** The [while ((match = linkRegex.exec(text)) !== null)] loop: leftmost
    match from [lastIndex], which then moves past the match.  [skip] counts
    the code units of the current match still to be passed over. *)
Fixpoint linkMatches (skip : nat) (s : jsstring) : list (jsstring * jsstring) :=
  match s with
  | [] => []
  | _ :: s' =>
      match skip with
      | S k => linkMatches k s'
      | O =>
          match matchLinkAt s with
          | Some (title, uri, n) => (title, uri) :: linkMatches (n - 1) s'
          | None => linkMatches 0 s'
          end
      end
  end.

(** ** Data model (types.ts) *)

Inductive ProviderType := DeepLX | OpenAI | Gemini.

Definition providerName (p : ProviderType) : jsstring :=
  match p with
  | DeepLX => lit "DeepLX"
  | OpenAI => lit "OpenAI"
  | Gemini => lit "Gemini"
  end.

Inductive Role := user | assistant.

Definition roleName (r : Role) : jsstring :=
  match r with user => lit "user" | assistant => lit "assistant" end.

Record ChatMessage := {
  cm_id : jsstring;
  cm_role : Role;
  cm_content : jsstring;
  cm_timestamp : Z;
  cm_image : option jsstring
}.

Record ChatSettings := {
  temperature : Q;
  maxContext : Z;
  maxTurns : Z;
  systemInstruction : option jsstring
}.

Record SearchSource := {
  ss_title : jsstring;
  ss_uri : jsstring;
  ss_snippet : option jsstring
}.

Record SearchResult := {
  sr_text : jsstring;
  sr_sources : list SearchSource
}.

Record ApiConfig := {
  deeplxEndpoint : jsstring;
  openaiBaseUrl : jsstring;
  openaiKey : jsstring;
  geminiBaseUrl : jsstring;
  geminiKey : jsstring;
  tavilyKey : jsstring;
  braveKey : jsstring
}.

Record TranslateParams := {
  tp_text : jsstring;
  tp_sourceLang : jsstring;
  tp_targetLang : jsstring;
  tp_imageBase64 : option jsstring;
  tp_model : jsstring;
  tp_industry : option jsstring
}.

Record HistoryItem := {
  hi_id : jsstring;
  hi_sourceText : jsstring;
  hi_translatedText : jsstring;
  hi_sourceLang : jsstring;
  hi_targetLang : jsstring;
  hi_provider : ProviderType;
  hi_timestamp : Z;
  isFavorite : bool;
  wasImage : bool
}.

Record TranslationState := {
  ts_sourceText : jsstring;
  ts_translatedText : jsstring;
  ts_isLoading : bool;
  ts_error : option jsstring;
  ts_sourceLang : jsstring;
  ts_targetLang : jsstring;
  ts_selectedProvider : ProviderType;
  ts_selectedModel : jsstring;
  ts_industry : jsstring;
  ts_attachedImage : option jsstring;
  ts_tempImage : option jsstring
}.

(** [ToBoolean] on [string | null | undefined]. *)
Definition truthyOpt (o : option jsstring) : bool :=
  match o with Some s => truthy s | None => false end.

(** ** Errors, requests and responses *)

Record JsError := { err_name : jsstring; err_message : jsstring }.

(** [new Error(msg)] *)
Definition newError (msg : jsstring) : JsError :=
  {| err_name := lit "Error"; err_message := msg |}.

Inductive AbortSignal := Signal (id : N).

(** Content of one chat-completion message: a plain string or a list of
    typed parts. *)
Inductive OAPart :=
| TextPart (text : jsstring)
| ImageUrlPart (url : jsstring).

Inductive OAContent :=
| PlainContent (text : jsstring)
| PartsContent (parts : list OAPart).

Record OAMessage := { oa_role : jsstring; oa_content : OAContent }.

(** The object handed to [JSON.stringify] as the request body. *)
Inductive Body :=
| DeepLXBody (text source_lang target_lang : jsstring)
| ChatCompletionBody (model : jsstring) (messages : list OAMessage)
    (temp : Q)
| TavilyBody (api_key query search_depth : jsstring)
    (include_answer : bool) (max_results : Z).

Record FetchRequest := {
  fr_url : jsstring;
  fr_method : option jsstring;
  fr_headers : list (jsstring * jsstring);
  fr_body : option Body;
  fr_signal : option AbortSignal
}.

(** What [fetch] followed by [response.text()] gives: a rejection of
    either promise, or the response line and its body text. *)
Inductive FetchOutcome :=
| FetchRejects (e : JsError)
| FetchResponds (ok : bool) (status : Z) (text : jsstring).

Record WikiHit := { wh_pageid : Z; wh_title : jsstring }.
Record TavilyHit := { th_title : jsstring; th_url : jsstring;
                      th_content : option jsstring }.
Record BraveHit := { bh_title : jsstring; bh_url : jsstring;
                     bh_description : option jsstring }.

(** A parsed JSON body, at the shape its reader expects.  A reader handed
    another shape finds none of its fields. *)
Inductive ApiData :=
| DeepLXData (code : Z) (data : jsstring) (message : jsstring)
| ChatCompletionData (choices : list (option jsstring))
| WikiSearchData (search : list WikiHit)
| WikiPagesData (pages : gmap Z jsstring)
| TavilyData (results : list TavilyHit)
| BraveData (results : list BraveHit)
| OtherData.

Record FetchResult := {
  fr_ok : bool;
  fr_status : Z;
  fr_data : option ApiData;
  fr_text : jsstring
}.

(** Gemini SDK ([@google/genai]) values. *)
Record GoogleGenAI := { apiKey : option jsstring }.

Inductive GeminiPart :=
| InlineData (mimeType data : jsstring)
| GText (text : jsstring).

Record GeminiTurn := { gt_role : jsstring; gt_parts : list GeminiPart }.

Inductive GeminiContents :=
| PartsContents (parts : list GeminiPart)
| StringContents (text : jsstring).

Record GenerateRequest := {
  gr_model : jsstring;
  gr_contents : GeminiContents;
  gr_systemInstruction : jsstring;
  gr_temperature : option Q;
  gr_googleSearch : bool
}.

Record ChatCreate := {
  cc_model : jsstring;
  cc_history : list GeminiTurn;
  cc_systemInstruction : jsstring;
  cc_temperature : Q
}.

Record WebChunk := { wc_uri : option jsstring; wc_title : option jsstring }.
Record GroundingChunk := { gc_web : option WebChunk }.

Record GenerateResponse := {
  resp_text : option jsstring;
  resp_groundingChunks : list GroundingChunk
}.

Inductive ConsoleLevel := LogWarn | LogError.

(** Externally visible actions, in program order. *)
Inductive Event :=
| EvFetch (req : FetchRequest)
| EvOCR (tesseractLang image : jsstring)
| EvGenerate (ai : GoogleGenAI) (req : GenerateRequest)
| EvSendMessage (ai : GoogleGenAI) (chat : ChatCreate)
    (message : list GeminiPart)
| EvConsole (level : ConsoleLevel) (label : jsstring).

(** How a call ends: a value, or a thrown error. *)
Inductive Outcome (A : Type) :=
| Ok (a : A)
| Throw (e : JsError).
Arguments Ok {A} a.
Arguments Throw {A} e.

(** The environment of the service: network, OCR engine, Gemini SDK and
    the browser built-ins the source calls but does not define.
    [JSON_parse] is [None] where [JSON.parse] throws or yields a falsy
    value; [sdk_construct] is [Some e] where [new GoogleGenAI] throws [e];
    [env_API_KEY] is [process.env.API_KEY]. *)
Record World := {
  env_API_KEY : option jsstring;
  net_fetch : FetchRequest -> FetchOutcome;
  JSON_parse : jsstring -> option ApiData;
  URLSearchParams_toString : list (jsstring * jsstring) -> jsstring;
  encodeURIComponent : jsstring -> jsstring;
  sdk_construct : option jsstring -> option JsError;
  sdk_generateContent : GoogleGenAI -> GenerateRequest ->
                        Outcome GenerateResponse;
  sdk_sendMessage : GoogleGenAI -> ChatCreate -> list GeminiPart ->
                    Outcome GenerateResponse;
  tesseract_recognize : jsstring -> jsstring -> Outcome jsstring
}.

(** ** The service monad *)

Record ServiceState := {
  activeConfig : ApiConfig;
  aiInstance : option GoogleGenAI
}.

Record Run (A : Type) := {
  outcome : Outcome A;
  final : ServiceState;
  trace : list Event
}.
Arguments outcome {A} r.
Arguments final {A} r.
Arguments trace {A} r.

Definition M (A : Type) : Type := ServiceState -> Run A.

Definition ret {A} (a : A) : M A :=
  fun s => {| outcome := Ok a; final := s; trace := [] |}.

Definition throw {A} (e : JsError) : M A :=
  fun s => {| outcome := Throw e; final := s; trace := [] |}.

Definition bind {A B} (m : M A) (f : A -> M B) : M B :=
  fun s =>
    let r := m s in
    match outcome r with
    | Ok a =>
        let r' := f a (final r) in
        {| outcome := outcome r'; final := final r';
           trace := trace r ++ trace r' |}
    | Throw e =>
        {| outcome := Throw e; final := final r; trace := trace r |}
    end.

(** [try { m } catch (e) { h e }] *)
Definition tryCatch {A} (m : M A) (h : JsError -> M A) : M A :=
  fun s =>
    let r := m s in
    match outcome r with
    | Ok a => r
    | Throw e =>
        let r' := h e (final r) in
        {| outcome := outcome r'; final := final r';
           trace := trace r ++ trace r' |}
    end.

(** One slot of [Promise.allSettled]: the promise is run to settlement
    and its outcome handed over as a value. *)
Definition settle {A} (m : M A) : M (Outcome A) :=
  fun s =>
    let r := m s in
    {| outcome := Ok (outcome r); final := final r; trace := trace r |}.

Definition emit (ev : Event) : M unit :=
  fun s => {| outcome := Ok tt; final := s; trace := [ev] |}.

Definition getConfig : M ApiConfig :=
  fun s => {| outcome := Ok (activeConfig s); final := s; trace := [] |}.

Definition getState : M ServiceState :=
  fun s => {| outcome := Ok s; final := s; trace := [] |}.

Definition putState (s' : ServiceState) : M unit :=
  fun _ => {| outcome := Ok tt; final := s'; trace := [] |}.

Declare Scope js_scope.
Delimit Scope js_scope with js.
Notation "x <- m ;; k" := (bind m (fun x => k))
  (at level 100, m at next level, right associativity) : js_scope.
Notation "m ;;; k" := (bind m (fun _ => k))
  (at level 100, right associativity) : js_scope.
Local Open Scope js_scope.

(** [if (c) throw new Error(msg)] *)
Definition throwIf (c : bool) (msg : jsstring) : M unit :=
  if c then throw (newError msg) else ret tt.

Definition console (level : ConsoleLevel) (label : jsstring) : M unit :=
  emit (EvConsole level label).

(** Events that reach outside the browser over the network. *)
Definition isNetworkCall (ev : Event) : bool :=
  match ev with
  | EvFetch _ | EvGenerate _ _ | EvSendMessage _ _ _ => true
  | EvOCR _ _ | EvConsole _ _ => false
  end.

Definition networkCalls (t : list Event) : list Event :=
  List.filter isNetworkCall t.

(** ** The service (services/translationService.ts) *)

Definition dq : jsstring := [34%N].
Definition nl : jsstring := [10%N].

(** [l.join(sep)] *)
Fixpoint join (sep : jsstring) (l : list jsstring) : jsstring :=
  match l with
  | [] => []
  | [x] => x
  | x :: l' => x ++ sep ++ join sep l'
  end.

(** [updateServiceConfig]: the new record replaces the old one and the
    cached Gemini client is dropped. *)
Definition updateServiceConfig (newConfig : ApiConfig) : M unit :=
  putState {| activeConfig := newConfig; aiInstance := None |}.

Definition getTesseractLang_map : gmap jsstring jsstring :=
  list_to_map
    [ (lit "ZH", lit "chi_sim"); (lit "EN", lit "eng"); (lit "JA", lit "jpn");
      (lit "KO", lit "kor"); (lit "FR", lit "fra"); (lit "DE", lit "deu");
      (lit "ES", lit "spa"); (lit "RU", lit "rus"); (lit "PT", lit "por");
      (lit "IT", lit "ita"); (lit "NL", lit "nld"); (lit "PL", lit "pol");
      (lit "TR", lit "tur"); (lit "AR", lit "ara"); (lit "HI", lit "hin");
      (lit "VI", lit "vie"); (lit "TH", lit "tha"); (lit "ID", lit "ind");
      (lit "auto", lit "eng") ].

(** [map[code] || 'eng'], for a [code] that is a language code (a key
    the object literal inherits from its prototype is not one). *)
Definition getTesseractLang (code : jsstring) : jsstring :=
  default (lit "eng") (getTesseractLang_map !! code).

(** Field reads on a parsed body. *)
Definition dataCode (d : ApiData) : option Z :=
  match d with DeepLXData c _ _ => Some c | _ => None end.
Definition dataMessage (d : ApiData) : jsstring :=
  match d with DeepLXData _ _ m => m | _ => [] end.
Definition dataData (d : ApiData) : jsstring :=
  match d with DeepLXData _ t _ => t | _ => [] end.

(** [data.choices?.[0]?.message?.content?.trim() || ""] *)
Definition firstChoiceContent (d : ApiData) : jsstring :=
  match d with
  | ChatCompletionData (Some c :: _) => or_else (JS.trim c) []
  | _ => []
  end.

Definition wikiSearchHits (d : option ApiData) : list WikiHit :=
  match d with Some (WikiSearchData l) => l | _ => [] end.
Definition wikiExtract (d : ApiData) (pageId : Z) : option jsstring :=
  match d with WikiPagesData pages => pages !! pageId | _ => None end.
Definition tavilyResults (d : ApiData) : list TavilyHit :=
  match d with TavilyData l => l | _ => [] end.
Definition braveResults (d : ApiData) : list BraveHit :=
  match d with BraveData l => l | _ => [] end.

(** The industry-aware opening of both translation instructions. *)
Definition translatorContext (industry : option jsstring) : jsstring :=
  match industry with
  | Some i =>
      if truthy i && negb (bool_decide (i = lit "General"))
      then lit "You are an expert translator specializing in the " ++ dq ++
           i ++ dq ++
           lit " field. Ensure terminology is accurate for this domain."
      else lit "You are a professional translator."
  | None => lit "You are a professional translator."
  end.

Record WikiData := {
  wd_title : jsstring;
  wd_uri : jsstring;
  wd_content : jsstring
}.

Section Service.

Variable W : World.

Definition getAiClient : M GoogleGenAI :=
  s <- getState ;;
  match aiInstance s with
  | Some ai => ret ai
  | None =>
      let key :=
        if truthy (geminiKey (activeConfig s))
        then Some (geminiKey (activeConfig s))
        else env_API_KEY W in
      (if negb (truthyOpt key)
       then console LogWarn (lit "Gemini API Key is missing.")
       else ret tt) ;;;
      match sdk_construct W key with
      | Some e => throw e
      | None =>
          let ai := {| apiKey := key |} in
          putState {| activeConfig := activeConfig s;
                      aiInstance := Some ai |} ;;;
          ret ai
      end
  end.

(** [ai.models.generateContent(req)] *)
Definition generateContent (ai : GoogleGenAI) (req : GenerateRequest)
  : M GenerateResponse :=
  emit (EvGenerate ai req) ;;;
  match sdk_generateContent W ai req with
  | Ok r => ret r
  | Throw e => throw e
  end.

(** [ai.chats.create(cfg).sendMessage({ message: { parts } })] *)
Definition sendMessage (ai : GoogleGenAI) (cfg : ChatCreate)
    (parts : list GeminiPart) : M GenerateResponse :=
  emit (EvSendMessage ai cfg parts) ;;;
  match sdk_sendMessage W ai cfg parts with
  | Ok r => ret r
  | Throw e => throw e
  end.

Definition safeFetch (req : FetchRequest) : M FetchResult :=
  emit (EvFetch req) ;;;
  match net_fetch W req with
  | FetchResponds ok status text =>
      let data := if truthy text then JSON_parse W text else None in
      ret {| fr_ok := ok; fr_status := status; fr_data := data;
             fr_text := text |}
  | FetchRejects e =>
      if bool_decide (err_name e = lit "AbortError") then throw e
      else
        console LogWarn (lit "Fetch error for " ++ fr_url req ++ lit ":") ;;;
        ret {| fr_ok := false; fr_status := 0; fr_data := None;
               fr_text := [] |}
  end.

(** [safeFetch(url)] with no options. *)
Definition getRequest (url : jsstring) : FetchRequest :=
  {| fr_url := url; fr_method := None; fr_headers := [];
     fr_body := None; fr_signal := None |}.

Definition performOCR (imageBase64 lang : jsstring) : M jsstring :=
  let tesseractLang := getTesseractLang lang in
  tryCatch
    (emit (EvOCR tesseractLang imageBase64) ;;;
     match tesseract_recognize W tesseractLang imageBase64 with
     | Ok text => ret text
     | Throw e => throw e
     end)
    (fun e =>
       console LogError (lit "OCR Failed:") ;;;
       throw (newError (lit "Failed to extract text from image. " ++
                        err_message e))).

(** The request [translateDeepLX] hands to [safeFetch]. *)
Definition deepLXRequest (endpoint : jsstring) (p : TranslateParams)
  : FetchRequest :=
  {| fr_url := endpoint;
     fr_method := Some (lit "POST");
     fr_headers := [(lit "Content-Type", lit "application/json")];
     fr_body := Some (DeepLXBody (tp_text p)
                  (if bool_decide (tp_sourceLang p = lit "auto")
                   then lit "auto" else tp_sourceLang p)
                  (tp_targetLang p));
     fr_signal := None |}.

Definition translateDeepLX (p : TranslateParams) : M jsstring :=
  cfg <- getConfig ;;
  let endpoint := deeplxEndpoint cfg in
  throwIf (negb (truthy endpoint))
    (lit "DeepLX Endpoint is not configured.") ;;;
  result <- safeFetch (deepLXRequest endpoint p) ;;
  throwIf (negb (fr_ok result))
    (lit "DeepLX Error: " ++ showZ (fr_status result)) ;;;
  match fr_data result with
  | None => throw (newError (lit "DeepLX returned invalid JSON"))
  | Some d =>
      throwIf (negb (bool_decide (dataCode d = Some 200)))
        (lit "DeepLX API Error: " ++
         or_else (dataMessage d) (lit "Unknown")) ;;;
      ret (dataData d)
  end.

(** The request [openAICompletion] hands to [safeFetch]. *)
Definition completionRequest (baseUrl apiKey model : jsstring)
    (messages : list OAMessage) (temp : Q)
    (signal : option AbortSignal) : FetchRequest :=
  let cleanBase := JS.stripTrailingSlashes baseUrl in
  let url := cleanBase ++ lit "/chat/completions" in
  {| fr_url := url;
     fr_method := Some (lit "POST");
     fr_headers := [(lit "Content-Type", lit "application/json");
                    (lit "Authorization", lit "Bearer " ++ apiKey)];
     fr_body := Some (ChatCompletionBody model messages temp);
     fr_signal := signal |}.

(** [temperature] is an optional parameter that defaults to 0.5. *)
Definition openAICompletion (baseUrl apiKey model : jsstring)
    (messages : list OAMessage) (temp : option Q)
    (signal : option AbortSignal) : M ApiData :=
  let temperature := default (5 # 10) temp in
  result <- safeFetch
    (completionRequest baseUrl apiKey model messages temperature signal) ;;
  throwIf (negb (fr_ok result))
    (lit "API Error " ++ showZ (fr_status result) ++ lit ": " ++
     fr_text result) ;;;
  match fr_data result with
  | None =>
      throw (newError (lit "API returned empty or invalid JSON response"))
  | Some d => ret d
  end.

Definition translateOpenAI (p : TranslateParams) : M jsstring :=
  cfg <- getConfig ;;
  throwIf (negb (truthy (openaiKey cfg)))
    (lit "OpenAI API Key is missing.") ;;;
  let context := translatorContext (tp_industry p) in
  let userContent :=
    TextPart (or_else (tp_text p) (lit " ")) ::
    match tp_imageBase64 p with
    | Some img =>
        if truthy img
        then [ImageUrlPart
                (if JS.startsWith (lit "data:") img then img
                 else lit "data:image/jpeg;base64," ++ img)]
        else []
    | None => []
    end in
  let messages :=
    [ {| oa_role := lit "system";
         oa_content := PlainContent
           (context ++ lit " Translate to " ++ tp_targetLang p ++
            lit ". Output exclusively in Markdown format. If the content contains tables, paragraphs, or lists, strictly preserve the structure using Markdown syntax. Do NOT use markdown code blocks for the entire output unless it is code.") |};
      {| oa_role := lit "user"; oa_content := PartsContent userContent |} ]
  in
  tryCatch
    (data <- openAICompletion (openaiBaseUrl cfg) (openaiKey cfg)
               (tp_model p) messages (Some (3 # 10)) None ;;
     ret (firstChoiceContent data))
    (fun e =>
       throw (newError
                (or_else (err_message e) (lit "OpenAI translation failed")))).

(** The image part of a Gemini translation request: the data-URI is
    taken apart when it is one, else sent whole as a PNG. *)
Definition inlineImage (img : jsstring) : GeminiPart :=
  match matchDataUri img with
  | Some (mime, data) => InlineData mime data
  | None => InlineData (lit "image/png") img
  end.

(** The [generateContent] request of a Gemini translation. *)
Definition geminiTranslateRequest (p : TranslateParams) : GenerateRequest :=
  let context := translatorContext (tp_industry p) in
  let systemInstruction :=
    context ++ lit " Translate the following content to " ++
    tp_targetLang p ++ lit ".
  1. Output exclusively in Markdown format.
  2. If the input (text or image) contains tables, recreate them exactly as Markdown tables.
  3. Preserve headings, lists, and bolding using Markdown.
  4. Do NOT wrap the entire response in a markdown code block (e.g., ```markdown). Just return the raw markdown content." in
  let hasImage := truthyOpt (tp_imageBase64 p) in
  let parts :=
    match tp_imageBase64 p with
    | Some img => if truthy img then [inlineImage img] else []
    | None => []
    end ++
    (if truthy (tp_text p) then [GText (tp_text p)]
     else if negb hasImage then [GText (lit " ")] else []) in
  {| gr_model := tp_model p;
     gr_contents := PartsContents parts;
     gr_systemInstruction := systemInstruction;
     gr_temperature := Some (3 # 10);
     gr_googleSearch := false |}.

Definition translateGemini (p : TranslateParams) : M jsstring :=
  tryCatch
    (ai <- getAiClient ;;
     response <- generateContent ai (geminiTranslateRequest p) ;;
     ret (or_else (default [] (resp_text response)) []))
    (fun e =>
       console LogError (lit "Gemini Error:") ;;;
       throw (newError
                (or_else (err_message e) (lit "Gemini translation failed")))).

(** The test of the query against the CJK range [u4e00-u9fa5] picks
    the Wikipedia edition. *)
Definition wikiLang (query : jsstring) : jsstring :=
  let isChinese :=
    existsb (fun c => (19968 <=? c)%N && (c <=? 40869)%N) query in
  if isChinese then lit "zh" else lit "en".

Definition wikiEndpoint (query : jsstring) : jsstring :=
  lit "https://" ++ wikiLang query ++ lit ".wikipedia.org/w/api.php".

(** The first of the two requests of [fetchWikipedia]. *)
Definition wikiSearchRequest (query : jsstring) : FetchRequest :=
  let searchParams :=
    [ (lit "action", lit "query"); (lit "list", lit "search");
      (lit "srsearch", query); (lit "format", lit "json");
      (lit "origin", lit "*"); (lit "srlimit", lit "1") ] in
  getRequest (wikiEndpoint query ++ lit "?" ++
              URLSearchParams_toString W searchParams).

Definition fetchWikipedia (query : jsstring) : M (option WikiData) :=
  tryCatch
    (let lang := wikiLang query in
     let endpoint := wikiEndpoint query in
     searchRes <- safeFetch (wikiSearchRequest query) ;;
     match (if fr_ok searchRes then wikiSearchHits (fr_data searchRes)
            else []) with
     | [] => ret None
     | page :: _ =>
         let pageId := wh_pageid page in
         let contentParams :=
           [ (lit "action", lit "query"); (lit "prop", lit "extracts");
             (lit "pageids", showZ pageId); (lit "explaintext", lit "true");
             (lit "exintro", lit "true"); (lit "format", lit "json");
             (lit "origin", lit "*") ] in
         contentRes <- safeFetch
           (getRequest (endpoint ++ lit "?" ++
                        URLSearchParams_toString W contentParams)) ;;
         match (if fr_ok contentRes then fr_data contentRes else None) with
         | None => ret None
         | Some d =>
             match wikiExtract d pageId with
             | Some extract =>
                 if truthy extract then
                   ret (Some
                     {| wd_title := wh_title page ++ lit " (Wikipedia)";
                        wd_uri := lit "https://" ++ lang ++
                                  lit ".wikipedia.org/wiki/" ++
                                  encodeURIComponent W (wh_title page);
                        wd_content := JS.slice 0 (Some 1500) extract |})
                 else ret None
             | None => ret None
             end
         end
     end)
    (fun e => console LogWarn (lit "Wikipedia fetch failed") ;;; ret None).

Definition tavilyRequest (key query : jsstring) : FetchRequest :=
  {| fr_url := lit "https://api.tavily.com/search";
     fr_method := Some (lit "POST");
     fr_headers := [(lit "Content-Type", lit "application/json")];
     fr_body := Some (TavilyBody key query (lit "basic") false 3);
     fr_signal := None |}.

Definition fetchTavily (query : jsstring) : M (list SearchSource) :=
  cfg <- getConfig ;;
  if negb (truthy (tavilyKey cfg)) then ret []
  else
    tryCatch
      (result <- safeFetch (tavilyRequest (tavilyKey cfg) query) ;;
       match (if fr_ok result then fr_data result else None) with
       | None => ret []
       | Some d =>
           ret ((fun r => {| ss_title := th_title r; ss_uri := th_url r;
                             ss_snippet := th_content r |})
                  <$> tavilyResults d)
       end)
      (fun e => console LogWarn (lit "Tavily fetch failed") ;;; ret []).

Definition braveRequest (key query : jsstring) : FetchRequest :=
  let url :=
    lit "https://api.search.brave.com/res/v1/web/search" ++ lit "?" ++
    URLSearchParams_toString W
      [(lit "q", query); (lit "count", lit "3")] in
  {| fr_url := url;
     fr_method := None;
     fr_headers := [(lit "Accept", lit "application/json");
                    (lit "X-Subscription-Token", key)];
     fr_body := None;
     fr_signal := None |}.

Definition fetchBrave (query : jsstring) : M (list SearchSource) :=
  cfg <- getConfig ;;
  if negb (truthy (braveKey cfg)) then ret []
  else
    tryCatch
      (result <- safeFetch (braveRequest (braveKey cfg) query) ;;
       if negb (fr_ok result) then ret []
       else
         match fr_data result with
         | None => ret []
         | Some d =>
             ret ((fun r => {| ss_title := bh_title r; ss_uri := bh_url r;
                               ss_snippet := bh_description r |})
                    <$> braveResults d)
         end)
      (fun e => ret []).

(** *** translate *)

Definition withText (p : TranslateParams) (t : jsstring) : TranslateParams :=
  {| tp_text := t; tp_sourceLang := tp_sourceLang p;
     tp_targetLang := tp_targetLang p;
     tp_imageBase64 := tp_imageBase64 p; tp_model := tp_model p;
     tp_industry := tp_industry p |}.

Definition translate (provider : jsstring) (p : TranslateParams)
  : M jsstring :=
  if bool_decide (provider = lit "DeepLX") then
    textToTranslate <-
      (if truthyOpt (tp_imageBase64 p) && negb (truthy (tp_text p))
       then performOCR (default [] (tp_imageBase64 p)) (tp_sourceLang p)
       else ret (tp_text p)) ;;
    if negb (truthy (JS.trim textToTranslate)) then ret []
    else translateDeepLX (withText p textToTranslate)
  else if bool_decide (provider = lit "OpenAI") then translateOpenAI p
  else if bool_decide (provider = lit "Gemini") then translateGemini p
  else throw (newError (lit "Unknown provider: " ++ provider)).

(** *** chat *)

Definition defaultChatInstruction : jsstring :=
  lit "You are an advanced AI assistant tailored for developers and professionals.
    
    STRICT OUTPUT RULES:
    1. **Markdown**: Use rigorous Markdown formatting. Headers, lists, bolding.
    2. **Code**: Always wrap code in triple backticks with the correct language identifier (e.g., ```python).
    3. **Diagrams**: Use Mermaid.js for all flowcharts, sequence diagrams, and class diagrams.
       - Use ```mermaid` code blocks.
       - Prefer `flowchart TD` or `sequenceDiagram`.
       - Quote all node labels to prevent syntax errors (e.g., A[" ++ dq ++ lit "Label" ++ dq ++ lit "]).
    4. **Math**: Use LaTeX for mathematical formulas. Inline: $...$, Block: $$...$$.
    5. **Tables**: Use Markdown tables for structured data.
    
    Be concise, accurate, and aesthetically pleasing in your output.".

(** The parts of one message on the Gemini path: the image when it is a
    data-URI, then the text. *)
Definition geminiParts (m : ChatMessage) : list GeminiPart :=
  match cm_image m with
  | Some img =>
      if truthy img then
        match matchDataUri img with
        | Some (mime, data) => [InlineData mime data]
        | None => []
        end
      else []
  | None => []
  end ++ [GText (cm_content m)].

Definition geminiTurn (m : ChatMessage) : GeminiTurn :=
  {| gt_role := match cm_role m with
                | assistant => lit "model"
                | user => lit "user"
                end;
     gt_parts := geminiParts m |}.

Definition openAIMessage (m : ChatMessage) : OAMessage :=
  if truthyOpt (cm_image m) then
    {| oa_role := roleName (cm_role m);
       oa_content := PartsContent
         [TextPart (cm_content m);
          ImageUrlPart (default [] (cm_image m))] |}
  else {| oa_role := roleName (cm_role m);
          oa_content := PlainContent (cm_content m) |}.

(** [messages.slice(-settings.maxContext)] *)
Definition contextMessages (messages : list ChatMessage)
    (settings : ChatSettings) : list ChatMessage :=
  JS.slice (- maxContext settings) None messages.

Definition chatInstruction (settings : ChatSettings) : jsstring :=
  match systemInstruction settings with
  | Some s => or_else s defaultChatInstruction
  | None => defaultChatInstruction
  end.

(** The flat message list of the OpenAI-compatible path. *)
Definition openAIMessages (sys : jsstring) (ctx : list ChatMessage)
  : list OAMessage :=
  {| oa_role := lit "system"; oa_content := PlainContent sys |} ::
  (openAIMessage <$> ctx).

(** The chat construct of the Gemini path: every windowed message but the
    last becomes a turn of the seeded history. *)
Definition geminiChat (model sys : jsstring) (settings : ChatSettings)
    (ctx : list ChatMessage) : ChatCreate :=
  {| cc_model := model;
     cc_history := geminiTurn <$> JS.slice 0 (Some (-1)) ctx;
     cc_systemInstruction := sys;
     cc_temperature := temperature settings |}.

Definition chat (messages : list ChatMessage) (provider : ProviderType)
    (model : jsstring) (settings : ChatSettings)
    (signal : option AbortSignal) : M jsstring :=
  let ctx := contextMessages messages settings in
  let sys := chatInstruction settings in
  match provider with
  | Gemini =>
      match last ctx with
      | None =>
          (* [lastMessage] is undefined: reading [.image] throws *)
          throw {| err_name := lit "TypeError";
                   err_message :=
                     lit "Cannot read properties of undefined (reading 'image')" |}
      | Some lastMessage =>
          let lastParts := geminiParts lastMessage in
          tryCatch
            (ai <- getAiClient ;;
             response <- sendMessage ai (geminiChat model sys settings ctx)
                           lastParts ;;
             ret (or_else (default [] (resp_text response)) []))
            (fun e =>
               console LogError (lit "Gemini Chat Error:") ;;;
               throw (newError
                        (or_else (err_message e) (lit "Gemini chat failed"))))
      end
  | OpenAI =>
      cfg <- getConfig ;;
      throwIf (negb (truthy (openaiKey cfg)))
        (lit "OpenAI API Key is missing.") ;;;
      tryCatch
        (data <- openAICompletion (openaiBaseUrl cfg) (openaiKey cfg)
                   model (openAIMessages sys ctx)
                   (Some (temperature settings)) signal ;;
         ret (firstChoiceContent data))
        (fun e =>
           if bool_decide (err_name e = lit "AbortError") then throw e
           else
             console LogError (lit "OpenAI Chat Error:") ;;;
             throw (newError
                      (or_else (err_message e) (lit "OpenAI chat failed"))))
  | DeepLX =>
      throw (newError (lit "Provider " ++ providerName provider ++
                       lit " not supported for chat yet."))
  end.

(** *** search *)

Definition searchInstruction : jsstring :=
  lit "You are a sophisticated, full-featured search assistant.
      CORE INSTRUCTIONS:
      1. Synthesize findings into a clear, structured Markdown report.
      2. Citations: When citing a source, include the URL in Markdown format like [Source Name](URL).
      RICH CONTENT RENDERING RULES:
      1. Diagrams: Use Mermaid with strict quoting rules.
      2. Code: Proper Markdown blocks.
      3. Math: LaTeX.
      4. Tables: Markdown tables.
      ".

Definition contextLine (d : SearchSource) : jsstring :=
  lit "[" ++ ss_title d ++ lit "](" ++ ss_uri d ++ lit "): " ++
  default (lit "undefined") (ss_snippet d).

Definition chunkSource (chunk : GroundingChunk) : option SearchSource :=
  match gc_web chunk with
  | Some w =>
      if truthyOpt (wc_uri w) && truthyOpt (wc_title w)
      then Some {| ss_title := default [] (wc_title w);
                   ss_uri := default [] (wc_uri w);
                   ss_snippet := Some [] |}
      else None
  | None => None
  end.

Definition groundingSources (chunks : list GroundingChunk)
  : list SearchSource := omap chunkSource chunks.

Definition linkSources (text : jsstring) : list SearchSource :=
  (fun m => {| ss_title := m.1; ss_uri := m.2; ss_snippet := None |})
    <$> linkMatches 0 text.

Definition wikiSource (w : WikiData) : SearchSource :=
  {| ss_title := wd_title w; ss_uri := wd_uri w; ss_snippet := None |}.

(** [rawSources] as it stands when the deduplication loop starts: the
    grounding citations, the inline links pushed after them, the
    encyclopedia entry unshifted to the front, then both providers'
    results pushed at the back. *)
Definition rawSources (wikiData : option WikiData)
    (tavilyData braveData : list SearchSource)
    (chunks : list GroundingChunk) (text : jsstring) : list SearchSource :=
  let raw := groundingSources chunks ++ linkSources text in
  let raw := match wikiData with
             | Some w => wikiSource w :: raw
             | None => raw
             end in
  (raw ++ tavilyData) ++ braveData.

Definition stripFragment (uri : jsstring) : jsstring := JS.splitHead 35 uri.

Definition keepSource (seenUris : gset jsstring) (uri : jsstring) : bool :=
  truthy uri && negb (JS.includes (lit "vertexaisearch") uri) &&
  negb (bool_decide (uri ∈ seenUris)).

Definition cleanStep (acc : list SearchSource * gset jsstring)
    (s : SearchSource) : list SearchSource * gset jsstring :=
  let uri := stripFragment (ss_uri s) in
  if keepSource acc.2 uri then (acc.1 ++ [s], {[uri]} ∪ acc.2) else acc.

Definition cleanSources (raw : list SearchSource) : list SearchSource :=
  (foldl cleanStep ([], ∅) raw).1.

Definition orEmpty {A} (o : Outcome (list A)) : list A :=
  match o with Ok v => v | Throw _ => [] end.
Definition orNull {A} (o : Outcome (option A)) : option A :=
  match o with Ok v => v | Throw _ => None end.

(** The instruction of the grounded call: the fixed text, then one
    context block per non-empty source. *)
Definition searchSystemInstruction (wikiData : option WikiData)
    (tavilyData braveData : list SearchSource) : jsstring :=
  let sys := searchInstruction in
  let sys :=
    match wikiData with
    | Some w =>
        sys ++ nl ++ nl ++
        lit "Additional Verified Context from Wikipedia: " ++ dq ++
        wd_content w ++ dq
    | None => sys
    end in
  let sys :=
    match tavilyData with
    | [] => sys
    | _ :: _ =>
        sys ++ nl ++ nl ++ lit "Additional Context from Tavily: " ++
        join nl (contextLine <$> tavilyData)
    end in
  match braveData with
  | [] => sys
  | _ :: _ =>
      sys ++ nl ++ nl ++ lit "Additional Context from Brave: " ++
      join nl (contextLine <$> braveData)
  end.

Definition searchRequest (query model sys : jsstring) : GenerateRequest :=
  {| gr_model := model;
     gr_contents := StringContents query;
     gr_systemInstruction := sys;
     gr_temperature := None;
     gr_googleSearch := true |}.

(** What [search] returns once the grounded call has answered. *)
Definition searchAnswer (wikiData : option WikiData)
    (tavilyData braveData : list SearchSource)
    (response : GenerateResponse) : SearchResult :=
  let text :=
    or_else (default [] (resp_text response)) (lit "No result found.") in
  let raw := rawSources wikiData tavilyData braveData
               (resp_groundingChunks response) text in
  {| sr_text := text; sr_sources := cleanSources raw |}.

(** What the [catch] of [search] returns. *)
Definition searchUnavailable (e : JsError) : SearchResult :=
  {| sr_text := lit "**Search Unavailable**: " ++ err_message e;
     sr_sources := [] |}.

(** The three sources are independent of one another and leave the
    service state alone, so running them one after the other yields the
    values [Promise.allSettled] collects. *)
Definition search (query : jsstring) (model : option jsstring)
  : M SearchResult :=
  let model := default (lit "gemini-2.5-flash") model in
  tryCatch
    (wikiResult <- settle (fetchWikipedia query) ;;
     tavilyResult <- settle (fetchTavily query) ;;
     braveResult <- settle (fetchBrave query) ;;
     let wikiData := orNull wikiResult in
     let tavilyData := orEmpty tavilyResult in
     let braveData := orEmpty braveResult in
     ai <- getAiClient ;;
     let sys := searchSystemInstruction wikiData tavilyData braveData in
     response <- generateContent ai (searchRequest query model sys) ;;
     ret (searchAnswer wikiData tavilyData braveData response))
    (fun e =>
       console LogError (lit "Search Error:") ;;;
       ret (searchUnavailable e)).

Definition summarizePage (url : jsstring) (model : option jsstring)
  : M jsstring :=
  let model := default (lit "gemini-2.5-flash") model in
  tryCatch
    (ai <- getAiClient ;;
     response <- generateContent ai
       {| gr_model := model;
          gr_contents := StringContents
            (lit "Please visit and summarize this page: " ++ url);
          gr_systemInstruction :=
            lit "You are a web summarizer. Output in structured Markdown.";
          gr_temperature := None;
          gr_googleSearch := true |} ;;
     ret (or_else (default [] (resp_text response))
            (lit "Could not summarize page.")))
    (fun e =>
       console LogError (lit "Summarize Page Error:") ;;;
       ret (lit "Failed to summarize page: " ++ err_message e)).

End Service.

(** ** Translation history (App.tsx)

    Each handler is the updater it passes to [setHistory]. *)

Module History.

Definition newItem (transState imgTransState : TranslationState)
    (id : jsstring) (now : Z) (source result : jsstring) (isImage : bool)
  : HistoryItem :=
  {| hi_id := id;
     hi_sourceText := source;
     hi_translatedText := result;
     hi_sourceLang := if isImage then ts_sourceLang imgTransState
                      else ts_sourceLang transState;
     hi_targetLang := if isImage then ts_targetLang imgTransState
                      else ts_targetLang transState;
     hi_provider := if isImage then ts_selectedProvider imgTransState
                    else ts_selectedProvider transState;
     hi_timestamp := now;
     isFavorite := false;
     wasImage := isImage |}.

(** [id] is the fresh [uuidv4()] and [now] is [Date.now()]. *)
Definition addToHistory (transState imgTransState : TranslationState)
    (id : jsstring) (now : Z) (source result : jsstring) (isImage : bool)
    (prev : list HistoryItem) : list HistoryItem :=
  JS.slice 0 (Some 50)
    (newItem transState imgTransState id now source result isImage :: prev).

Definition toggle (h : HistoryItem) : HistoryItem :=
  {| hi_id := hi_id h; hi_sourceText := hi_sourceText h;
     hi_translatedText := hi_translatedText h;
     hi_sourceLang := hi_sourceLang h; hi_targetLang := hi_targetLang h;
     hi_provider := hi_provider h; hi_timestamp := hi_timestamp h;
     isFavorite := negb (isFavorite h); wasImage := wasImage h |}.

Definition onToggleFavorite (id : jsstring) (prev : list HistoryItem)
  : list HistoryItem :=
  (fun h => if bool_decide (hi_id h = id) then toggle h else h) <$> prev.

Definition onDelete (id : jsstring) (prev : list HistoryItem)
  : list HistoryItem :=
  filter (fun h => hi_id h ≠ id) prev.

Definition onClearHistory (prev : list HistoryItem) : list HistoryItem :=
  filter (fun h => isFavorite h = true) prev.

End History.

#[global] Instance ProviderType_eq_dec : EqDecision ProviderType.
Proof. solve_decision. Defined.
#[global] Instance HistoryItem_eq_dec : EqDecision HistoryItem.
Proof. solve_decision. Defined.
#[global] Instance SearchSource_eq_dec : EqDecision SearchSource.
Proof. solve_decision. Defined.

(** ** The application shell (App.tsx) *)

Module App.

Inductive AppView :=
| ViewSearch | ViewChat | ViewTranslate | ViewImageTranslate | ViewSettings.

(** The state the handlers below read and update. *)
Record AppState := {
  transState : TranslationState;
  imgTransState : TranslationState;
  history : list HistoryItem;
  currentView : AppView;
  isHistoryOpen : bool
}.

Definition setTransState (f : TranslationState -> TranslationState)
    (st : AppState) : AppState :=
  {| transState := f (transState st); imgTransState := imgTransState st;
     history := history st; currentView := currentView st;
     isHistoryOpen := isHistoryOpen st |}.

Definition setImgTransState (f : TranslationState -> TranslationState)
    (st : AppState) : AppState :=
  {| transState := transState st; imgTransState := f (imgTransState st);
     history := history st; currentView := currentView st;
     isHistoryOpen := isHistoryOpen st |}.

Definition setHistory (f : list HistoryItem -> list HistoryItem)
    (st : AppState) : AppState :=
  {| transState := transState st; imgTransState := imgTransState st;
     history := f (history st); currentView := currentView st;
     isHistoryOpen := isHistoryOpen st |}.

Definition setCurrentView (v : AppView) (st : AppState) : AppState :=
  {| transState := transState st; imgTransState := imgTransState st;
     history := history st; currentView := v;
     isHistoryOpen := isHistoryOpen st |}.

Definition setIsHistoryOpen (b : bool) (st : AppState) : AppState :=
  {| transState := transState st; imgTransState := imgTransState st;
     history := history st; currentView := currentView st;
     isHistoryOpen := b |}.

(** [{ ...prev, isLoading: true, error: null }] *)
Definition loading (prev : TranslationState) : TranslationState :=
  {| ts_sourceText := ts_sourceText prev;
     ts_translatedText := ts_translatedText prev;
     ts_isLoading := true; ts_error := None;
     ts_sourceLang := ts_sourceLang prev; ts_targetLang := ts_targetLang prev;
     ts_selectedProvider := ts_selectedProvider prev;
     ts_selectedModel := ts_selectedModel prev; ts_industry := ts_industry prev;
     ts_attachedImage := ts_attachedImage prev;
     ts_tempImage := ts_tempImage prev |}.

(** [{ ...prev, translatedText: result, isLoading: false }] *)
Definition translated (result : jsstring) (prev : TranslationState)
  : TranslationState :=
  {| ts_sourceText := ts_sourceText prev;
     ts_translatedText := result;
     ts_isLoading := false; ts_error := ts_error prev;
     ts_sourceLang := ts_sourceLang prev; ts_targetLang := ts_targetLang prev;
     ts_selectedProvider := ts_selectedProvider prev;
     ts_selectedModel := ts_selectedModel prev; ts_industry := ts_industry prev;
     ts_attachedImage := ts_attachedImage prev;
     ts_tempImage := ts_tempImage prev |}.

(** [{ ...prev, error: err.message, isLoading: false }] *)
Definition failed (message : jsstring) (prev : TranslationState)
  : TranslationState :=
  {| ts_sourceText := ts_sourceText prev;
     ts_translatedText := ts_translatedText prev;
     ts_isLoading := false; ts_error := Some message;
     ts_sourceLang := ts_sourceLang prev; ts_targetLang := ts_targetLang prev;
     ts_selectedProvider := ts_selectedProvider prev;
     ts_selectedModel := ts_selectedModel prev; ts_industry := ts_industry prev;
     ts_attachedImage := ts_attachedImage prev;
     ts_tempImage := ts_tempImage prev |}.

(** The parameters [handleTranslate] passes to the service. *)
Definition textParams (ts : TranslationState) : TranslateParams :=
  {| tp_text := ts_sourceText ts; tp_sourceLang := ts_sourceLang ts;
     tp_targetLang := ts_targetLang ts; tp_imageBase64 := None;
     tp_model := ts_selectedModel ts; tp_industry := Some (ts_industry ts) |}.

(** The parameters [handleImageTranslate] passes to the service. *)
Definition imageParams (ts : TranslationState) : TranslateParams :=
  {| tp_text := []; tp_sourceLang := ts_sourceLang ts;
     tp_targetLang := ts_targetLang ts;
     tp_imageBase64 := ts_attachedImage ts;
     tp_model := ts_selectedModel ts; tp_industry := Some (ts_industry ts) |}.

(** A handler reads the state of the render it was created in
    ([rendered]) and applies its updaters to the state current at that
    moment ([st]); [id] is the [uuidv4()] and [now] the [Date.now()] of the
    history entry. *)
Definition handleTranslate (W : World) (rendered : AppState)
    (id : jsstring) (now : Z) (st : AppState) : M AppState :=
  let ts := transState rendered in
  if negb (truthy (ts_sourceText ts)) then ret st
  else
    let st := setTransState loading st in
    tryCatch
      (result <- translate W (providerName (ts_selectedProvider ts))
                   (textParams ts) ;;
       let st := setTransState (translated result) st in
       ret (setHistory
              (History.addToHistory (transState rendered)
                 (imgTransState rendered) id now (ts_sourceText ts) result
                 false) st))
      (fun err => ret (setTransState (failed (err_message err)) st)).

Definition handleImageTranslate (W : World) (rendered : AppState)
    (id : jsstring) (now : Z) (st : AppState) : M AppState :=
  let ts := imgTransState rendered in
  if negb (truthyOpt (ts_attachedImage ts)) then ret st
  else
    let st := setImgTransState loading st in
    tryCatch
      (result <- translate W (providerName (ts_selectedProvider ts))
                   (imageParams ts) ;;
       let st := setImgTransState (translated result) st in
       ret (setHistory
              (History.addToHistory (transState rendered)
                 (imgTransState rendered) id now (lit "[Image Translation]")
                 result true) st))
      (fun err => ret (setImgTransState (failed (err_message err)) st)).

(** The updater of [handleSwapLanguages]. *)
Definition handleSwapLanguages (prev : TranslationState) : TranslationState :=
  {| ts_sourceText := ts_translatedText prev;
     ts_translatedText := ts_sourceText prev;
     ts_isLoading := ts_isLoading prev; ts_error := ts_error prev;
     ts_sourceLang := ts_targetLang prev;
     ts_targetLang := if bool_decide (ts_sourceLang prev = lit "auto")
                      then lit "EN" else ts_sourceLang prev;
     ts_selectedProvider := ts_selectedProvider prev;
     ts_selectedModel := ts_selectedModel prev; ts_industry := ts_industry prev;
     ts_attachedImage := ts_attachedImage prev;
     ts_tempImage := ts_tempImage prev |}.

(** [onSelect] of the history panel. *)
Definition onSelect (item : HistoryItem) (st : AppState) : AppState :=
  let st :=
    if wasImage item then
      setCurrentView ViewImageTranslate
        (setImgTransState
           (fun prev =>
              {| ts_sourceText := ts_sourceText prev;
                 ts_translatedText := hi_translatedText item;
                 ts_isLoading := ts_isLoading prev; ts_error := ts_error prev;
                 ts_sourceLang := hi_sourceLang item;
                 ts_targetLang := hi_targetLang item;
                 ts_selectedProvider := hi_provider item;
                 ts_selectedModel := ts_selectedModel prev;
                 ts_industry := ts_industry prev;
                 ts_attachedImage := ts_attachedImage prev;
                 ts_tempImage := ts_tempImage prev |}) st)
    else
      setCurrentView ViewTranslate
        (setTransState
           (fun prev =>
              {| ts_sourceText := hi_sourceText item;
                 ts_translatedText := hi_translatedText item;
                 ts_isLoading := ts_isLoading prev; ts_error := ts_error prev;
                 ts_sourceLang := hi_sourceLang item;
                 ts_targetLang := hi_targetLang item;
                 ts_selectedProvider := hi_provider item;
                 ts_selectedModel := ts_selectedModel prev;
                 ts_industry := ts_industry prev;
                 ts_attachedImage := ts_attachedImage prev;
                 ts_tempImage := ts_tempImage prev |}) st) in
  setIsHistoryOpen false st.

End App.

(** ** The chat panel (components/ChatPanel.tsx) *)

Record ChatSession := {
  cs_id : jsstring;
  cs_title : jsstring;
  cs_messages : list ChatMessage;
  cs_updatedAt : Z;
  cs_provider : ProviderType;
  cs_model : jsstring;
  cs_settings : ChatSettings
}.

(** [Partial<ChatSession>]: the fields an update carries. *)
Record SessionUpdates := {
  up_id : option jsstring;
  up_title : option jsstring;
  up_messages : option (list ChatMessage);
  up_updatedAt : option Z;
  up_provider : option ProviderType;
  up_model : option jsstring;
  up_settings : option ChatSettings
}.

Module ChatPanel.

Record ChatPanelState := {
  sessions : list ChatSession;
  currentSessionId : option jsstring;
  input : jsstring;
  isLoading : bool;
  isSidebarOpen : bool;
  isMobile : bool;
  attachedImage : option jsstring;
  abortControllerRef : option AbortSignal
}.

Definition defaultSettings : ChatSettings :=
  {| temperature := 7 # 10; maxContext := 10; maxTurns := 20;
     systemInstruction := None |}.

Definition setSessions (f : list ChatSession -> list ChatSession)
    (st : ChatPanelState) : ChatPanelState :=
  {| sessions := f (sessions st); currentSessionId := currentSessionId st;
     input := input st; isLoading := isLoading st;
     isSidebarOpen := isSidebarOpen st; isMobile := isMobile st;
     attachedImage := attachedImage st;
     abortControllerRef := abortControllerRef st |}.

Definition setCurrentSessionId (id : option jsstring)
    (st : ChatPanelState) : ChatPanelState :=
  {| sessions := sessions st; currentSessionId := id;
     input := input st; isLoading := isLoading st;
     isSidebarOpen := isSidebarOpen st; isMobile := isMobile st;
     attachedImage := attachedImage st;
     abortControllerRef := abortControllerRef st |}.

Definition setIsSidebarOpen (b : bool) (st : ChatPanelState)
  : ChatPanelState :=
  {| sessions := sessions st; currentSessionId := currentSessionId st;
     input := input st; isLoading := isLoading st;
     isSidebarOpen := b; isMobile := isMobile st;
     attachedImage := attachedImage st;
     abortControllerRef := abortControllerRef st |}.

(** [sessions.find(s => s.id === currentSessionId)] *)
Definition currentSession (st : ChatPanelState) : option ChatSession :=
  match currentSessionId st with
  | Some id => List.find (fun s => bool_decide (cs_id s = id)) (sessions st)
  | None => None
  end.

(** [id] is the [uuidv4()] and [now] the [Date.now()] of the session. *)
Definition createNewSession (defaultProvider : ProviderType)
    (defaultModel : jsstring) (rendered : ChatPanelState)
    (id : jsstring) (now : Z) (st : ChatPanelState) : ChatPanelState :=
  let newSession :=
    {| cs_id := id; cs_title := lit "New Chat"; cs_messages := [];
       cs_updatedAt := now; cs_provider := defaultProvider;
       cs_model := defaultModel; cs_settings := defaultSettings |} in
  let st := setSessions (fun prev => newSession :: prev) st in
  let st := setCurrentSessionId (Some (cs_id newSession)) st in
  if isMobile rendered then setIsSidebarOpen false st else st.

(** [{ ...s, ...updates, updatedAt: Date.now() }] *)
Definition merge (s : ChatSession) (updates : SessionUpdates) (now : Z)
  : ChatSession :=
  {| cs_id := default (cs_id s) (up_id updates);
     cs_title := default (cs_title s) (up_title updates);
     cs_messages := default (cs_messages s) (up_messages updates);
     cs_updatedAt := now;
     cs_provider := default (cs_provider s) (up_provider updates);
     cs_model := default (cs_model s) (up_model updates);
     cs_settings := default (cs_settings s) (up_settings updates) |}.

(** The updater [updateSession] hands to [setSessions]. *)
Definition updateSession (id : jsstring) (updates : SessionUpdates)
    (now : Z) (prev : list ChatSession) : list ChatSession :=
  (fun s => if bool_decide (cs_id s = id) then merge s updates now else s)
    <$> prev.

Definition titleUpdate (title : jsstring) : SessionUpdates :=
  {| up_id := None; up_title := Some title; up_messages := None;
     up_updatedAt := None; up_provider := None; up_model := None;
     up_settings := None |}.

Definition messagesUpdate (messages : list ChatMessage) : SessionUpdates :=
  {| up_id := None; up_title := None; up_messages := Some messages;
     up_updatedAt := None; up_provider := None; up_model := None;
     up_settings := None |}.

Definition deleteSession (rendered : ChatPanelState) (id : jsstring)
    (st : ChatPanelState) : ChatPanelState :=
  let filtered := filter (fun s => cs_id s ≠ id) (sessions st) in
  let st' := setSessions (fun _ => filtered) st in
  match filtered with
  | first :: _ =>
      if bool_decide (currentSessionId rendered = Some id)
      then setCurrentSessionId (Some (cs_id first)) st'
      else st'
  | [] => setCurrentSessionId None st'
  end.

Definition handleRename (id newTitle : jsstring) (now : Z)
    (st : ChatPanelState) : ChatPanelState :=
  setSessions (updateSession id (titleUpdate newTitle) now) st.

Definition handleDeleteMessage (rendered : ChatPanelState) (msgId : jsstring)
    (now : Z) (st : ChatPanelState) : ChatPanelState :=
  match currentSession rendered with
  | None => st
  | Some cur =>
      let updatedMessages :=
        filter (fun m => cm_id m ≠ msgId) (cs_messages cur) in
      setSessions (updateSession (cs_id cur) (messagesUpdate updatedMessages)
                     now) st
  end.





(** The [finally] block. *)
Definition settled (st : ChatPanelState) : ChatPanelState :=
  {| sessions := sessions st; currentSessionId := currentSessionId st;
     input := input st; isLoading := false;
     isSidebarOpen := isSidebarOpen st; isMobile := isMobile st;
     attachedImage := attachedImage st;
     abortControllerRef := None |}.


End ChatPanel.

(** The selection refers to a session of the list, and there is none
    only when the list is empty. *)
Definition selectionValid (st : ChatPanel.ChatPanelState) : Prop :=
  match ChatPanel.currentSessionId st with
  | Some id => id ∈ cs_id <$> ChatPanel.sessions st
  | None => ChatPanel.sessions st = []
  end.

(** ** The history panel (components/HistoryPanel.tsx) *)

Module HistoryPanel.

Inductive Tab := recent | favorites.

(** [items.sort((a, b) => b.timestamp - a.timestamp)]: the sort is stable,
    so among entries of one timestamp the earlier one stays first; [insert]
    puts an entry before the first one that is not newer. *)
Fixpoint insert (x : HistoryItem) (l : list HistoryItem) : list HistoryItem :=
  match l with
  | [] => [x]
  | y :: l' =>
      if hi_timestamp y <=? hi_timestamp x then x :: l
      else y :: insert x l'
  end.

Fixpoint sort (l : list HistoryItem) : list HistoryItem :=
  match l with
  | [] => []
  | x :: l' => insert x (sort l')
  end.

Definition matches (toLowerCase : jsstring -> jsstring) (lowerQ : jsstring)
    (item : HistoryItem) : bool :=
  JS.includes lowerQ (toLowerCase (hi_sourceText item)) ||
  JS.includes lowerQ (toLowerCase (hi_translatedText item)).

(** [toLowerCase] is [String.prototype.toLowerCase]. *)
Definition filteredItems (toLowerCase : jsstring -> jsstring)
    (history : list HistoryItem) (activeTab : Tab) (searchQuery : jsstring)
  : list HistoryItem :=
  let items :=
    match activeTab with
    | recent => history
    | favorites => filter (fun h => isFavorite h = true) history
    end in
  let items := sort items in
  if truthy searchQuery then
    let lowerQ := toLowerCase searchQuery in
    filter (fun item => matches toLowerCase lowerQ item = true) items
  else items.

End HistoryPanel.

(** Newest first. *)
Definition newestFirst (l : list HistoryItem) : Prop :=
  StronglySorted (fun x y => hi_timestamp y <= hi_timestamp x) l.

(** ** The search panel (components/SearchPanel.tsx) *)

Module SearchPanel.

Inductive RightPanelMode := ModeSummary | ModeBrowser | ModePageAi.

Record SearchPanelState := {
  query : jsstring;
  result : option SearchResult;
  pageSummary : option jsstring;
  loadingSearch : bool;
  loadingPageSummary : bool;
  error : option jsstring;
  hasSearched : bool;
  isExpanded : bool;
  activeUrl : option jsstring;
  rightPanelMode : RightPanelMode
}.

(** The resets [handleSearch] makes before it calls the service. *)
Definition searching (st : SearchPanelState) : SearchPanelState :=
  {| query := query st; result := None; pageSummary := None;
     loadingSearch := true; loadingPageSummary := loadingPageSummary st;
     error := None; hasSearched := true; isExpanded := isExpanded st;
     activeUrl := None; rightPanelMode := ModeSummary |}.

Definition setResult (data : SearchResult) (st : SearchPanelState)
  : SearchPanelState :=
  {| query := query st; result := Some data; pageSummary := pageSummary st;
     loadingSearch := loadingSearch st;
     loadingPageSummary := loadingPageSummary st;
     error := error st; hasSearched := hasSearched st;
     isExpanded := isExpanded st; activeUrl := activeUrl st;
     rightPanelMode := rightPanelMode st |}.

Definition setError (message : jsstring) (st : SearchPanelState)
  : SearchPanelState :=
  {| query := query st; result := result st; pageSummary := pageSummary st;
     loadingSearch := loadingSearch st;
     loadingPageSummary := loadingPageSummary st;
     error := Some message; hasSearched := hasSearched st;
     isExpanded := isExpanded st; activeUrl := activeUrl st;
     rightPanelMode := rightPanelMode st |}.

Definition setLoadingSearch (b : bool) (st : SearchPanelState)
  : SearchPanelState :=
  {| query := query st; result := result st; pageSummary := pageSummary st;
     loadingSearch := b; loadingPageSummary := loadingPageSummary st;
     error := error st; hasSearched := hasSearched st;
     isExpanded := isExpanded st; activeUrl := activeUrl st;
     rightPanelMode := rightPanelMode st |}.

(** [rendered] is the state of the render the handler was created in,
    [st] the state its updates apply to. *)
Definition handleSearch (W : World) (defaultModel : jsstring)
    (rendered st : SearchPanelState) : M SearchPanelState :=
  if negb (truthy (JS.trim (query rendered))) then ret st
  else
    let st := searching st in
    settled <- settle (search W (query rendered) (Some defaultModel)) ;;
    let st :=
      match settled with
      | Ok data => setResult data st
      | Throw e => setError (err_message e) st
      end in
    ret (setLoadingSearch false st).

(** The updates [handleSummarizePage] makes before it calls the service. *)
Definition summarizing (st : SearchPanelState) : SearchPanelState :=
  {| query := query st; result := result st; pageSummary := pageSummary st;
     loadingSearch := loadingSearch st; loadingPageSummary := true;
     error := error st; hasSearched := hasSearched st;
     isExpanded := isExpanded st; activeUrl := activeUrl st;
     rightPanelMode := ModePageAi |}.

Definition summarized (summary : jsstring) (st : SearchPanelState)
  : SearchPanelState :=
  {| query := query st; result := result st; pageSummary := Some summary;
     loadingSearch := loadingSearch st; loadingPageSummary := false;
     error := error st; hasSearched := hasSearched st;
     isExpanded := isExpanded st; activeUrl := activeUrl st;
     rightPanelMode := rightPanelMode st |}.

Definition handleSummarizePage (W : World) (defaultModel : jsstring)
    (rendered st : SearchPanelState) : M SearchPanelState :=
  if negb (truthyOpt (activeUrl rendered)) then ret st
  else
    let st := summarizing st in
    settled <- settle (summarizePage W (default [] (activeUrl rendered))
                         (Some defaultModel)) ;;
    ret (summarized
           match settled with
           | Ok summary => summary
           | Throw _ =>
               lit "Error summarizing this page. It might be inaccessible."
           end st).

End SearchPanel.

(** ** Observables of a run *)

(** A computation that leaves the service state as it found it. *)
Definition preserves {A} (m : M A) : Prop := forall s, final (m s) = s.



(** What each source hands to [search] from state [s]. *)
Definition wikiOf (W : World) (query : jsstring) (s : ServiceState)
  : option WikiData := orNull (outcome (fetchWikipedia W query s)).
Definition tavilyOf (W : World) (query : jsstring) (s : ServiceState)
  : list SearchSource := orEmpty (outcome (fetchTavily W query s)).
Definition braveOf (W : World) (query : jsstring) (s : ServiceState)
  : list SearchSource := orEmpty (outcome (fetchBrave W query s)).

(** The synthesis step of [search]: the client is obtained and the
    grounded call is issued with the instruction built from the sources. *)
Definition synthesis (W : World) (query : jsstring) (model : option jsstring)
    (s : ServiceState) : Outcome GenerateResponse :=
  match outcome (getAiClient W s) with
  | Ok ai =>
      sdk_generateContent W ai
        (searchRequest query (default (lit "gemini-2.5-flash") model)
           (searchSystemInstruction (wikiOf W query s) (tavilyOf W query s)
              (braveOf W query s)))
  | Throw e => Throw e
  end.

(** ** Reading the deduplication loop as a recursion

    [cleanFrom seen raw] is what the loop appends to [cleanSources] when it
    starts on [raw] with [seenUris = seen]. *)

Definition baseUri (s : SearchSource) : jsstring := stripFragment (ss_uri s).

Definition hasMarker (uri : jsstring) : bool :=
  JS.includes (lit "vertexaisearch") uri.

Fixpoint cleanFrom (seen : gset jsstring) (raw : list SearchSource)
  : list SearchSource :=
  match raw with
  | [] => []
  | s :: raw' =>
      if keepSource seen (baseUri s)
      then s :: cleanFrom ({[baseUri s]} ∪ seen) raw'
      else cleanFrom seen raw'
  end.


(** ** Predicates used in the statements below *)

(** No ECMAScript line terminator occurs in [s]. *)
Definition noLineTerminator (s : jsstring) : Prop :=
  Forall (fun c => JS.isLineTerminator c = false) s.

(** A source the filter of [search] keeps on its own. *)
Definition cleanSource (s : SearchSource) : Prop :=
  baseUri s <> [] /\ hasMarker (baseUri s) = false.

(** The OCR calls of a trace. *)
Definition isOCR (ev : Event) : bool :=
  match ev with EvOCR _ _ => true | _ => false end.

Definition ocrCalls (t : list Event) : list Event := List.filter isOCR t.

(** ** Constants (constants.ts) *)

(** [LANGUAGES]: code and name. *)
Definition LANGUAGES : list (jsstring * jsstring) :=
  [ (lit "ZH", lit "Chinese (Simplified)"); (lit "EN", lit "English");
    (lit "JA", lit "Japanese"); (lit "KO", lit "Korean");
    (lit "FR", lit "French"); (lit "DE", lit "German");
    (lit "ES", lit "Spanish"); (lit "RU", lit "Russian");
    (lit "PT", lit "Portuguese"); (lit "IT", lit "Italian");
    (lit "NL", lit "Dutch"); (lit "PL", lit "Polish");
    (lit "TR", lit "Turkish"); (lit "AR", lit "Arabic");
    (lit "HI", lit "Hindi"); (lit "VI", lit "Vietnamese");
    (lit "TH", lit "Thai"); (lit "ID", lit "Indonesian") ].

(** ** Concrete inputs used by the examples below *)

Module Ex.

Definition src (title uri : string) : SearchSource :=
  {| ss_title := lit title; ss_uri := lit uri; ss_snippet := None |}.

(** Two fragments of one page, then a redirect-host link. *)
Definition mergedSources : list SearchSource :=
  [ src "Guide" "https://a.example/guide#install";
    src "Guide (usage)" "https://a.example/guide#usage";
    src "Redirect" "https://vertexaisearch.cloud.google.com/r/1" ].


(** What [fetch] rejects with when the network is down. *)
Definition netDown : JsError :=
  {| err_name := lit "TypeError"; err_message := lit "Failed to fetch" |}.

Definition tavilyHits : list TavilyHit :=
  [ {| th_title := lit "Install guide";
       th_url := lit "https://a.example/guide";
       th_content := Some (lit "How to install") |} ].

Definition paramsJoin (l : list (jsstring * jsstring)) : jsstring :=
  join (lit "&") ((fun kv => kv.1 ++ lit "=" ++ kv.2) <$> l).

(** A browser in which the Tavily endpoint answers with [hits], Wikipedia
    answers when [wikiUp] holds, and every other request finds the network
    down.  [synth] is what the Gemini SDK answers and [ocr] what the OCR
    engine reads. *)
Definition worldWith (wikiUp : bool) (hits : list TavilyHit)
    (synth : Outcome GenerateResponse) (ocr : Outcome jsstring) : World :=
  {| env_API_KEY := None;
     net_fetch := fun req =>
       if bool_decide (fr_url req = lit "https://api.tavily.com/search")
       then FetchResponds true 200 (lit "{tavily}")
       else if wikiUp && JS.includes (lit "list=search") (fr_url req)
       then FetchResponds true 200 (lit "{wiki-search}")
       else if wikiUp && JS.includes (lit "prop=extracts") (fr_url req)
       then FetchResponds true 200 (lit "{wiki-pages}")
       else FetchRejects netDown;
     JSON_parse := fun text =>
       if bool_decide (text = lit "{tavily}") then Some (TavilyData hits)
       else if bool_decide (text = lit "{wiki-search}")
       then Some (WikiSearchData
                    [{| wh_pageid := 7; wh_title := lit "Rocq" |}])
       else if bool_decide (text = lit "{wiki-pages}")
       then Some (WikiPagesData {[ 7 := lit "Rocq is a proof assistant." ]})
       else None;
     URLSearchParams_toString := paramsJoin;
     encodeURIComponent := fun t => t;
     sdk_construct := fun _ => None;
     sdk_generateContent := fun _ _ => synth;
     sdk_sendMessage := fun _ _ _ => synth;
     tesseract_recognize := fun _ _ => ocr |}.

Definition world : Outcome GenerateResponse -> Outcome jsstring -> World :=
  worldWith false tavilyHits.



(** A browser in which a request carrying a signal is aborted. *)
Definition aborted : JsError :=
  {| err_name := lit "AbortError";
     err_message := lit "The user aborted a request." |}.

Definition abortingWorld : World :=
  {| env_API_KEY := None;
     net_fetch := fun req =>
       match fr_signal req with
       | Some _ => FetchRejects aborted
       | None => FetchRejects netDown
       end;
     JSON_parse := fun _ => None;
     URLSearchParams_toString := paramsJoin;
     encodeURIComponent := fun t => t;
     sdk_construct := fun _ => None;
     sdk_generateContent := fun _ _ => Throw netDown;
     sdk_sendMessage := fun _ _ _ => Throw netDown;
     tesseract_recognize := fun _ _ => Throw netDown |}.

(** A browser in which every request is answered with [out] and every
    non-empty body parses to [data]. *)
Definition server (out : FetchOutcome) (data : option ApiData) : World :=
  {| env_API_KEY := None;
     net_fetch := fun _ => out;
     JSON_parse := fun _ => data;
     URLSearchParams_toString := paramsJoin;
     encodeURIComponent := fun t => t;
     sdk_construct := fun _ => None;
     sdk_generateContent := fun _ _ => Throw netDown;
     sdk_sendMessage := fun _ _ _ => Throw netDown;
     tesseract_recognize := fun _ _ => Throw netDown |}.

Definition config (deeplx openai gemini tavily : string) : ApiConfig :=
  {| deeplxEndpoint := lit deeplx;
     openaiBaseUrl := lit "https://api.openai.com/v1";
     openaiKey := lit openai;
     geminiBaseUrl := [];
     geminiKey := lit gemini;
     tavilyKey := lit tavily;
     braveKey := [] |}.

Definition state (deeplx openai gemini tavily : string) : ServiceState :=
  {| activeConfig := config deeplx openai gemini tavily;
     aiInstance := None |}.

(** An answer citing the page Tavily also returned. *)
Definition cited : GenerateResponse :=
  {| resp_text := Some (lit "See [the guide](https://a.example/guide).");
     resp_groundingChunks := [] |}.

(** An answer with one grounding citation and one inline link. *)
Definition grounded : GenerateResponse :=
  {| resp_text := Some (lit "See [the guide](https://a.example/guide).");
     resp_groundingChunks :=
       [ {| gc_web := Some {| wc_uri := Some (lit "https://g.example/");
                              wc_title := Some (lit "Grounded") |} |} ] |}.

Definition quota : JsError := newError (lit "quota exceeded").


Definition wiki : WikiData :=
  {| wd_title := lit "Rocq (Wikipedia)";
     wd_uri := lit "https://en.wikipedia.org/wiki/Rocq";
     wd_content := lit "Rocq is a proof assistant." |}.

Definition message (id : string) (role : Role) (content : string)
  : ChatMessage :=
  {| cm_id := lit id; cm_role := role; cm_content := lit content;
     cm_timestamp := 0; cm_image := None |}.

Definition conversation : list ChatMessage :=
  [ message "1" user "first"; message "2" assistant "second";
    message "3" user "third" ].

Definition settings (k : Z) : ChatSettings :=
  {| temperature := 7 # 10; maxContext := k; maxTurns := 20;
     systemInstruction := None |}.

Definition request (text : string) (image : option jsstring)
  : TranslateParams :=
  {| tp_text := lit text; tp_sourceLang := lit "JA";
     tp_targetLang := lit "EN"; tp_imageBase64 := image;
     tp_model := lit "deeplx"; tp_industry := None |}.

Definition item (id : string) (fav : bool) : HistoryItem :=
  {| hi_id := lit id; hi_sourceText := lit "hello";
     hi_translatedText := lit "bonjour"; hi_sourceLang := lit "EN";
     hi_targetLang := lit "FR"; hi_provider := Gemini; hi_timestamp := 0;
     isFavorite := fav; wasImage := false |}.

(** Fifty entries, the oldest of them a favourite. *)
Definition fullHistory : list HistoryItem :=
  replicate 49 (item "plain" false) ++ [item "starred" true].

Definition panel : TranslationState :=
  {| ts_sourceText := lit "good night"; ts_translatedText := [];
     ts_isLoading := false; ts_error := None; ts_sourceLang := lit "EN";
     ts_targetLang := lit "FR"; ts_selectedProvider := Gemini;
     ts_selectedModel := lit "gemini-2.0-flash"; ts_industry := [];
     ts_attachedImage := None; ts_tempImage := None |}.

(** The image panel with a screenshot attached, set to DeepLX. *)
Definition scan : TranslationState :=
  {| ts_sourceText := []; ts_translatedText := [];
     ts_isLoading := false; ts_error := None; ts_sourceLang := lit "JA";
     ts_targetLang := lit "EN"; ts_selectedProvider := DeepLX;
     ts_selectedModel := lit "deeplx"; ts_industry := [];
     ts_attachedImage := Some (lit "data:image/png;base64,AAAA");
     ts_tempImage := None |}.

Definition app : App.AppState :=
  {| App.transState := Ex.panel; App.imgTransState := scan;
     App.history := Ex.fullHistory; App.currentView := App.ViewTranslate;
     App.isHistoryOpen := false |}.

Definition session : ChatSession :=
  {| cs_id := lit "s1"; cs_title := lit "New Chat"; cs_messages := [];
     cs_updatedAt := 0; cs_provider := OpenAI; cs_model := lit "gpt-4o";
     cs_settings := ChatPanel.defaultSettings |}.

(** The chat panel with one empty session and a typed message. *)
Definition chatPanel : ChatPanel.ChatPanelState :=
  {| ChatPanel.sessions := [session];
     ChatPanel.currentSessionId := Some (lit "s1");
     ChatPanel.input := lit "hello"; ChatPanel.isLoading := false;
     ChatPanel.isSidebarOpen := true; ChatPanel.isMobile := false;
     ChatPanel.attachedImage := None;
     ChatPanel.abortControllerRef := None |}.


(** The search panel with a query typed and nothing searched yet. *)
Definition searchPanel : SearchPanel.SearchPanelState :=
  {| SearchPanel.query := lit "rocq"; SearchPanel.result := None;
     SearchPanel.pageSummary := None; SearchPanel.loadingSearch := false;
     SearchPanel.loadingPageSummary := false; SearchPanel.error := None;
     SearchPanel.hasSearched := false; SearchPanel.isExpanded := false;
     SearchPanel.activeUrl := None;
     SearchPanel.rightPanelMode := SearchPanel.ModeSummary |}.

End Ex.

(** * Properties *)

(** ** Slices *)

Section SliceFacts.
Context {A : Type}.
Implicit Types l : list A.

Lemma slice_from start l :
  JS.slice start None l = drop (JS.relIndex (length l) start) l.
Proof.
  unfold JS.slice. apply take_ge. rewrite length_drop. lia.
Qed.



Lemma slice_prefix (n : Z) l :
  0 <= n -> JS.slice 0 (Some n) l = take (Z.to_nat n) l.
Proof.
  intros Hn. unfold JS.slice, JS.relIndex. simpl.
  replace (Z.to_nat (Z.min 0 (Z.of_nat (length l)))) with 0%nat by lia.
  rewrite drop_0, Nat.sub_0_r.
  destruct (Z.ltb_spec n 0); [lia |].
  destruct (Z.le_ge_cases n (Z.of_nat (length l))).
  - f_equal. lia.
  - rewrite !take_ge by lia. reflexivity.
Qed.


End SliceFacts.

(** ** History *)

Lemma addToHistory_eq ts its id now src res isImage prev :
  History.addToHistory ts its id now src res isImage prev =
  History.newItem ts its id now src res isImage :: take 49 prev.
Proof.
  unfold History.addToHistory. rewrite slice_prefix by lia. reflexivity.
Qed.

(** C8, as stated, fails: a favourite in the last of fifty places is
    removed by the next append. *)
Lemma history_favourite_pruned :
  isFavorite (Ex.item "starred" true) = true /\
  Ex.item "starred" true ∈ Ex.fullHistory /\
  Ex.item "starred" true ∉
    History.addToHistory Ex.panel Ex.panel (lit "fresh") 1
      (lit "good night") (lit "bonne nuit") false Ex.fullHistory.
Proof.
  split; [reflexivity |]. split.
  - apply elem_of_app. right. apply list_elem_of_singleton. reflexivity.
  - rewrite addToHistory_eq. intros H.
    apply elem_of_cons in H as [H | H]; [discriminate H |].
    change (take 49 Ex.fullHistory) with (replicate 49 (Ex.item "plain" false)) in H.
    apply elem_of_replicate in H as [H _]. discriminate H.
Qed.

(** C8, amended: after an append the history is the new item followed by
    the first 49 items of the previous history, so it holds at most 50
    items, newest first, and whatever lay beyond is dropped whether or not
    it is a favourite; favourites are spared by clear-history only, which
    keeps exactly the items with [isFavorite = true]. *)
Theorem history_append_bound ts its id now src res isImage prev :
  let item := History.newItem ts its id now src res isImage in
  let next := History.addToHistory ts its id now src res isImage prev in
  next = item :: take 49 prev /\
  (length next <= 50)%nat /\
  head next = Some item /\
  (forall h, h ∈ next <-> h = item \/ h ∈ take 49 prev) /\
  (forall h, h ∈ History.onClearHistory prev <->
             h ∈ prev /\ isFavorite h = true).
Proof.
  intros item next. subst item next. rewrite addToHistory_eq.
  split; [reflexivity |]. split.
  { simpl. rewrite length_take. lia. }
  split; [reflexivity |]. split.
  - intros h. apply elem_of_cons.
  - intros h. unfold History.onClearHistory. rewrite list_elem_of_filter.
    tauto.
Qed.

(** ** Deduplication of search sources *)

Lemma keepSource_true seen uri :
  keepSource seen uri = true <->
  uri <> [] /\ hasMarker uri = false /\ uri ∉ seen.
Proof.
  unfold keepSource, hasMarker.
  rewrite !andb_true_iff, !negb_true_iff, bool_decide_eq_false.
  destruct uri; simpl; intuition congruence.
Qed.

Lemma cleanSources_cleanFrom raw : cleanSources raw = cleanFrom ∅ raw.
Proof.
  unfold cleanSources.
  enough (forall acc seen,
            (foldl cleanStep (acc, seen) raw).1 = acc ++ cleanFrom seen raw)
    as H by apply (H [] ∅).
  induction raw as [| s raw IH]; intros acc seen; simpl.
  - rewrite app_nil_r. reflexivity.
  - unfold cleanStep at 2. simpl. fold (baseUri s).
    destruct (keepSource seen (baseUri s)).
    + rewrite IH, <- app_assoc. reflexivity.
    + apply IH.
Qed.

Lemma cleanFrom_elem seen raw c :
  c ∈ cleanFrom seen raw ->
  c ∈ raw /\ baseUri c <> [] /\ hasMarker (baseUri c) = false /\
  baseUri c ∉ seen.
Proof.
  revert seen. induction raw as [| s raw IH]; intros seen; simpl.
  - intros H. inversion H.
  - destruct (keepSource seen (baseUri s)) eqn:Hk.
    + intros [-> | H]%elem_of_cons.
      * apply keepSource_true in Hk. split; [left | exact Hk].
      * apply IH in H as (Hin & Hne & Hm & Hs).
        split; [right; exact Hin |]. repeat split; try assumption.
        set_solver.
    + intros H. apply IH in H as (Hin & H). split; [right; exact Hin | exact H].
Qed.

Lemma cleanFrom_NoDup seen raw : NoDup (baseUri <$> cleanFrom seen raw).
Proof.
  revert seen. induction raw as [| s raw IH]; intros seen; simpl.
  - constructor.
  - destruct (keepSource seen (baseUri s)); [| apply IH].
    rewrite fmap_cons. constructor; [| apply IH].
    intros (c & Heq & Hc)%list_elem_of_fmap.
    apply cleanFrom_elem in Hc as (_ & _ & _ & Hs). set_solver.
Qed.

Lemma cleanFrom_sublist seen raw : sublist (cleanFrom seen raw) raw.
Proof.
  revert seen. induction raw as [| s raw IH]; intros seen; simpl.
  - constructor.
  - destruct (keepSource seen (baseUri s)).
    + apply sublist_skip, IH.
    + apply sublist_cons, IH.
Qed.





(** ** Running the monad *)

Arguments bind : simpl never.
Arguments tryCatch : simpl never.
Arguments settle : simpl never.
Arguments lit : simpl never.
Arguments showZ : simpl never.
Arguments JS.slice : simpl never.
Arguments JS.trim : simpl never.
Arguments getTesseractLang : simpl never.
Arguments translatorContext : simpl never.
Arguments completionRequest : simpl never.
Arguments deepLXRequest : simpl never.
Arguments tavilyRequest : simpl never.
Arguments braveRequest : simpl never.
Arguments wikiSearchRequest : simpl never.
Arguments getRequest : simpl never.
Arguments openAIMessages : simpl never.
Arguments contextMessages : simpl never.
Arguments chatInstruction : simpl never.
Arguments geminiChat : simpl never.
Arguments geminiParts : simpl never.
Arguments geminiTranslateRequest : simpl never.
Arguments searchRequest : simpl never.
Arguments searchSystemInstruction : simpl never.
Arguments searchAnswer : simpl never.
Arguments searchUnavailable : simpl never.

(** Symbolic execution: unfold the monad and compute. *)
Ltac exec :=
  repeat (unfold bind, tryCatch, settle, ret, throw, emit, getConfig,
            getState, putState, throwIf, console in *; cbn in *).

(** The same, in one hypothesis. *)
Ltac exec_in H :=
  repeat (unfold bind, tryCatch, settle, ret, throw, emit, getConfig,
            getState, putState, throwIf, console in H; cbn in H).

Section MonadFacts.
Context {A B : Type}.
Implicit Types (m : M A) (f : A -> M B) (s : ServiceState).

Lemma outcome_bind m f s :
  outcome (bind m f s) =
  match outcome (m s) with
  | Ok a => outcome (f a (final (m s)))
  | Throw e => Throw e
  end.
Proof. unfold bind. destruct (outcome (m s)); reflexivity. Qed.

Lemma outcome_tryCatch (m : M A) (h : JsError -> M A) s :
  outcome (tryCatch m h s) =
  match outcome (m s) with
  | Ok a => Ok a
  | Throw e => outcome (h e (final (m s)))
  end.
Proof. unfold tryCatch. destruct (outcome (m s)) eqn:E; simpl; auto. Qed.

Lemma trace_bind m f s :
  trace (bind m f s) =
  trace (m s) ++
  match outcome (m s) with
  | Ok a => trace (f a (final (m s)))
  | Throw e => []
  end.
Proof.
  unfold bind. destruct (outcome (m s)); simpl;
    [reflexivity | rewrite app_nil_r; reflexivity].
Qed.

Lemma trace_tryCatch (m : M A) (h : JsError -> M A) s :
  trace (tryCatch m h s) =
  trace (m s) ++
  match outcome (m s) with
  | Ok a => []
  | Throw e => trace (h e (final (m s)))
  end.
Proof.
  unfold tryCatch. destruct (outcome (m s)); simpl;
    [rewrite app_nil_r; reflexivity | reflexivity].
Qed.

Lemma bind_returns m f s a s' t :
  m s = {| outcome := Ok a; final := s'; trace := t |} ->
  bind m f s =
  {| outcome := outcome (f a s'); final := final (f a s');
     trace := t ++ trace (f a s') |}.
Proof. intros H. unfold bind. rewrite H. reflexivity. Qed.

Lemma bind_throws m f s e s' t :
  m s = {| outcome := Throw e; final := s'; trace := t |} ->
  bind m f s = {| outcome := Throw e; final := s'; trace := t |}.
Proof. intros H. unfold bind. rewrite H. reflexivity. Qed.

Lemma tryCatch_throws (m : M A) (h : JsError -> M A) s e s' t :
  m s = {| outcome := Throw e; final := s'; trace := t |} ->
  tryCatch m h s =
  {| outcome := outcome (h e s'); final := final (h e s');
     trace := t ++ trace (h e s') |}.
Proof. intros H. unfold tryCatch. rewrite H. reflexivity. Qed.

Lemma preserves_ret (a : A) : preserves (ret a).
Proof. intros s. reflexivity. Qed.

Lemma preserves_throw e : preserves (@throw A e).
Proof. intros s. reflexivity. Qed.

Lemma preserves_bind m f :
  preserves m -> (forall a, preserves (f a)) -> preserves (bind m f).
Proof.
  intros Hm Hf s. unfold bind. destruct (outcome (m s)); simpl.
  - rewrite Hf. apply Hm.
  - apply Hm.
Qed.

Lemma preserves_tryCatch (m : M A) (h : JsError -> M A) :
  preserves m -> (forall e, preserves (h e)) -> preserves (tryCatch m h).
Proof.
  intros Hm Hh s. unfold tryCatch. destruct (outcome (m s)); simpl.
  - apply Hm.
  - rewrite Hh. apply Hm.
Qed.


End MonadFacts.

Lemma preserves_emit ev : preserves (emit ev).
Proof. intros s. reflexivity. Qed.

Lemma preserves_getConfig : preserves getConfig.
Proof. intros s. reflexivity. Qed.

Lemma preserves_throwIf c msg : preserves (throwIf c msg).
Proof. intros s. destruct c; reflexivity. Qed.

(** Goal-directed proof that a computation leaves the state alone. *)
Ltac preserve :=
  repeat first
    [ apply preserves_ret | apply preserves_throw | apply preserves_emit
    | apply preserves_getConfig | apply preserves_throwIf
    | apply preserves_bind | apply preserves_tryCatch
    | progress intros
    | match goal with
      | |- preserves (match ?x with _ => _ end) => destruct x
      | |- preserves (let _ := _ in _) => cbv zeta
      end ].

Lemma preserves_safeFetch W req : preserves (safeFetch W req).
Proof. unfold safeFetch, console. preserve. Qed.

Lemma preserves_fetchWikipedia W q : preserves (fetchWikipedia W q).
Proof.
  unfold fetchWikipedia, console.
  repeat first [ apply preserves_safeFetch | progress preserve ].
Qed.

Lemma preserves_fetchTavily W q : preserves (fetchTavily W q).
Proof.
  unfold fetchTavily, console.
  repeat first [ apply preserves_safeFetch | progress preserve ].
Qed.

Lemma preserves_fetchBrave W q : preserves (fetchBrave W q).
Proof.
  unfold fetchBrave, console.
  repeat first [ apply preserves_safeFetch | progress preserve ].
Qed.




Lemma outcome_settle {A} (m : M A) s :
  outcome (settle m s) = Ok (outcome (m s)).
Proof. reflexivity. Qed.

Lemma final_settle {A} (m : M A) s : final (settle m s) = final (m s).
Proof. reflexivity. Qed.

(** ** search *)

Lemma generateContent_outcome W ai req s :
  outcome (generateContent W ai req s) = sdk_generateContent W ai req.
Proof.
  unfold generateContent. exec.
  destruct (sdk_generateContent W ai req); reflexivity.
Qed.

(** The outcome of [search] in terms of its sources and its synthesis
    step. *)
Lemma search_outcome W q model s :
  outcome (search W q model s) =
  Ok match synthesis W q model s with
     | Ok r => searchAnswer (wikiOf W q s) (tavilyOf W q s) (braveOf W q s) r
     | Throw e => searchUnavailable e
     end.
Proof.
  unfold search, synthesis, wikiOf, tavilyOf, braveOf.
  rewrite outcome_tryCatch.
  match goal with
  | |- match outcome ?body with _ => _ end = _ =>
      assert (outcome body =
              match outcome (getAiClient W s) with
              | Ok ai =>
                  match sdk_generateContent W ai
                          (searchRequest q
                             (default (lit "gemini-2.5-flash") model)
                             (searchSystemInstruction
                                (orNull (outcome (fetchWikipedia W q s)))
                                (orEmpty (outcome (fetchTavily W q s)))
                                (orEmpty (outcome (fetchBrave W q s))))) with
                  | Ok r => Ok (searchAnswer
                                (orNull (outcome (fetchWikipedia W q s)))
                                (orEmpty (outcome (fetchTavily W q s)))
                                (orEmpty (outcome (fetchBrave W q s))) r)
                  | Throw e => Throw e
                  end
              | Throw e => Throw e
              end) as ->
  end.
  { rewrite outcome_bind, outcome_settle, final_settle,
      (preserves_fetchWikipedia W q s).
    rewrite outcome_bind, outcome_settle, final_settle,
      (preserves_fetchTavily W q s).
    rewrite outcome_bind, outcome_settle, final_settle,
      (preserves_fetchBrave W q s).
    rewrite outcome_bind.
    destruct (outcome (getAiClient W s)) as [ai | e]; [| reflexivity].
    rewrite outcome_bind, generateContent_outcome.
    destruct (sdk_generateContent W ai _) as [r | e]; reflexivity. }
  destruct (outcome (getAiClient W s)) as [ai | e]; [| reflexivity].
  destruct (sdk_generateContent W ai _) as [r | e]; reflexivity.
Qed.

(** C4: [search] never throws, and when the synthesis step fails, for
    whatever reason, it returns a result whose text reports the failure
    and whose source list is empty. *)
Theorem search_never_throws W q model s :
  (exists res, outcome (search W q model s) = Ok res) /\
  (forall e, synthesis W q model s = Throw e ->
     outcome (search W q model s) =
     Ok {| sr_text := lit "**Search Unavailable**: " ++ err_message e;
           sr_sources := [] |}).
Proof.
  split.
  - eexists. apply search_outcome.
  - intros e He. rewrite search_outcome, He. reflexivity.
Qed.

Lemma search_never_throws_witness :
  synthesis (Ex.world (Throw Ex.quota) (Throw Ex.netDown)) (lit "rocq") None
    (Ex.state "" "" "g-key" "t-key") = Throw Ex.quota /\
  outcome (search (Ex.world (Throw Ex.quota) (Throw Ex.netDown)) (lit "rocq")
             None (Ex.state "" "" "g-key" "t-key")) =
  Ok {| sr_text := lit "**Search Unavailable**: quota exceeded";
        sr_sources := [] |}.
Proof.
  split.
  - vm_compute. reflexivity.
  - rewrite (proj2 (search_never_throws
                      (Ex.world (Throw Ex.quota) (Throw Ex.netDown))
                      (lit "rocq") None (Ex.state "" "" "g-key" "t-key"))
               Ex.quota); vm_compute; reflexivity.
Defined.


Example dedup_merged :
  cleanSources Ex.mergedSources =
  [Ex.src "Guide" "https://a.example/guide#install"].
Proof. vm_compute. reflexivity. Qed.








(** *** Failing and skipped sources *)










(** ** chat *)

Lemma networkCalls_app t1 t2 :
  networkCalls (t1 ++ t2) = networkCalls t1 ++ networkCalls t2.
Proof. apply List.filter_app. Qed.

Lemma safeFetch_calls W req s :
  networkCalls (trace (safeFetch W req s)) = [EvFetch req].
Proof.
  unfold safeFetch. exec. destruct (net_fetch W req); exec; [| reflexivity].
  destruct (bool_decide _); reflexivity.
Qed.

Lemma openAICompletion_calls W base key model msgs temp signal s :
  networkCalls (trace (openAICompletion W base key model msgs temp signal s))
  = [EvFetch (completionRequest base key model msgs (default (5 # 10) temp)
                signal)].
Proof.
  unfold openAICompletion. cbv zeta. rewrite trace_bind, networkCalls_app.
  rewrite safeFetch_calls.
  destruct (outcome (safeFetch W _ s)) as [r | e]; [| reflexivity].
  rewrite trace_bind. destruct (fr_ok r); cbn; [| reflexivity].
  destruct (fr_data r); reflexivity.
Qed.

Lemma getAiClient_calls W s : networkCalls (trace (getAiClient W s)) = [].
Proof.
  unfold getAiClient. exec. destruct (aiInstance s); [reflexivity |].
  destruct (truthyOpt _); exec; destruct (sdk_construct W _); reflexivity.
Qed.













(** C7: when the fetch of an OpenAI-compatible chat call is aborted, the
    [AbortError] comes out of the fetch helper, of the completion call and
    of [chat] as the very error that was raised; nothing is logged and no
    error message or error result replaces it. *)
Theorem chat_abort_propagates W msgs model settings signal s e :
  let cfg := activeConfig s in
  let req := completionRequest (openaiBaseUrl cfg) (openaiKey cfg) model
               (openAIMessages (chatInstruction settings)
                  (contextMessages msgs settings))
               (temperature settings) signal in
  truthy (openaiKey cfg) = true ->
  net_fetch W req = FetchRejects e ->
  err_name e = lit "AbortError" ->
  outcome (safeFetch W req s) = Throw e /\
  outcome (openAICompletion W (openaiBaseUrl cfg) (openaiKey cfg) model
             (openAIMessages (chatInstruction settings)
                (contextMessages msgs settings))
             (Some (temperature settings)) signal s) = Throw e /\
  chat W msgs OpenAI model settings signal s =
  {| outcome := Throw e; final := s; trace := [EvFetch req] |}.
Proof.
  intros cfg req Hk Hf Hn. subst cfg req.
  assert (forall s', safeFetch W
            (completionRequest (openaiBaseUrl (activeConfig s))
               (openaiKey (activeConfig s)) model
               (openAIMessages (chatInstruction settings)
                  (contextMessages msgs settings))
               (temperature settings) signal) s' =
          {| outcome := Throw e; final := s';
             trace := [EvFetch
               (completionRequest (openaiBaseUrl (activeConfig s))
                  (openaiKey (activeConfig s)) model
                  (openAIMessages (chatInstruction settings)
                     (contextMessages msgs settings))
                  (temperature settings) signal)] |}) as Hsf.
  { intros s'. unfold safeFetch. rewrite Hf, Hn. exec. reflexivity. }
  assert (forall k : ApiData -> M jsstring,
            bind (openAICompletion W (openaiBaseUrl (activeConfig s))
                    (openaiKey (activeConfig s)) model
                    (openAIMessages (chatInstruction settings)
                       (contextMessages msgs settings))
                    (Some (temperature settings)) signal) k s =
            {| outcome := Throw e; final := s;
               trace := [EvFetch
                 (completionRequest (openaiBaseUrl (activeConfig s))
                    (openaiKey (activeConfig s)) model
                    (openAIMessages (chatInstruction settings)
                       (contextMessages msgs settings))
                    (temperature settings) signal)] |}) as Hbody.
  { intros k. apply bind_throws. unfold openAICompletion.
    apply bind_throws, Hsf. }
  split; [rewrite Hsf; reflexivity |].
  split.
  { unfold openAICompletion. rewrite outcome_bind, Hsf. reflexivity. }
  unfold chat.
  rewrite (bind_returns _ _ s (activeConfig s) s []) by reflexivity.
  rewrite Hk. cbn [negb throwIf app].
  rewrite (bind_returns _ _ s tt s []) by reflexivity.
  rewrite (tryCatch_throws _ _ s e s _ (Hbody _)).
  rewrite Hn. reflexivity.
Qed.

Lemma chat_abort_propagates_witness :
  let s := Ex.state "" "sk-key" "" "" in
  truthy (openaiKey (activeConfig s)) = true /\
  err_name Ex.aborted = lit "AbortError" /\
  outcome (chat Ex.abortingWorld Ex.conversation OpenAI (lit "gpt-4o")
             (Ex.settings 10) (Some (Signal 1)) s) = Throw Ex.aborted.
Proof.
  cbv zeta. split; [reflexivity |]. split; [reflexivity |].
  rewrite (proj2 (proj2 (chat_abort_propagates Ex.abortingWorld
                           Ex.conversation (lit "gpt-4o") (Ex.settings 10)
                           (Some (Signal 1)) (Ex.state "" "sk-key" "" "")
                           Ex.aborted eq_refl eq_refl eq_refl)));
    reflexivity.
Defined.

(** ** translate *)

Lemma translate_DeepLX W p :
  translate W (lit "DeepLX") p =
  (textToTranslate <-
     (if truthyOpt (tp_imageBase64 p) && negb (truthy (tp_text p))
      then performOCR W (default [] (tp_imageBase64 p)) (tp_sourceLang p)
      else ret (tp_text p)) ;;
   if negb (truthy (JS.trim textToTranslate)) then ret []
   else translateDeepLX W (withText p textToTranslate))%js.
Proof. reflexivity. Qed.

Lemma translate_OpenAI W p : translate W (lit "OpenAI") p = translateOpenAI W p.
Proof. reflexivity. Qed.

Lemma translate_Gemini W p : translate W (lit "Gemini") p = translateGemini W p.
Proof. reflexivity. Qed.

Lemma performOCR_run W img lang s :
  performOCR W img lang s =
  {| outcome :=
       match tesseract_recognize W (getTesseractLang lang) img with
       | Ok text => Ok text
       | Throw e =>
           Throw (newError (lit "Failed to extract text from image. " ++
                            err_message e))
       end;
     final := s;
     trace :=
       EvOCR (getTesseractLang lang) img ::
       match tesseract_recognize W (getTesseractLang lang) img with
       | Ok _ => []
       | Throw _ => [EvConsole LogError (lit "OCR Failed:")]
       end |}.
Proof.
  unfold performOCR. exec.
  destruct (tesseract_recognize W (getTesseractLang lang) img); reflexivity.
Qed.

Lemma translateDeepLX_no_endpoint W p s :
  deeplxEndpoint (activeConfig s) = [] ->
  translateDeepLX W p s =
  {| outcome := Throw (newError (lit "DeepLX Endpoint is not configured."));
     final := s; trace := [] |}.
Proof.
  intros He. unfold translateDeepLX.
  rewrite (bind_returns _ _ s (activeConfig s) s []) by reflexivity.
  rewrite He. reflexivity.
Qed.

Lemma truthy_true (t : jsstring) : truthy t = true <-> t <> [].
Proof. destruct t; simpl; split; congruence. Qed.

(** C6, as stated, fails: an image that is non-null but the empty string
    is falsy, so OCR is not invoked at all (the result is still the empty
    string, from the blank text). *)
Lemma translate_DeepLX_empty_image_skips_ocr :
  let W := Ex.world (Ok Ex.cited) (Ok (lit "konnichiwa")) in
  let s := Ex.state "https://api.deeplx.org/translate" "" "" "" in
  tp_imageBase64 (Ex.request "" (Some [])) <> None /\
  tp_text (Ex.request "" (Some [])) = [] /\
  translate W (lit "DeepLX") (Ex.request "" (Some [])) s =
  {| outcome := Ok []; final := s; trace := [] |}.
Proof.
  cbv zeta. split; [discriminate |]. split; vm_compute; reflexivity.
Qed.

(** C6, amended: for provider DeepLX, when [translate] is called with a
    non-empty [imageBase64] and empty text, OCR is invoked first, on that
    image and with the engine language of the request's [sourceLang]; if
    the extracted text is empty after trimming, [translate] returns the
    empty string and the OCR call is the only event: no DeepLX request is
    made. *)
Theorem translate_DeepLX_image_ocr W p img s :
  tp_imageBase64 p = Some img -> img <> [] -> tp_text p = [] ->
  (exists rest,
     trace (translate W (lit "DeepLX") p s) =
     EvOCR (getTesseractLang (tp_sourceLang p)) img :: rest) /\
  (forall text,
     tesseract_recognize W (getTesseractLang (tp_sourceLang p)) img = Ok text ->
     JS.trim text = [] ->
     translate W (lit "DeepLX") p s =
     {| outcome := Ok []; final := s;
        trace := [EvOCR (getTesseractLang (tp_sourceLang p)) img] |} /\
     networkCalls (trace (translate W (lit "DeepLX") p s)) = []).
Proof.
  intros Himg Hne Htext. rewrite translate_DeepLX, Himg, Htext.
  cbn [truthyOpt truthy negb default].
  rewrite (proj2 (truthy_true img) Hne). cbn [andb]. split.
  - rewrite trace_bind, performOCR_run. cbn [trace app]. eexists. reflexivity.
  - intros text Hrec Htrim.
    assert (performOCR W img (tp_sourceLang p) s =
            {| outcome := Ok text; final := s;
               trace := [EvOCR (getTesseractLang (tp_sourceLang p)) img] |})
      as Hocr by (rewrite performOCR_run, Hrec; reflexivity).
    rewrite (bind_returns _ _ s text s _ Hocr), Htrim. split; reflexivity.
Qed.

Lemma translate_DeepLX_image_ocr_witness :
  let W := Ex.world (Ok Ex.cited) (Ok (lit "  ")) in
  let s := Ex.state "https://api.deeplx.org/translate" "" "" "" in
  let p := Ex.request "" (Some (lit "data:image/png;base64,AAAA")) in
  JS.trim (lit "  ") = [] /\
  translate W (lit "DeepLX") p s =
  {| outcome := Ok []; final := s;
     trace := [EvOCR (lit "jpn") (lit "data:image/png;base64,AAAA")] |}.
Proof.
  cbv zeta. split; [vm_compute; reflexivity |].
  apply (proj2 (translate_DeepLX_image_ocr
                  (Ex.world (Ok Ex.cited) (Ok (lit "  ")))
                  (Ex.request "" (Some (lit "data:image/png;base64,AAAA")))
                  (lit "data:image/png;base64,AAAA")
                  (Ex.state "https://api.deeplx.org/translate" "" "" "")
                  eq_refl ltac:(discriminate) eq_refl) (lit "  "));
    vm_compute; reflexivity.
Defined.


Lemma generateContent_run W ai req s :
  generateContent W ai req s =
  {| outcome := sdk_generateContent W ai req; final := s;
     trace := [EvGenerate ai req] |}.
Proof.
  unfold generateContent. exec.
  destruct (sdk_generateContent W ai req); reflexivity.
Qed.


Lemma translate_DeepLX_no_endpoint_calls W p s :
  deeplxEndpoint (activeConfig s) = [] ->
  networkCalls (trace (translate W (lit "DeepLX") p s)) = [].
Proof.
  intros He. rewrite translate_DeepLX, trace_bind, networkCalls_app.
  destruct (truthyOpt (tp_imageBase64 p) && negb (truthy (tp_text p))).
  - rewrite performOCR_run. cbn [outcome final trace].
    destruct (tesseract_recognize W _ _) as [text | e]; [| reflexivity].
    destruct (truthy (JS.trim text)); cbn [negb]; [| reflexivity].
    rewrite translateDeepLX_no_endpoint by exact He. reflexivity.
  - cbn [ret outcome final trace].
    destruct (truthy (JS.trim (tp_text p))); cbn [negb]; [| reflexivity].
    rewrite translateDeepLX_no_endpoint by exact He. reflexivity.
Qed.



(** ** The fetch helper and the completion call *)

(** X1: [safeFetch] issues exactly one request and leaves the service
    state alone; the only error it ever throws is an [AbortError] that
    [fetch] itself raised; any other rejection becomes the result
    [{ok: false, status: 0, data: null, text: ''}]; a result that is [ok]
    comes from a response, and parsed data is only ever present together
    with the non-empty body text it was parsed from. *)
Theorem safeFetch_contract W req s :
  final (safeFetch W req s) = s /\
  networkCalls (trace (safeFetch W req s)) = [EvFetch req] /\
  (forall e, outcome (safeFetch W req s) = Throw e ->
     err_name e = lit "AbortError" /\ net_fetch W req = FetchRejects e) /\
  (forall e, net_fetch W req = FetchRejects e ->
     err_name e <> lit "AbortError" ->
     outcome (safeFetch W req s) =
     Ok {| fr_ok := false; fr_status := 0; fr_data := None; fr_text := [] |}) /\
  (forall r, outcome (safeFetch W req s) = Ok r ->
     (fr_ok r = true ->
      exists status, net_fetch W req = FetchResponds true status (fr_text r)) /\
     (forall d, fr_data r = Some d ->
        fr_text r <> [] /\ JSON_parse W (fr_text r) = Some d)).
Proof.
  split; [apply preserves_safeFetch |]. split; [apply safeFetch_calls |].
  unfold safeFetch. exec.
  destruct (net_fetch W req) as [e0 | ok status text] eqn:Hnet; exec.
  - destruct (bool_decide (err_name e0 = lit "AbortError")) eqn:Hab; exec.
    + apply bool_decide_eq_true in Hab. refine (conj _ (conj _ _)).
      * intros e [= <-]. auto.
      * intros e [= <-] Hne. contradiction.
      * intros r [=].
    + refine (conj _ (conj _ _)).
      * intros e [=].
      * intros e _ _. reflexivity.
      * intros r [= <-]. cbn. split; [intros [=] | intros d [=]].
  - refine (conj _ (conj _ _)).
    + intros e [=].
    + intros e [=].
    + intros r [= <-]. cbn. split.
      * intros ->. eauto.
      * intros d. destruct text; cbn; [intros [=] | auto].
Qed.

Lemma safeFetch_contract_witness :
  Ex.netDown <> Ex.aborted /\
  outcome (safeFetch Ex.abortingWorld (getRequest (lit "https://a.example/"))
             (Ex.state "" "" "" "")) =
  Ok {| fr_ok := false; fr_status := 0; fr_data := None; fr_text := [] |}.
Proof.
  split; [discriminate |].
  apply (proj1 (proj2 (proj2 (proj2
           (safeFetch_contract Ex.abortingWorld
              (getRequest (lit "https://a.example/"))
              (Ex.state "" "" "" "")))))) with (e := Ex.netDown);
    [reflexivity | vm_compute; discriminate].
Defined.

Lemma dropWhile_replicate p c n l :
  p c = true -> JS.dropWhile p (replicate n c ++ l) = JS.dropWhile p l.
Proof. intros Hp. induction n as [| n IH]; simpl; [| rewrite Hp]; auto. Qed.

Lemma dropWhile_head p l c :
  head (JS.dropWhile p l) = Some c -> p c = false.
Proof.
  induction l as [| a l IH]; simpl; [discriminate |].
  destruct (p a) eqn:Hp; [exact IH |]. simpl. congruence.
Qed.

Lemma dropWhile_run c l :
  exists k, l = replicate k c ++ JS.dropWhile (fun x => (x =? c)%N) l.
Proof.
  induction l as [| a l [k IH]]; simpl; [exists 0%nat; reflexivity |].
  destruct (N.eqb_spec a c) as [-> | Hne].
  - exists (S k). simpl. f_equal. exact IH.
  - exists 0%nat. reflexivity.
Qed.

Lemma stripTrailingSlashes_slashes s n :
  JS.stripTrailingSlashes (s ++ replicate n 47%N) = JS.stripTrailingSlashes s.
Proof.
  unfold JS.stripTrailingSlashes. rewrite reverse_app, reverse_replicate.
  rewrite dropWhile_replicate by reflexivity. reflexivity.
Qed.

Lemma stripTrailingSlashes_spec s :
  last (JS.stripTrailingSlashes s) <> Some 47%N /\
  exists k, s = JS.stripTrailingSlashes s ++ replicate k 47%N.
Proof.
  unfold JS.stripTrailingSlashes. split.
  - rewrite last_reverse. intros H. apply dropWhile_head in H. discriminate.
  - destruct (dropWhile_run 47%N (reverse s)) as [k Hk]. exists k.
    rewrite <- (reverse_involutive s) at 1. rewrite Hk at 1.
    rewrite reverse_app, reverse_replicate. reflexivity.
Qed.

(** X2: the completion endpoint does not depend on trailing slashes of the
    configured base URL: any number of them is removed, the URL is the
    cleaned base, which differs from the configured one by trailing
    slashes only and does not end in a slash, followed by
    [/chat/completions]. *)
Theorem completion_url_normalised base key model msgs temp signal n :
  completionRequest (base ++ replicate n 47%N) key model msgs temp signal =
  completionRequest base key model msgs temp signal /\
  exists clean k,
    fr_url (completionRequest base key model msgs temp signal) =
      clean ++ lit "/chat/completions" /\
    last clean <> Some 47%N /\
    base = clean ++ replicate k 47%N.
Proof.
  unfold completionRequest. rewrite stripTrailingSlashes_slashes.
  split; [reflexivity |].
  destruct (stripTrailingSlashes_spec base) as [Hlast [k Hk]].
  exists (JS.stripTrailingSlashes base), k. auto.
Qed.

Example completion_url_example :
  fr_url (completionRequest (lit "https://api.openai.com/v1//") (lit "k")
            (lit "gpt-4o") [] (1 # 2) None) =
  lit "https://api.openai.com/v1/chat/completions".
Proof. vm_compute. reflexivity. Qed.

(** X3: the error taxonomy of [openAICompletion].  A non-2xx response
    fails with [API Error <status>: <body>]; a network failure that is not
    an abort fails with [API Error 0: ]; a 2xx response whose body is empty
    or does not parse fails with [API returned empty or invalid JSON
    response]; data is returned only from a 2xx response with a parseable,
    non-empty body. *)
Theorem openAICompletion_errors W base key model msgs temp signal s :
  let req := completionRequest base key model msgs (default (5 # 10) temp)
               signal in
  let run := openAICompletion W base key model msgs temp signal s in
  (forall status text,
     net_fetch W req = FetchResponds false status text ->
     outcome run =
     Throw (newError (lit "API Error " ++ showZ status ++ lit ": " ++ text))) /\
  (forall e,
     net_fetch W req = FetchRejects e -> err_name e <> lit "AbortError" ->
     outcome run = Throw (newError (lit "API Error 0: "))) /\
  (forall status text,
     net_fetch W req = FetchResponds true status text ->
     text = [] \/ JSON_parse W text = None ->
     outcome run =
     Throw (newError (lit "API returned empty or invalid JSON response"))) /\
  (forall d,
     outcome run = Ok d <->
     exists status text,
       net_fetch W req = FetchResponds true status text /\
       text <> [] /\ JSON_parse W text = Some d).
Proof.
  intros req run. subst run. unfold openAICompletion. cbv zeta. fold req.
  unfold safeFetch. exec.
  destruct (net_fetch W req) as [e0 | ok status text] eqn:Hnet; exec.
  - destruct (bool_decide (err_name e0 = lit "AbortError")) eqn:Hab; exec.
    + apply bool_decide_eq_true in Hab. refine (conj _ (conj _ (conj _ _))).
      * intros ? ? [=].
      * intros e [= <-] Hne. contradiction.
      * intros ? ? [=].
      * intros d. split; [intros [=] | intros (? & ? & [=] & _)].
    + refine (conj _ (conj _ (conj _ _))).
      * intros ? ? [=].
      * intros e _ _. reflexivity.
      * intros ? ? [=].
      * intros d. split; [intros [=] | intros (? & ? & [=] & _)].
  - destruct ok; exec.
    + refine (conj _ (conj _ (conj _ _))).
      * intros ? ? [=].
      * intros ? [=].
      * intros st tx [= <- <-] [-> | Hp]; [reflexivity |].
        destruct text; cbn; [reflexivity | rewrite Hp; reflexivity].
      * intros d. destruct text as [| c text]; cbn.
        { split; [intros [=] | intros (? & ? & [= <- <-] & Hne & _)].
          contradiction. }
        destruct (JSON_parse W (c :: text)) as [d' |] eqn:Hp; cbn.
        { split.
          - intros [= <-]. eexists _, _. repeat split; eauto.
          - intros (? & ? & [= <- <-] & _ & Hd). congruence. }
        split; [intros [=] | intros (? & ? & [= <- <-] & _ & Hd)].
        congruence.
    + refine (conj _ (conj _ (conj _ _))).
      * intros st tx [= <- <-]. reflexivity.
      * intros ? [=].
      * intros ? ? [=].
      * intros d. split; [intros [=] | intros (? & ? & [=] & _)].
Qed.

Lemma openAICompletion_errors_witness :
  err_name Ex.netDown <> lit "AbortError" /\
  outcome (openAICompletion Ex.abortingWorld (lit "https://api.openai.com/v1")
             (lit "sk-key") (lit "gpt-4o") [] None None
             (Ex.state "" "sk-key" "" "")) =
  Throw (newError (lit "API Error 0: ")).
Proof.
  split; [vm_compute; discriminate |].
  apply (proj1 (proj2 (openAICompletion_errors Ex.abortingWorld
                         (lit "https://api.openai.com/v1") (lit "sk-key")
                         (lit "gpt-4o") [] None None
                         (Ex.state "" "sk-key" "" "")))) with (e := Ex.netDown);
    [reflexivity | vm_compute; discriminate].
Defined.

(** ** translate, provider by provider *)

Lemma withText_same p : withText p (tp_text p) = p.
Proof. destruct p. reflexivity. Qed.

(** X4: a DeepLX translation of non-blank text with a configured endpoint
    issues exactly one network call, its first event: the POST of the text
    and both languages to the endpoint.  A 2xx answer whose payload has code
    200 yields the payload's data; another code fails with the upstream
    message (or [Unknown]); a non-2xx answer fails with [DeepLX Error:
    <status>]; an empty or unparseable body fails with [DeepLX returned
    invalid JSON]. *)
Theorem translate_DeepLX_text W p s :
  deeplxEndpoint (activeConfig s) <> [] -> JS.trim (tp_text p) <> [] ->
  let req := deepLXRequest (deeplxEndpoint (activeConfig s)) p in
  let run := translate W (lit "DeepLX") p s in
  (exists rest, trace run = EvFetch req :: rest /\ networkCalls rest = []) /\
  final run = s /\
  (forall status text d m,
     net_fetch W req = FetchResponds true status text -> text <> [] ->
     JSON_parse W text = Some (DeepLXData 200 d m) ->
     run = {| outcome := Ok d; final := s; trace := [EvFetch req] |}) /\
  (forall status text c d m,
     net_fetch W req = FetchResponds true status text -> text <> [] ->
     JSON_parse W text = Some (DeepLXData c d m) -> c <> 200 ->
     outcome run =
     Throw (newError (lit "DeepLX API Error: " ++ or_else m (lit "Unknown")))) /\
  (forall status text,
     net_fetch W req = FetchResponds false status text ->
     outcome run = Throw (newError (lit "DeepLX Error: " ++ showZ status))) /\
  (forall status text,
     net_fetch W req = FetchResponds true status text ->
     text = [] \/ JSON_parse W text = None ->
     outcome run = Throw (newError (lit "DeepLX returned invalid JSON"))).
Proof.
  intros He Hblank req run. subst run. rewrite translate_DeepLX.
  assert (truthy (tp_text p) = true) as Ht.
  { apply truthy_true. intros Hnil. apply Hblank. rewrite Hnil. reflexivity. }
  rewrite Ht, andb_false_r.
  rewrite (bind_returns _ _ s (tp_text p) s []) by reflexivity.
  rewrite (proj2 (truthy_true _) Hblank). cbn [negb]. rewrite withText_same.
  unfold translateDeepLX.
  rewrite (bind_returns _ _ s (activeConfig s) s []) by reflexivity.
  rewrite (proj2 (truthy_true _) He). cbn [negb throwIf]. fold req.
  match goal with
  | |- context [final ?r = s] => remember r as run eqn:Hrun
  end.
  unfold safeFetch in Hrun.
  destruct (net_fetch W req) as [e0 | [|] status text] eqn:Hnet.
  - destruct (bool_decide (err_name e0 = lit "AbortError")); exec_in Hrun;
      subst run; cbn;
      (refine (conj _ (conj _ (conj _ (conj _ (conj _ _)))));
       try (intros; discriminate); eauto).
  - destruct text as [| ch text].
    { exec_in Hrun. subst run. cbn.
      refine (conj _ (conj _ (conj _ (conj _ (conj _ _))))); eauto.
      - intros ? ? ? ? [= <- <-] Hne. contradiction.
      - intros ? ? ? ? ? [= <- <-] Hne. contradiction.
      - intros ? ? [=]. }
    destruct (JSON_parse W (ch :: text)) as [d0 |] eqn:Hp.
    2: { exec_in Hrun. subst run. cbn.
         refine (conj _ (conj _ (conj _ (conj _ (conj _ _))))); eauto.
         - intros ? ? ? ? [= <- <-] _ Hd. congruence.
         - intros ? ? ? ? ? [= <- <-] _ Hd. congruence.
         - intros ? ? [=]. }
    exec_in Hrun.
    destruct (bool_decide (dataCode d0 = Some 200)) eqn:Hc;
      exec_in Hrun; subst run; cbn.
    + apply bool_decide_eq_true in Hc.
      refine (conj _ (conj _ (conj _ (conj _ (conj _ _))))); eauto.
      * intros ? ? d m [= <- <-] _ Hd. rewrite Hp in Hd.
        injection Hd as ->. reflexivity.
      * intros ? ? c d m [= <- <-] _ Hd Hne. rewrite Hp in Hd.
        injection Hd as ->. cbn in Hc. congruence.
      * intros ? ? [=].
      * intros ? ? [= <- <-] [[=] | Hd]. congruence.
    + apply bool_decide_eq_false in Hc.
      refine (conj _ (conj _ (conj _ (conj _ (conj _ _))))); eauto.
      * intros ? ? d m [= <- <-] _ Hd. rewrite Hp in Hd.
        injection Hd as ->. cbn in Hc. congruence.
      * intros ? ? c d m [= <- <-] _ Hd Hne. rewrite Hp in Hd.
        injection Hd as ->. reflexivity.
      * intros ? ? [=].
      * intros ? ? [= <- <-] [[=] | Hd]. congruence.
  - exec_in Hrun. subst run. cbn.
    refine (conj _ (conj _ (conj _ (conj _ (conj _ _))))); eauto.
    + intros ? ? ? ? [=].
    + intros ? ? ? ? ? [=].
    + intros ? ? [= <- <-]. reflexivity.
    + intros ? ? [=].
Qed.

Lemma translate_DeepLX_text_witness :
  let W := Ex.server (FetchResponds true 200 (lit "{json}"))
             (Some (DeepLXData 200 (lit "konnichiwa") [])) in
  let s := Ex.state "https://api.deeplx.org/translate" "" "" "" in
  JS.trim (lit "Hello") <> [] /\
  outcome (translate W (lit "DeepLX") (Ex.request "Hello" None) s) =
  Ok (lit "konnichiwa").
Proof.
  cbv zeta. split; [vm_compute; discriminate |].
  rewrite (proj1 (proj2 (proj2
            (translate_DeepLX_text
               (Ex.server (FetchResponds true 200 (lit "{json}"))
                  (Some (DeepLXData 200 (lit "konnichiwa") [])))
               (Ex.request "Hello" None)
               (Ex.state "https://api.deeplx.org/translate" "" "" "")
               ltac:(vm_compute; discriminate)
               ltac:(vm_compute; discriminate))))
            200 (lit "{json}") (lit "konnichiwa") []);
    [reflexivity | reflexivity | vm_compute; discriminate | reflexivity].
Defined.

Lemma or_else_nonempty a d : d <> [] -> or_else a d <> [].
Proof. unfold or_else. destruct a; simpl; [auto | discriminate]. Qed.

Lemma translateOpenAI_throws W p s e :
  outcome (translateOpenAI W p s) = Throw e ->
  err_name e = lit "Error" /\ err_message e <> [].
Proof.
  unfold translateOpenAI. rewrite outcome_bind. cbn [getConfig outcome final].
  rewrite outcome_bind.
  destruct (truthy (openaiKey (activeConfig s))); cbn.
  - rewrite outcome_tryCatch.
    destruct (outcome (bind _ _ s)) as [a | e0]; [discriminate |].
    cbn. intros [= <-]. split; [reflexivity |].
    apply or_else_nonempty. discriminate.
  - intros [= <-]. split; [reflexivity | discriminate].
Qed.

Lemma translateGemini_throws W p s e :
  outcome (translateGemini W p s) = Throw e ->
  err_name e = lit "Error" /\ err_message e <> [].
Proof.
  unfold translateGemini. rewrite outcome_tryCatch.
  destruct (outcome (bind _ _ s)) as [a | e0]; [discriminate |].
  rewrite outcome_bind. cbn. intros [= <-]. split; [reflexivity |].
  apply or_else_nonempty. discriminate.
Qed.

(** X6: whatever goes wrong in an OpenAI or a Gemini translation (missing
    key, transport failure, an aborted request, an SDK error), the caller
    only ever sees a plain [Error] with a non-empty message: the adapters
    wrap every failure, and fall back to a fixed message when the cause
    has none. *)
Theorem translate_errors_are_plain W provider p s e :
  provider = lit "OpenAI" \/ provider = lit "Gemini" ->
  outcome (translate W provider p s) = Throw e ->
  err_name e = lit "Error" /\ err_message e <> [].
Proof.
  intros [-> | ->].
  - rewrite translate_OpenAI. apply translateOpenAI_throws.
  - rewrite translate_Gemini. apply translateGemini_throws.
Qed.

Lemma translate_errors_are_plain_witness :
  outcome (translate Ex.abortingWorld (lit "Gemini")
             (Ex.request "Hello" None) (Ex.state "" "" "g-key" "")) =
  Throw (newError (lit "Failed to fetch")) /\
  err_name (newError (lit "Failed to fetch")) = lit "Error".
Proof.
  split; [vm_compute; reflexivity |].
  apply (translate_errors_are_plain Ex.abortingWorld (lit "Gemini")
           (Ex.request "Hello" None) (Ex.state "" "" "g-key" "")
           (newError (lit "Failed to fetch")));
    [right; reflexivity | vm_compute; reflexivity].
Defined.



Lemma generateContent_calls W ai req s :
  networkCalls (trace (generateContent W ai req s)) = [EvGenerate ai req].
Proof. rewrite generateContent_run. reflexivity. Qed.

Lemma translateGemini_calls W p s :
  networkCalls (trace (translateGemini W p s)) =
  match outcome (getAiClient W s) with
  | Ok ai => [EvGenerate ai (geminiTranslateRequest p)]
  | Throw _ => []
  end.
Proof.
  unfold translateGemini.
  rewrite trace_tryCatch, networkCalls_app, trace_bind, networkCalls_app.
  rewrite getAiClient_calls, outcome_bind.
  destruct (outcome (getAiClient W s)) as [ai | e]; cbn; [| reflexivity].
  rewrite trace_bind, networkCalls_app, generateContent_calls, outcome_bind.
  destruct (outcome (generateContent W ai _ _)); reflexivity.
Qed.

(** X8: a Gemini translation makes at most one network call, the
    generate call (none when the client cannot be built), at temperature
    0.3 and without search grounding.  Its parts list is never empty and
    has at most two parts: the image part first when the request has a
    non-empty image, then the request text when that is non-empty; a
    request with neither sends a single space. *)
Theorem translate_Gemini_request W p s :
  networkCalls (trace (translate W (lit "Gemini") p s)) =
    match outcome (getAiClient W s) with
    | Ok ai => [EvGenerate ai (geminiTranslateRequest p)]
    | Throw _ => []
    end /\
  gr_temperature (geminiTranslateRequest p) = Some (3 # 10) /\
  gr_googleSearch (geminiTranslateRequest p) = false /\
  gr_model (geminiTranslateRequest p) = tp_model p /\
  exists parts,
    gr_contents (geminiTranslateRequest p) = PartsContents parts /\
    parts <> [] /\ (length parts <= 2)%nat /\
    (tp_text p <> [] -> last parts = Some (GText (tp_text p))) /\
    (forall img, tp_imageBase64 p = Some img -> img <> [] ->
       head parts = Some (inlineImage img)) /\
    (truthyOpt (tp_imageBase64 p) = false -> tp_text p = [] ->
     parts = [GText (lit " ")]).
Proof.
  split; [rewrite translate_Gemini; apply translateGemini_calls |].
  unfold geminiTranslateRequest. cbn [gr_temperature gr_googleSearch
    gr_model gr_contents].
  split; [reflexivity |]. split; [reflexivity |]. split; [reflexivity |].
  eexists. split; [reflexivity |].
  destruct (tp_imageBase64 p) as [[| c img] |], (tp_text p) as [| d t];
    cbn; (split; [discriminate |]); (split; [lia |]);
    (split; [first [reflexivity | intros H; contradiction] |]);
    (split; [intros img' [= <-] Hne; first [reflexivity | contradiction]
            | first [reflexivity | discriminate
                    | intros; reflexivity | intros; discriminate]]).
Qed.

Lemma translate_Gemini_request_witness :
  let p := Ex.request "Hello" (Some (lit "AAAA")) in
  exists parts,
    gr_contents (geminiTranslateRequest p) = PartsContents parts /\
    head parts = Some (inlineImage (lit "AAAA")) /\
    last parts = Some (GText (lit "Hello")).
Proof.
  cbv zeta.
  destruct (translate_Gemini_request Ex.abortingWorld
              (Ex.request "Hello" (Some (lit "AAAA")))
              (Ex.state "" "" "g-key" ""))
    as (_ & _ & _ & _ & parts & Hc & _ & _ & Hl & Hh & _).
  exists parts. split; [exact Hc |]. split.
  - apply (Hh (lit "AAAA")); [reflexivity | vm_compute; discriminate].
  - apply Hl. vm_compute. discriminate.
Defined.

(** ** The Gemini client *)

(** X9: the Gemini client is created once and reused: after a call that
    obtained a client, the client is cached, the configuration is
    untouched, and the next call returns the same client silently (no
    warning, no construction).  Replacing the configuration drops the
    cached client, so the first call after it builds a client from the new
    key (or from the environment key when the new key is empty). *)
Theorem getAiClient_cache W s ai :
  outcome (getAiClient W s) = Ok ai ->
  let s1 := final (getAiClient W s) in
  aiInstance s1 = Some ai /\
  activeConfig s1 = activeConfig s /\
  getAiClient W s1 = {| outcome := Ok ai; final := s1; trace := [] |} /\
  (forall cfg,
     let s2 := final (updateServiceConfig cfg s1) in
     activeConfig s2 = cfg /\ aiInstance s2 = None /\
     forall ai', outcome (getAiClient W s2) = Ok ai' ->
       apiKey ai' = if truthy (geminiKey cfg) then Some (geminiKey cfg)
                    else env_API_KEY W).
Proof.
  intros Hai s1.
  assert (aiInstance s1 = Some ai /\ activeConfig s1 = activeConfig s)
    as [Hc Hcfg].
  { subst s1. revert Hai. unfold getAiClient. exec.
    destruct (aiInstance s) as [ai0 |] eqn:Hi; exec.
    - intros [= <-]. auto.
    - destruct (truthyOpt _); exec;
        destruct (sdk_construct W _); exec; intros [= <-]; auto. }
  split; [exact Hc |]. split; [exact Hcfg |]. split.
  { unfold getAiClient. exec. rewrite Hc. reflexivity. }
  intros cfg s2. subst s2. cbn. split; [reflexivity |].
  split; [reflexivity |].
  intros ai'. unfold getAiClient. exec.
  destruct (truthyOpt _); exec; destruct (sdk_construct W _); exec;
    intros [= <-]; reflexivity.
Qed.

Lemma getAiClient_cache_witness :
  let W := Ex.world (Ok Ex.cited) (Throw Ex.netDown) in
  let s := Ex.state "" "" "g-key" "" in
  outcome (getAiClient W s) = Ok {| apiKey := Some (lit "g-key") |} /\
  trace (getAiClient W (final (getAiClient W s))) = [].
Proof.
  cbv zeta. split; [vm_compute; reflexivity |].
  rewrite (proj1 (proj2 (proj2
            (getAiClient_cache (Ex.world (Ok Ex.cited) (Throw Ex.netDown))
               (Ex.state "" "" "g-key" "")
               {| apiKey := Some (lit "g-key") |}
               ltac:(vm_compute; reflexivity))))).
  reflexivity.
Defined.

(** ** The search sources *)

Lemma fetchWikipedia_some W q s w :
  outcome (fetchWikipedia W q s) = Ok (Some w) ->
  exists page extract,
    extract <> [] /\
    w = {| wd_title := wh_title page ++ lit " (Wikipedia)";
           wd_uri := lit "https://" ++ wikiLang q ++
                     lit ".wikipedia.org/wiki/" ++
                     encodeURIComponent W (wh_title page);
           wd_content := JS.slice 0 (Some 1500) extract |}.
Proof.
  unfold fetchWikipedia. rewrite outcome_tryCatch. cbv zeta.
  rewrite outcome_bind.
  destruct (outcome (safeFetch W (wikiSearchRequest W q) s))
    as [r1 | e1]; [| cbn; discriminate].
  rewrite (preserves_safeFetch W _ s).
  destruct (if fr_ok r1 then wikiSearchHits (fr_data r1) else [])
    as [| page hits]; [cbn; discriminate |].
  rewrite outcome_bind.
  destruct (outcome (safeFetch W _ s)) as [r2 | e2]; [| cbn; discriminate].
  destruct (if fr_ok r2 then fr_data r2 else None) as [d |];
    [| cbn; discriminate].
  destruct (wikiExtract d (wh_pageid page)) as [extract |];
    [| cbn; discriminate].
  destruct (truthy extract) eqn:Ht; [| cbn; discriminate].
  cbn. intros [= <-]. exists page, extract.
  split; [apply truthy_true, Ht | reflexivity].
Qed.

Lemma fetchWikipedia_calls W q s :
  (length (networkCalls (trace (fetchWikipedia W q s))) <= 2)%nat.
Proof.
  unfold fetchWikipedia.
  rewrite trace_tryCatch, networkCalls_app. cbv zeta.
  rewrite trace_bind, networkCalls_app, safeFetch_calls, outcome_bind.
  destruct (outcome (safeFetch W (wikiSearchRequest W q) s))
    as [r1 | e1]; [| exec; lia].
  rewrite (preserves_safeFetch W _ s).
  destruct (if fr_ok r1 then wikiSearchHits (fr_data r1) else [])
    as [| page hits]; [exec; lia |].
  rewrite trace_bind, networkCalls_app, safeFetch_calls, outcome_bind.
  destruct (outcome (safeFetch W _ s)) as [r2 | e2]; [| exec; lia].
  destruct (if fr_ok r2 then fr_data r2 else None) as [d |]; [| exec; lia].
  destruct (wikiExtract d (wh_pageid page)) as [extract |]; [| exec; lia].
  destruct (truthy extract); exec; lia.
Qed.

(** X10: whatever Wikipedia answers, an encyclopedia entry handed to
    [search] has a non-empty plain-text content of at most 1500 code
    units, a title that is the page title followed by [ (Wikipedia)], and
    the article URI of that page in the edition chosen by the query;
    obtaining it takes at most two requests. *)
Theorem fetchWikipedia_entry W q s :
  (length (networkCalls (trace (fetchWikipedia W q s))) <= 2)%nat /\
  forall w,
    outcome (fetchWikipedia W q s) = Ok (Some w) ->
    wd_content w <> [] /\ (length (wd_content w) <= 1500)%nat /\
    exists title,
      wd_title w = title ++ lit " (Wikipedia)" /\
      wd_uri w = lit "https://" ++ wikiLang q ++ lit ".wikipedia.org/wiki/" ++
                 encodeURIComponent W title /\
      (wikiLang q = lit "zh" \/ wikiLang q = lit "en").
Proof.
  split; [apply fetchWikipedia_calls |].
  intros w (page & extract & Hne & ->)%fetchWikipedia_some.
  cbn [wd_content wd_title wd_uri]. rewrite slice_prefix by lia.
  split; [destruct extract; [contradiction | discriminate] |].
  split; [rewrite length_take; lia |].
  exists (wh_title page). split; [reflexivity |]. split; [reflexivity |].
  unfold wikiLang. destruct (existsb _ q); auto.
Qed.

Lemma fetchWikipedia_entry_witness :
  let W := Ex.worldWith true Ex.tavilyHits (Ok Ex.grounded)
             (Throw Ex.netDown) in
  let s := Ex.state "" "" "g-key" "t-key" in
  outcome (fetchWikipedia W (lit "rocq") s) = Ok (Some Ex.wiki) /\
  (length (wd_content Ex.wiki) <= 1500)%nat.
Proof.
  cbv zeta. split; [vm_compute; reflexivity |].
  apply (proj2 (fetchWikipedia_entry
                  (Ex.worldWith true Ex.tavilyHits (Ok Ex.grounded)
                     (Throw Ex.netDown))
                  (lit "rocq") (Ex.state "" "" "g-key" "t-key")) Ex.wiki).
  vm_compute. reflexivity.
Defined.







(** The request [summarizePage] sends. *)
Lemma summarizePage_outcome W url model s :
  outcome (summarizePage W url model s) =
  Ok match
       match outcome (getAiClient W s) with
       | Ok ai =>
           sdk_generateContent W ai
             {| gr_model := default (lit "gemini-2.5-flash") model;
                gr_contents := StringContents
                  (lit "Please visit and summarize this page: " ++ url);
                gr_systemInstruction :=
                  lit "You are a web summarizer. Output in structured Markdown.";
                gr_temperature := None;
                gr_googleSearch := true |}
       | Throw e => Throw e
       end
     with
     | Ok r => or_else (default [] (resp_text r))
                 (lit "Could not summarize page.")
     | Throw e => lit "Failed to summarize page: " ++ err_message e
     end.
Proof.
  unfold summarizePage. cbv zeta. rewrite outcome_tryCatch, outcome_bind.
  destruct (outcome (getAiClient W s)) as [ai | e]; [| reflexivity].
  rewrite outcome_bind, generateContent_outcome.
  destruct (sdk_generateContent W ai _); reflexivity.
Qed.

(** X13: [summarizePage] never throws and never returns an empty string:
    the summary when the model gave one, [Could not summarize page.] when
    it gave none, and [Failed to summarize page: <message>] when the client
    or the call failed.  The model defaults to [gemini-2.5-flash]. *)
Theorem summarizePage_total W url model s :
  exists text,
    outcome (summarizePage W url model s) = Ok text /\ text <> [] /\
    (forall e, outcome (getAiClient W s) = Throw e ->
       text = lit "Failed to summarize page: " ++ err_message e) /\
    (forall ai req,
       outcome (getAiClient W s) = Ok ai ->
       req = {| gr_model := default (lit "gemini-2.5-flash") model;
                gr_contents := StringContents
                  (lit "Please visit and summarize this page: " ++ url);
                gr_systemInstruction :=
                  lit "You are a web summarizer. Output in structured Markdown.";
                gr_temperature := None;
                gr_googleSearch := true |} ->
       (forall e, sdk_generateContent W ai req = Throw e ->
          text = lit "Failed to summarize page: " ++ err_message e) /\
       (forall r, sdk_generateContent W ai req = Ok r ->
          text = or_else (default [] (resp_text r))
                   (lit "Could not summarize page."))).
Proof.
  eexists. split; [apply summarizePage_outcome |].
  destruct (outcome (getAiClient W s)) as [ai | e].
  - split.
    + destruct (sdk_generateContent W ai _);
        [apply or_else_nonempty |]; discriminate.
    + split; [intros e [=] |]. intros ai' req [= <-] ->.
      split; [intros e -> | intros r ->]; reflexivity.
  - split; [discriminate |]. split; [intros e' [= <-]; reflexivity |].
    intros ai req [=].
Qed.

Lemma summarizePage_total_witness :
  let s := Ex.state "" "" "g-key" "" in
  exists text,
    outcome (summarizePage Ex.abortingWorld (lit "https://a.example/guide")
               None s) = Ok text /\
    text = lit "Failed to summarize page: " ++ err_message Ex.netDown.
Proof.
  cbv zeta.
  destruct (summarizePage_total Ex.abortingWorld
              (lit "https://a.example/guide") None
              (Ex.state "" "" "g-key" ""))
    as (text & Ho & _ & _ & H).
  exists text. split; [exact Ho |].
  destruct (H {| apiKey := Some (lit "g-key") |} _
              ltac:(vm_compute; reflexivity) eq_refl) as [Hthrow _].
  apply (Hthrow Ex.netDown). reflexivity.
Defined.

(** ** Inline links *)

Lemma startsWith_app p s : JS.startsWith p (p ++ s) = true.
Proof. induction p as [| a p IH]; [reflexivity |]. cbn. rewrite N.eqb_refl. exact IH. Qed.

Lemma startsWith_spec p s :
  JS.startsWith p s = true -> s = p ++ drop (length p) s.
Proof.
  revert s. induction p as [| a p IH]; intros s H; [reflexivity |].
  destruct s as [| b s]; [discriminate |]. cbn in H.
  apply andb_true_iff in H as [Hab H]. apply N.eqb_eq in Hab as ->.
  cbn. f_equal. apply IH, H.
Qed.

Lemma span_spec p s r t :
  JS.span p s = (r, t) ->
  s = r ++ t /\ Forall (fun c => p c = true) r /\
  (forall c t', t = c :: t' -> p c = false).
Proof.
  revert r t. induction s as [| c s IH]; intros r t H; cbn in H.
  - injection H as <- <-. repeat split; [constructor | intros ? ? [=]].
  - destruct (p c) eqn:Hp.
    + destruct (JS.span p s) as [r' t'] eqn:Hs. injection H as <- <-.
      destruct (IH r' t' eq_refl) as (-> & Hall & Hhd).
      repeat split; [constructor; assumption | exact Hhd].
    + injection H as <- <-.
      repeat split; [constructor | intros ? ? [= <- <-]; exact Hp].
Qed.

Lemma span_app p r c t :
  Forall (fun c => p c = true) r -> p c = false ->
  JS.span p (r ++ c :: t) = (r, c :: t).
Proof.
  intros Hall Hc. induction Hall as [| a r Ha Hall IH]; cbn.
  - rewrite Hc. reflexivity.
  - rewrite Ha, IH. reflexivity.
Qed.

Ltac other_unit H :=
  match type of H with
  | context [match ?c with N0 => _ | Npos _ => _ end] =>
      destruct c as [| ?p]; [discriminate H |];
      repeat match type of H with
             | context [match ?q with xI _ => _ | xO _ => _ | xH => _ end] =>
                 destruct q; try discriminate H
             end
  end.

Lemma matchLinkAt_spec s title uri n :
  matchLinkAt s = Some (title, uri, n) ->
  exists rest after,
    s = lit "[" ++ title ++ lit "](" ++ uri ++ lit ")" ++ after /\
    title <> [] /\ Forall (fun c => c <> 93%N) title /\
    rest <> [] /\ Forall (fun c => c <> 41%N) rest /\
    (uri = lit "https://" ++ rest \/ uri = lit "http://" ++ rest) /\
    n = (length title + length uri + 4)%nat.
Proof.
  unfold matchLinkAt. intros H.
  destruct s as [| c s1]; [discriminate |].
  other_unit H.
  destruct (JS.span _ s1) as [t s2] eqn:Hspan.
  apply span_spec in Hspan as (-> & Ht & _).
  destruct t as [| t0 t]; [discriminate |].
  destruct s2 as [| c1 s2]; [discriminate |].
  other_unit H.
  destruct s2 as [| c2 s3]; [discriminate |].
  other_unit H.
  cbv zeta in H.
  assert (exists sch, (sch = lit "https://" \/ sch = lit "http://") /\
            JS.startsWith sch s3 = true /\
            exists rest s4,
              JS.span (fun c => negb (c =? 41)%N) (drop (length sch) s3) =
                (rest, 41%N :: s4) /\ rest <> [] /\
              title = t0 :: t /\ uri = sch ++ rest /\
              n = (length (t0 :: t) + length sch + length rest + 4)%nat)
    as (sch & Hsch & Hs3 & rest & s4 & Hspan & Hne & -> & -> & ->).
  { destruct (JS.startsWith (lit "https://") s3) eqn:E1;
      [| destruct (JS.startsWith (lit "http://") s3) eqn:E2;
         [| discriminate]].
    all: eexists; split; [| split; [eassumption |]]; [auto |].
    all: destruct (JS.span _ (drop _ s3)) as [rest s4].
    all: destruct rest as [| r0 rest]; [discriminate H |].
    all: destruct s4 as [| c3 s4]; [discriminate H |].
    all: cbv beta iota in H; other_unit H; injection H as <- <- <-.
    all: eexists _, _; split; [reflexivity |]; split; [discriminate |].
    all: auto. }
  clear H. apply startsWith_spec in Hs3.
  apply span_spec in Hspan as (Hdrop & Hr & _).
  exists rest, s4.
  split.
  { rewrite Hs3, Hdrop. change (lit "[") with [91%N].
    change (lit "](") with [93%N; 40%N]. change (lit ")") with [41%N].
    cbn [app]. rewrite <- !app_assoc. reflexivity. }
  split; [discriminate |].
  split.
  { eapply Forall_impl; [exact Ht |]. cbn. intros c Hc ->. discriminate. }
  split; [exact Hne |].
  split.
  { eapply Forall_impl; [exact Hr |]. cbn. intros c Hc ->. discriminate. }
  split; [destruct Hsch as [-> | ->]; auto |].
  rewrite length_app. lia.
Qed.

Lemma linkMatches_skip l after :
  linkMatches (length l) (l ++ after) = linkMatches 0 after.
Proof. induction l as [| c l IH]; [destruct after |]; auto. Qed.

Lemma linkMatches_spec skip s title uri :
  (title, uri) ∈ linkMatches skip s ->
  exists before rest after,
    s = before ++ lit "[" ++ title ++ lit "](" ++ uri ++ lit ")" ++ after /\
    title <> [] /\ Forall (fun c => c <> 93%N) title /\
    rest <> [] /\ Forall (fun c => c <> 41%N) rest /\
    (uri = lit "https://" ++ rest \/ uri = lit "http://" ++ rest).
Proof.
  revert skip. induction s as [| c s IH]; intros skip Hin.
  { destruct skip; cbn in Hin; inversion Hin. }
  assert (forall k, (title, uri) ∈ linkMatches k s ->
            exists before rest after,
              c :: s = before ++ lit "[" ++ title ++ lit "](" ++ uri ++
                       lit ")" ++ after /\
              title <> [] /\ Forall (fun c => c <> 93%N) title /\
              rest <> [] /\ Forall (fun c => c <> 41%N) rest /\
              (uri = lit "https://" ++ rest \/ uri = lit "http://" ++ rest))
    as Hrec.
  { intros k (before & rest & after & -> & Hrest)%IH.
    exists (c :: before), rest, after. split; [reflexivity | exact Hrest]. }
  cbn [linkMatches] in Hin. destruct skip as [| k]; [| eauto].
  destruct (matchLinkAt (c :: s)) as [[[t u] n] |] eqn:Hm; [| eauto].
  apply elem_of_cons in Hin as [[= -> ->] | Hin]; [| eauto].
  apply matchLinkAt_spec in Hm as (rest & after & Hs & Hrest).
  exists [], rest, after. split; [exact Hs |].
  destruct Hrest as (? & ? & ? & ? & ? & _). auto.
Qed.

(** Every source extracted from inline links is a link of the text. *)
Lemma linkSources_shape text x :
  x ∈ linkSources text ->
  ss_snippet x = None /\
  ss_title x <> [] /\ Forall (fun c => c <> 93%N) (ss_title x) /\
  (exists rest,
     rest <> [] /\ Forall (fun c => c <> 41%N) rest /\
     (ss_uri x = lit "https://" ++ rest \/ ss_uri x = lit "http://" ++ rest)) /\
  exists before after,
    text = before ++ lit "[" ++ ss_title x ++ lit "](" ++ ss_uri x ++
           lit ")" ++ after.
Proof.
  unfold linkSources. intros ([title uri] & -> & Hin)%list_elem_of_fmap.
  apply linkMatches_spec in Hin
    as (before & rest & after & Htext & Ht & Htitle & Hr & Hrest & Huri).
  cbn. eauto 10.
Qed.

Lemma matchLinkAt_head c s : c <> 91%N -> matchLinkAt (c :: s) = None.
Proof.
  intros Hc. unfold matchLinkAt. destruct c as [| p]; [reflexivity |].
  do 7 (try (destruct p as [p | p |]; try reflexivity)).
  contradiction.
Qed.

Lemma linkMatches_before before s :
  Forall (fun c => c <> 91%N) before ->
  linkMatches 0 (before ++ s) = linkMatches 0 s.
Proof.
  induction 1 as [| c before Hc _ IH]; [reflexivity |].
  cbn [app linkMatches]. rewrite (matchLinkAt_head c _ Hc). exact IH.
Qed.

Lemma matchLinkAt_link title sch rest after :
  title <> [] -> Forall (fun c => c <> 93%N) title ->
  rest <> [] -> Forall (fun c => c <> 41%N) rest ->
  sch = lit "https://" \/ sch = lit "http://" ->
  matchLinkAt (lit "[" ++ title ++ lit "](" ++ sch ++ rest ++ lit ")" ++ after)
  = Some (title, sch ++ rest,
          (length title + length sch + length rest + 4)%nat).
Proof.
  intros Ht Htitle Hr Hrest Hsch.
  change (lit "[") with [91%N]. change (lit "](") with [93%N; 40%N].
  change (lit ")") with [41%N]. cbn [app]. unfold matchLinkAt.
  rewrite span_app; [| | reflexivity].
  2: { eapply Forall_impl; [exact Htitle |]. cbn. intros c Hc.
       apply negb_true_iff, N.eqb_neq, Hc. }
  destruct title as [| t0 title]; [contradiction |].
  assert ((if JS.startsWith (lit "https://") (sch ++ rest ++ 41%N :: after)
           then Some (lit "https://")
           else if JS.startsWith (lit "http://") (sch ++ rest ++ 41%N :: after)
                then Some (lit "http://") else None) = Some sch) as ->.
  { destruct Hsch as [-> | ->]; [rewrite startsWith_app; reflexivity |].
    rewrite (startsWith_app (lit "http://")). reflexivity. }
  rewrite drop_app_length.
  rewrite span_app; [| | reflexivity].
  2: { eapply Forall_impl; [exact Hrest |]. cbn. intros c Hc.
       apply negb_true_iff, N.eqb_neq, Hc. }
  destruct rest as [| r0 rest]; [contradiction |]. reflexivity.
Qed.

(** A well-formed link after bracket-free prose is the first one found. *)
Lemma linkSources_extracts before title sch rest after :
  Forall (fun c => c <> 91%N) before ->
  title <> [] -> Forall (fun c => c <> 93%N) title ->
  rest <> [] -> Forall (fun c => c <> 41%N) rest ->
  sch = lit "https://" \/ sch = lit "http://" ->
  linkSources (before ++ lit "[" ++ title ++ lit "](" ++ sch ++ rest ++
               lit ")" ++ after) =
  {| ss_title := title; ss_uri := sch ++ rest; ss_snippet := None |} ::
  linkSources after.
Proof.
  intros Hb Ht Htitle Hr Hrest Hsch. unfold linkSources.
  rewrite linkMatches_before by exact Hb.
  pose proof (matchLinkAt_link title sch rest after Ht Htitle Hr Hrest Hsch)
    as Hm.
  change (lit "[") with [91%N] in *. cbn [app] in *.
  cbn [linkMatches]. rewrite Hm. cbn [fmap list_fmap fst snd]. f_equal.
  f_equal.
  replace (length title + length sch + length rest + 4 - 1)%nat
    with (length (title ++ lit "](" ++ sch ++ rest ++ lit ")")).
  - rewrite <- linkMatches_skip with (l := title ++ lit "](" ++ sch ++ rest ++ lit ")").
    rewrite <- !app_assoc. reflexivity.
  - rewrite !length_app. change (length (lit "](")) with 2%nat.
    change (length (lit ")")) with 1%nat. lia.
Qed.

(** ** Data URIs *)

Lemma findSub_spec needle hay b a :
  JS.findSub needle hay = Some (b, a) ->
  hay = b ++ needle ++ a /\
  forall i, (i < length b)%nat -> JS.startsWith needle (drop i hay) = false.
Proof.
  revert b a. induction hay as [| c hay IH]; intros b a; cbn [JS.findSub].
  - destruct (JS.startsWith needle []) eqn:Hs; [| discriminate].
    intros [= <- <-]. apply startsWith_spec in Hs.
    split; [exact Hs | cbn; lia].
  - destruct (JS.startsWith needle (c :: hay)) eqn:Hs.
    + intros [= <- <-]. apply startsWith_spec in Hs.
      split; [exact Hs | cbn; lia].
    + destruct (JS.findSub needle hay) as [[b' a'] |]; [| discriminate].
      intros [= <- <-]. destruct (IH b' a' eq_refl) as [-> Hfirst].
      split; [reflexivity |]. intros [| i] Hi; [exact Hs |].
      cbn [drop]. apply Hfirst. cbn in Hi. lia.
Qed.

Lemma findSub_here needle hay :
  JS.startsWith needle hay = true ->
  JS.findSub needle hay = Some ([], drop (length needle) hay).
Proof. intros H. destruct hay; cbn [JS.findSub]; rewrite H; reflexivity. Qed.

Lemma findSub_marker mime data :
  Forall (fun c => c <> 59%N) mime ->
  JS.findSub (lit ";base64,") (mime ++ lit ";base64," ++ data) =
  Some (mime, data).
Proof.
  induction 1 as [| c mime Hc _ IH].
  - cbn [app]. rewrite findSub_here by apply startsWith_app.
    rewrite drop_app_length. reflexivity.
  - cbn [app JS.findSub]. rewrite IH.
    replace (JS.startsWith (lit ";base64,")
               (c :: mime ++ lit ";base64," ++ data))
      with false; [reflexivity |].
    change (lit ";base64,") with [59; 98; 97; 115; 101; 54; 52; 44]%N.
    cbn [JS.startsWith]. apply N.eqb_neq in Hc. rewrite N.eqb_sym, Hc.
    reflexivity.
Qed.

Lemma forallb_noLineTerminator s :
  forallb (fun c => negb (JS.isLineTerminator c)) s = true <->
  noLineTerminator s.
Proof.
  unfold noLineTerminator. rewrite forallb_forall, Forall_forall.
  split; intros H c Hc%list_elem_of_In; specialize (H c Hc);
    destruct (JS.isLineTerminator c); auto; discriminate.
Qed.

Lemma matchDataUri_decode s mime data :
  matchDataUri s = Some (mime, data) ->
  s = lit "data:" ++ mime ++ lit ";base64," ++ data /\
  noLineTerminator mime /\ noLineTerminator data /\
  forall mime' data',
    s = lit "data:" ++ mime' ++ lit ";base64," ++ data' ->
    (length mime <= length mime')%nat.
Proof.
  unfold matchDataUri.
  destruct (JS.startsWith (lit "data:") s) eqn:Hs; [| discriminate].
  apply startsWith_spec in Hs. change (length (lit "data:")) with 5%nat in Hs.
  cbv zeta.
  destruct (forallb _ (drop 5 s)) eqn:Hlt; [| discriminate].
  intros [Hr Hfirst]%findSub_spec.
  apply forallb_noLineTerminator in Hlt. rewrite Hr in Hlt.
  unfold noLineTerminator in *.
  apply Forall_app in Hlt as [Hm [_ Hd]%Forall_app].
  split; [rewrite Hs at 1; rewrite Hr; reflexivity |].
  split; [exact Hm |]. split; [exact Hd |].
  intros mime' data' Hs'.
  destruct (Nat.le_gt_cases (length mime) (length mime')) as [| Hlt'];
    [assumption |].
  specialize (Hfirst _ Hlt'). rewrite Hs' in Hfirst.
  change (drop 5 (lit "data:" ++ mime' ++ lit ";base64," ++ data'))
    with (mime' ++ lit ";base64," ++ data') in Hfirst.
  rewrite drop_app_length, startsWith_app in Hfirst. discriminate.
Qed.

Lemma matchDataUri_encode mime data :
  Forall (fun c => c <> 59%N) mime ->
  noLineTerminator mime -> noLineTerminator data ->
  matchDataUri (lit "data:" ++ mime ++ lit ";base64," ++ data) =
  Some (mime, data).
Proof.
  intros Hsemi Hm Hd. unfold matchDataUri. rewrite startsWith_app.
  change (drop 5 (lit "data:" ++ mime ++ lit ";base64," ++ data))
    with (mime ++ lit ";base64," ++ data).
  cbv zeta.
  rewrite (proj2 (forallb_noLineTerminator _)).
  - apply findSub_marker, Hsemi.
  - unfold noLineTerminator in *. rewrite !Forall_app.
    split; [exact Hm |]. split; [| exact Hd].
    vm_compute. repeat constructor.
Qed.

Lemma matchDataUri_other s :
  JS.startsWith (lit "data:") s = false -> matchDataUri s = None.
Proof. unfold matchDataUri. intros ->. reflexivity. Qed.

(** X16: the image part of a Gemini translation.  A base64 data-URI is
    taken apart into its MIME type and its payload (for a MIME type without
    semicolon and a URI without line terminators); anything that does not
    start with [data:] is sent whole, declared as PNG; and no other part is
    ever built. *)
Theorem inlineImage_data_uri :
  (forall mime data,
     Forall (fun c => c <> 59%N) mime ->
     noLineTerminator mime -> noLineTerminator data ->
     inlineImage (lit "data:" ++ mime ++ lit ";base64," ++ data) =
     InlineData mime data) /\
  (forall img,
     JS.startsWith (lit "data:") img = false ->
     inlineImage img = InlineData (lit "image/png") img) /\
  (forall img mime data,
     inlineImage img = InlineData mime data ->
     img = lit "data:" ++ mime ++ lit ";base64," ++ data \/
     mime = lit "image/png" /\ data = img).
Proof.
  unfold inlineImage. split; [| split].
  - intros mime data Hs Hm Hd. rewrite matchDataUri_encode by assumption.
    reflexivity.
  - intros img Hs. rewrite matchDataUri_other by assumption. reflexivity.
  - intros img mime data.
    destruct (matchDataUri img) as [[m d] |] eqn:Hmatch.
    + intros [= <- <-]. left. apply matchDataUri_decode in Hmatch. tauto.
    + intros [= <- <-]. right. auto.
Qed.

Lemma inlineImage_data_uri_witness :
  inlineImage (lit "data:image/webp;base64,UklGRg==") =
  InlineData (lit "image/webp") (lit "UklGRg==").
Proof.
  change (lit "data:image/webp;base64,UklGRg==") with
    (lit "data:" ++ lit "image/webp" ++ lit ";base64," ++ lit "UklGRg==").
  apply (proj1 inlineImage_data_uri);
    vm_compute; repeat constructor; discriminate.
Defined.

(** X17: how [chat] forwards the image of a message.  On the Gemini path
    a message becomes at most one image part followed by its text: the
    image is sent only when it is a base64 data-URI and is dropped
    silently otherwise.  On the OpenAI-compatible path every non-empty
    image is forwarded unchanged as an [image_url] part after the text, and
    a message without image is sent as a plain string. *)
Theorem chat_image_forwarding m :
  (exists imgs,
     geminiParts m = imgs ++ [GText (cm_content m)] /\
     (length imgs <= 1)%nat /\
     (forall mime data,
        cm_image m = Some (lit "data:" ++ mime ++ lit ";base64," ++ data) ->
        Forall (fun c => c <> 59%N) mime ->
        noLineTerminator mime -> noLineTerminator data ->
        imgs = [InlineData mime data]) /\
     (forall img,
        cm_image m = Some img -> JS.startsWith (lit "data:") img = false ->
        imgs = []) /\
     (truthyOpt (cm_image m) = false -> imgs = [])) /\
  (forall img,
     cm_image m = Some img -> img <> [] ->
     oa_content (openAIMessage m) =
     PartsContent [TextPart (cm_content m); ImageUrlPart img]) /\
  (truthyOpt (cm_image m) = false ->
   oa_content (openAIMessage m) = PlainContent (cm_content m)) /\
  oa_role (openAIMessage m) = roleName (cm_role m).
Proof.
  split; [| split; [| split]].
  - unfold geminiParts. eexists. split; [reflexivity |].
    destruct (cm_image m) as [img |]; cbn [truthyOpt].
    2: { split; [cbn; lia |]. split; [intros ? ? [=] |].
         split; [intros ? [=] | reflexivity]. }
    destruct (truthy img) eqn:Ht.
    2: { split; [cbn; lia |]. split; [| split; reflexivity].
         intros mime data [= ->]. discriminate. }
    split; [destruct (matchDataUri img) as [[] |]; cbn; lia |].
    split; [| split; [| discriminate]].
    + intros mime data Hi%(inj Some) Hs Hm Hd. subst img.
      rewrite matchDataUri_encode by assumption. reflexivity.
    + intros img' [= <-] Hs. rewrite matchDataUri_other by assumption.
      reflexivity.
  - intros img Hi Hne. unfold openAIMessage. rewrite Hi. cbn [truthyOpt].
    rewrite (proj2 (truthy_true _) Hne). reflexivity.
  - intros Hf. unfold openAIMessage. rewrite Hf. reflexivity.
  - unfold openAIMessage. destruct (truthyOpt (cm_image m)); reflexivity.
Qed.

Lemma chat_image_forwarding_witness :
  let m := {| cm_id := lit "1"; cm_role := user; cm_content := lit "look";
              cm_timestamp := 0;
              cm_image := Some (lit "https://a.example/cat.png") |} in
  geminiParts m = [GText (lit "look")] /\
  oa_content (openAIMessage m) =
  PartsContent [TextPart (lit "look");
                ImageUrlPart (lit "https://a.example/cat.png")].
Proof.
  cbv zeta.
  destruct (chat_image_forwarding
              {| cm_id := lit "1"; cm_role := user; cm_content := lit "look";
                 cm_timestamp := 0;
                 cm_image := Some (lit "https://a.example/cat.png") |})
    as ((imgs & -> & _ & _ & Hother & _) & Hopen & _).
  split.
  - rewrite (Hother (lit "https://a.example/cat.png") eq_refl eq_refl).
    reflexivity.
  - apply Hopen; [reflexivity | vm_compute; discriminate].
Defined.

(** ** Clean source lists *)

Lemma cleanFrom_id seen raw :
  NoDup (baseUri <$> raw) -> Forall cleanSource raw ->
  (forall s, s ∈ raw -> baseUri s ∉ seen) ->
  cleanFrom seen raw = raw.
Proof.
  revert seen. induction raw as [| s raw IH]; intros seen Hnd Hall Hseen;
    [reflexivity |].
  rewrite fmap_cons in Hnd. apply NoDup_cons in Hnd as [Hs Hnd].
  apply Forall_cons in Hall as [[Hne Hm] Hall]. cbn [cleanFrom].
  assert (keepSource seen (baseUri s) = true) as ->.
  { apply keepSource_true. repeat split; [assumption .. |].
    apply Hseen. left. }
  f_equal. apply IH; [assumption .. |].
  intros c Hc. apply not_elem_of_union. split; [| apply Hseen; right; exact Hc].
  intros Heq%elem_of_singleton. apply Hs, list_elem_of_fmap.
  exists c. split; [symmetry; exact Heq | exact Hc].
Qed.

(** X18: the source filter of [search] is idempotent, never lengthens
    the list, and leaves a list untouched exactly when that list is
    already clean: no two fragment-stripped URIs equal, none empty, none
    holding the [vertexaisearch] marker. *)
Theorem cleanSources_fixed_point raw :
  cleanSources (cleanSources raw) = cleanSources raw /\
  (cleanSources raw = raw <->
   NoDup (baseUri <$> raw) /\ Forall cleanSource raw) /\
  (length (cleanSources raw) <= length raw)%nat.
Proof.
  assert (forall l, NoDup (baseUri <$> l) /\ Forall cleanSource l ->
                    cleanSources l = l) as Hfix.
  { intros l [Hnd Hall]. rewrite cleanSources_cleanFrom.
    apply cleanFrom_id; [assumption .. | set_solver]. }
  assert (NoDup (baseUri <$> cleanSources raw) /\
          Forall cleanSource (cleanSources raw)) as Hclean.
  { rewrite cleanSources_cleanFrom. split; [apply cleanFrom_NoDup |].
    apply Forall_forall. intros c (_ & Hne & Hm & _)%cleanFrom_elem.
    split; assumption. }
  split; [apply Hfix, Hclean |]. split.
  - split; [intros <-; exact Hclean | apply Hfix].
  - rewrite cleanSources_cleanFrom. apply sublist_length, cleanFrom_sublist.
Qed.

Lemma cleanSources_fixed_point_witness :
  cleanSources [Ex.src "Guide" "https://a.example/guide#install";
                Ex.src "API" "https://a.example/api"] =
  [Ex.src "Guide" "https://a.example/guide#install";
   Ex.src "API" "https://a.example/api"].
Proof.
  apply (proj1 (proj2 (cleanSources_fixed_point _))). split.
  - vm_compute. repeat constructor; set_solver.
  - repeat constructor; vm_compute; discriminate.
Defined.

(** ** chat: refusals and errors *)

(** X19: what [chat] refuses without any effect.  DeepLX is not a chat
    provider; the OpenAI path needs a key; and on the Gemini path an empty
    context window ends in a [TypeError], raised outside the [try], before
    a client is obtained: no event, no state change in all three cases.
    The window is empty exactly when no message was passed or [maxContext]
    is at most minus their number. *)
Theorem chat_refusals W msgs model settings signal s :
  chat W msgs DeepLX model settings signal s =
    {| outcome := Throw (newError
                           (lit "Provider DeepLX not supported for chat yet."));
       final := s; trace := [] |} /\
  (openaiKey (activeConfig s) = [] ->
   chat W msgs OpenAI model settings signal s =
     {| outcome := Throw (newError (lit "OpenAI API Key is missing."));
        final := s; trace := [] |}) /\
  (contextMessages msgs settings = [] ->
   exists e,
     chat W msgs Gemini model settings signal s =
       {| outcome := Throw e; final := s; trace := [] |} /\
     err_name e = lit "TypeError") /\
  (contextMessages msgs settings = [] <->
   msgs = [] \/ maxContext settings <= - Z.of_nat (length msgs)).
Proof.
  split; [reflexivity |]. split; [| split].
  - intros Hk. unfold chat.
    rewrite (bind_returns _ _ s (activeConfig s) s []) by reflexivity.
    rewrite Hk. reflexivity.
  - intros Hw. unfold chat. rewrite Hw. eexists. split; reflexivity.
  - unfold contextMessages. rewrite slice_from.
    rewrite <- length_zero_iff_nil, length_drop. unfold JS.relIndex.
    destruct msgs as [| m msgs]; [cbn; split; [auto | intros; lia] |].
    cbn [length].
    destruct (Z.ltb_spec (- maxContext settings) 0);
      (split; [intros H'; right; lia | intros [[=] | H']; lia]).
Qed.

Lemma chat_refusals_witness :
  chat Ex.abortingWorld Ex.conversation OpenAI (lit "gpt-4o") (Ex.settings 10)
    None (Ex.state "" "" "g-key" "") =
  {| outcome := Throw (newError (lit "OpenAI API Key is missing."));
     final := Ex.state "" "" "g-key" ""; trace := [] |}.
Proof.
  apply (proj1 (proj2 (chat_refusals Ex.abortingWorld Ex.conversation
                         (lit "gpt-4o") (Ex.settings 10) None
                         (Ex.state "" "" "g-key" "")))).
  reflexivity.
Defined.

Lemma safeFetch_throws W req s e :
  outcome (safeFetch W req s) = Throw e ->
  err_name e = lit "AbortError" /\ net_fetch W req = FetchRejects e.
Proof.
  unfold safeFetch. exec. destruct (net_fetch W req) as [e0 | ok st tx]; exec;
    [| discriminate].
  destruct (bool_decide (err_name e0 = lit "AbortError")) eqn:Hab; exec;
    [| discriminate].
  intros [= <-]. apply bool_decide_eq_true in Hab. auto.
Qed.

Lemma openAICompletion_throws W base key model msgs temp signal s e :
  outcome (openAICompletion W base key model msgs temp signal s) = Throw e ->
  (err_name e = lit "AbortError" /\
   net_fetch W (completionRequest base key model msgs (default (5 # 10) temp)
                  signal) = FetchRejects e) \/
  (err_name e = lit "Error" /\ err_message e <> []).
Proof.
  unfold openAICompletion. cbv zeta. rewrite outcome_bind.
  destruct (outcome (safeFetch W _ s)) as [r | e0] eqn:Hf.
  - intros H. right. revert H. rewrite outcome_bind.
    destruct (fr_ok r); cbn.
    + destruct (fr_data r); cbn; [discriminate |].
      intros [= <-]. split; [reflexivity | discriminate].
    + intros [= <-]. split; [reflexivity | discriminate].
  - intros [= <-]. left. apply safeFetch_throws in Hf. exact Hf.
Qed.

(** X20: the errors [chat] can throw.  From the OpenAI path: the very
    [AbortError] that [fetch] rejected the completion request with, or a
    plain [Error] with a non-empty message.  From the Gemini path: a plain
    [Error] with a non-empty message (an abort is not recognisable there),
    or the [TypeError] of an empty window.  From DeepLX: the refusal. *)
Theorem chat_error_taxonomy W msgs provider model settings signal s e :
  outcome (chat W msgs provider model settings signal s) = Throw e ->
  match provider with
  | DeepLX => e = newError (lit "Provider DeepLX not supported for chat yet.")
  | OpenAI =>
      (err_name e = lit "AbortError" /\
       openaiKey (activeConfig s) <> [] /\
       net_fetch W
         (completionRequest (openaiBaseUrl (activeConfig s))
            (openaiKey (activeConfig s)) model
            (openAIMessages (chatInstruction settings)
               (contextMessages msgs settings))
            (temperature settings) signal) = FetchRejects e) \/
      (err_name e = lit "Error" /\ err_message e <> [])
  | Gemini =>
      (err_name e = lit "TypeError" /\ contextMessages msgs settings = []) \/
      (err_name e = lit "Error" /\ err_message e <> [])
  end.
Proof.
  destruct provider; unfold chat; cbv zeta.
  - intros [= <-]. reflexivity.
  - rewrite outcome_bind. cbn [getConfig outcome final]. rewrite outcome_bind.
    destruct (truthy (openaiKey (activeConfig s))) eqn:Hk; cbn.
    2: { intros [= <-]. right. split; [reflexivity | discriminate]. }
    rewrite outcome_tryCatch, outcome_bind.
    destruct (outcome (openAICompletion W _ _ _ _ _ _ s)) as [d | e0] eqn:Hc;
      [discriminate |].
    apply openAICompletion_throws in Hc.
    destruct (bool_decide (err_name e0 = lit "AbortError")) eqn:Hab; cbn.
    + intros [= <-]. destruct Hc as [[Hn Hnet] | [Hn _]].
      * left. split; [exact Hn |]. split; [apply truthy_true, Hk | exact Hnet].
      * apply bool_decide_eq_true in Hab. rewrite Hn in Hab. discriminate.
    + intros [= <-]. right. split; [reflexivity |].
      apply or_else_nonempty. discriminate.
  - destruct (last (contextMessages msgs settings)) as [m |] eqn:Hl.
    + rewrite outcome_tryCatch.
      destruct (outcome (bind _ _ s)) as [a | e0]; [discriminate |].
      rewrite outcome_bind. cbn. intros [= <-]. right.
      split; [reflexivity |]. apply or_else_nonempty. discriminate.
    + intros [= <-]. left. split; [reflexivity |].
      apply last_None in Hl. exact Hl.
Qed.

Lemma chat_error_taxonomy_witness :
  let s := Ex.state "" "sk-key" "" "" in
  outcome (chat Ex.abortingWorld Ex.conversation OpenAI (lit "gpt-4o")
             (Ex.settings 10) None s) =
  Throw (newError (lit "API Error 0: ")) /\
  (err_name (newError (lit "API Error 0: ")) = lit "AbortError" /\
   openaiKey (activeConfig s) <> [] /\
   net_fetch Ex.abortingWorld
     (completionRequest (openaiBaseUrl (activeConfig s))
        (openaiKey (activeConfig s)) (lit "gpt-4o")
        (openAIMessages (chatInstruction (Ex.settings 10))
           (contextMessages Ex.conversation (Ex.settings 10)))
        (temperature (Ex.settings 10)) None) =
   FetchRejects (newError (lit "API Error 0: ")) \/
   err_name (newError (lit "API Error 0: ")) = lit "Error" /\
   err_message (newError (lit "API Error 0: ")) <> []).
Proof.
  cbv zeta.
  assert (outcome (chat Ex.abortingWorld Ex.conversation OpenAI (lit "gpt-4o")
                     (Ex.settings 10) None (Ex.state "" "sk-key" "" "")) =
          Throw (newError (lit "API Error 0: "))) as H
    by (vm_compute; reflexivity).
  split; [exact H |].
  exact (chat_error_taxonomy _ _ OpenAI _ _ _ _ _ H).
Defined.

(** ** Trimmed replies *)

Lemma dropWhile_suffix p s : exists pre, s = pre ++ JS.dropWhile p s.
Proof.
  induction s as [| c s [pre IH]]; [exists []; reflexivity |]. cbn.
  destruct (p c); [| exists []; reflexivity].
  exists (c :: pre). cbn. f_equal. exact IH.
Qed.

Lemma dropWhile_stable p s :
  (forall c, head s = Some c -> p c = false) -> JS.dropWhile p s = s.
Proof.
  destruct s as [| d s]; [reflexivity |]. cbn. intros H.
  rewrite (H d eq_refl). reflexivity.
Qed.

Lemma trim_edges s c :
  head (JS.trim s) = Some c \/ last (JS.trim s) = Some c ->
  JS.isWhiteSpace c = false.
Proof.
  unfold JS.trim.
  set (a := JS.dropWhile JS.isWhiteSpace s).
  set (b := JS.dropWhile JS.isWhiteSpace (reverse a)).
  intros [Hh | Hl].
  - destruct (dropWhile_suffix JS.isWhiteSpace (reverse a)) as [pre Hpre].
    fold b in Hpre. apply (f_equal reverse) in Hpre.
    rewrite reverse_involutive, reverse_app in Hpre.
    apply (dropWhile_head _ s c). fold a. rewrite Hpre.
    destruct (reverse b); [discriminate | exact Hh].
  - rewrite last_reverse in Hl. apply (dropWhile_head _ (reverse a) c), Hl.
Qed.

Lemma trim_idempotent s : JS.trim (JS.trim s) = JS.trim s.
Proof.
  pose proof (trim_edges s) as He. revert He.
  generalize (JS.trim s). intros t He. unfold JS.trim.
  rewrite (dropWhile_stable _ t) by (intros c Hc; apply He; auto).
  rewrite dropWhile_stable; [apply reverse_involutive |].
  intros c Hc. rewrite head_reverse in Hc. apply He. auto.
Qed.

Lemma firstChoiceContent_trimmed d :
  JS.trim (firstChoiceContent d) = firstChoiceContent d.
Proof.
  destruct d as [| [| [c |] l] | | | | |]; try reflexivity.
  cbn [firstChoiceContent]. unfold or_else.
  destruct (truthy (JS.trim c)); [apply trim_idempotent | reflexivity].
Qed.

(** X21: a reply obtained through the OpenAI-compatible adapter, by
    [translate] or by [chat], is trimmed: trimming it again changes
    nothing, so it neither starts nor ends with white space or a line
    terminator. *)
Theorem openAI_replies_trimmed W s r :
  (exists p, outcome (translate W (lit "OpenAI") p s) = Ok r) \/
  (exists msgs model settings signal,
     outcome (chat W msgs OpenAI model settings signal s) = Ok r) ->
  JS.trim r = r /\
  forall c, head r = Some c \/ last r = Some c -> JS.isWhiteSpace c = false.
Proof.
  intros H.
  assert (exists d, r = firstChoiceContent d) as [d ->].
  { destruct H as [[p H] | (msgs & model & settings & signal & H)]; revert H.
    - rewrite translate_OpenAI. unfold translateOpenAI.
      rewrite outcome_bind. cbn [getConfig outcome final].
      rewrite outcome_bind.
      destruct (truthy (openaiKey (activeConfig s))); cbn; [| discriminate].
      rewrite outcome_tryCatch, outcome_bind.
      destruct (outcome (openAICompletion W _ _ _ _ _ _ s)) as [d | e];
        cbn; [| discriminate].
      intros [= <-]. eauto.
    - unfold chat. cbv zeta.
      rewrite outcome_bind. cbn [getConfig outcome final].
      rewrite outcome_bind.
      destruct (truthy (openaiKey (activeConfig s))); cbn; [| discriminate].
      rewrite outcome_tryCatch, outcome_bind.
      destruct (outcome (openAICompletion W _ _ _ _ _ _ s)) as [d | e]; cbn.
      + intros [= <-]. eauto.
      + destruct (bool_decide _); discriminate. }
  split; [apply firstChoiceContent_trimmed |].
  rewrite <- firstChoiceContent_trimmed. apply trim_edges.
Qed.

Lemma openAI_replies_trimmed_witness :
  let W := Ex.server (FetchResponds true 200 (lit "{json}"))
             (Some (ChatCompletionData [Some (lit "  Bonjour ")])) in
  let s := Ex.state "" "sk-key" "" "" in
  outcome (translate W (lit "OpenAI") (Ex.request "Hello" None) s) =
    Ok (lit "Bonjour") /\
  JS.trim (lit "Bonjour") = lit "Bonjour".
Proof.
  cbv zeta.
  assert (outcome (translate
                     (Ex.server (FetchResponds true 200 (lit "{json}"))
                        (Some (ChatCompletionData [Some (lit "  Bonjour ")])))
                     (lit "OpenAI") (Ex.request "Hello" None)
                     (Ex.state "" "sk-key" "" "")) = Ok (lit "Bonjour")) as H
    by (vm_compute; reflexivity).
  split; [exact H |].
  apply (openAI_replies_trimmed _ _ _ (or_introl (ex_intro _ _ H))).
Defined.

(** ** OCR *)

Lemma translateDeepLX_calls W p s :
  deeplxEndpoint (activeConfig s) <> [] ->
  networkCalls (trace (translateDeepLX W p s)) =
  [EvFetch (deepLXRequest (deeplxEndpoint (activeConfig s)) p)].
Proof.
  intros He. unfold translateDeepLX.
  rewrite trace_bind. cbn [getConfig outcome final trace app].
  rewrite trace_bind. rewrite (proj2 (truthy_true _) He).
  cbn [negb throwIf ret outcome final trace app].
  rewrite trace_bind, networkCalls_app, safeFetch_calls.
  destruct (outcome (safeFetch W _ s)) as [r | e]; [| reflexivity].
  rewrite trace_bind. destruct (fr_ok r); cbn; [| reflexivity].
  destruct (fr_data r) as [d |]; [| reflexivity].
  rewrite trace_bind. destruct (bool_decide _); reflexivity.
Qed.

(** X22: image translation through DeepLX.  When the OCR engine fails,
    [translate] fails with [Failed to extract text from image. <message>]
    after the OCR call and one console error, without any network call.
    When it reads non-blank text, the run goes on as the DeepLX
    translation of that text, and with an endpoint configured the one
    request sent carries the text as extracted (untrimmed) with the
    languages of the request. *)
Theorem translate_DeepLX_image_pipeline W p img s :
  tp_imageBase64 p = Some img -> img <> [] -> tp_text p = [] ->
  let lang := getTesseractLang (tp_sourceLang p) in
  (forall e,
     tesseract_recognize W lang img = Throw e ->
     translate W (lit "DeepLX") p s =
     {| outcome := Throw (newError
                            (lit "Failed to extract text from image. " ++
                             err_message e));
        final := s;
        trace := [EvOCR lang img; EvConsole LogError (lit "OCR Failed:")] |}) /\
  (forall text,
     tesseract_recognize W lang img = Ok text -> JS.trim text <> [] ->
     let r := translateDeepLX W (withText p text) s in
     translate W (lit "DeepLX") p s =
       {| outcome := outcome r; final := final r;
          trace := EvOCR lang img :: trace r |} /\
     (deeplxEndpoint (activeConfig s) <> [] ->
      networkCalls (trace (translate W (lit "DeepLX") p s)) =
      [EvFetch {| fr_url := deeplxEndpoint (activeConfig s);
                  fr_method := Some (lit "POST");
                  fr_headers := [(lit "Content-Type", lit "application/json")];
                  fr_body := Some (DeepLXBody text (tp_sourceLang p)
                                     (tp_targetLang p));
                  fr_signal := None |}])).
Proof.
  intros Himg Hne Htext lang. subst lang.
  rewrite translate_DeepLX, Himg, Htext.
  cbn [truthyOpt truthy negb default id].
  rewrite (proj2 (truthy_true img) Hne). cbn [andb]. split.
  - intros e He.
    rewrite (bind_throws _ _ s
               (newError (lit "Failed to extract text from image. " ++
                          err_message e)) s
               [EvOCR (getTesseractLang (tp_sourceLang p)) img; EvConsole LogError (lit "OCR Failed:")]);
      [reflexivity |].
    rewrite performOCR_run, He. reflexivity.
  - intros text Hrec Htrim.
    assert (performOCR W img (tp_sourceLang p) s =
            {| outcome := Ok text; final := s; trace := [EvOCR (getTesseractLang (tp_sourceLang p)) img] |})
      as Hocr by (rewrite performOCR_run, Hrec; reflexivity).
    rewrite (bind_returns _ _ s text s _ Hocr).
    rewrite (proj2 (truthy_true _) Htrim). cbn [negb app].
    split; [reflexivity |]. intros He.
    change (networkCalls (trace (translateDeepLX W (withText p text) s)) =
            [EvFetch {| fr_url := deeplxEndpoint (activeConfig s);
                        fr_method := Some (lit "POST");
                        fr_headers :=
                          [(lit "Content-Type", lit "application/json")];
                        fr_body := Some (DeepLXBody text (tp_sourceLang p)
                                           (tp_targetLang p));
                        fr_signal := None |}]).
    rewrite translateDeepLX_calls by exact He. unfold deepLXRequest.
    cbn [withText tp_text tp_sourceLang tp_targetLang].
    destruct (bool_decide (tp_sourceLang p = lit "auto")) eqn:Ha;
      [| reflexivity].
    apply bool_decide_eq_true in Ha. rewrite Ha. reflexivity.
Qed.

Lemma translate_DeepLX_image_pipeline_witness :
  let W := Ex.world (Ok Ex.cited) (Throw Ex.quota) in
  let s := Ex.state "https://api.deeplx.org/translate" "" "" "" in
  let p := Ex.request "" (Some (lit "data:image/png;base64,AAAA")) in
  outcome (translate W (lit "DeepLX") p s) =
  Throw (newError (lit "Failed to extract text from image. quota exceeded")).
Proof.
  cbv zeta.
  rewrite (proj1 (translate_DeepLX_image_pipeline
                    (Ex.world (Ok Ex.cited) (Throw Ex.quota))
                    (Ex.request "" (Some (lit "data:image/png;base64,AAAA")))
                    (lit "data:image/png;base64,AAAA")
                    (Ex.state "https://api.deeplx.org/translate" "" "" "")
                    eq_refl ltac:(discriminate) eq_refl) Ex.quota eq_refl).
  reflexivity.
Defined.

Lemma ocrCalls_app t1 t2 : ocrCalls (t1 ++ t2) = ocrCalls t1 ++ ocrCalls t2.
Proof. apply List.filter_app. Qed.

Lemma safeFetch_ocr W req s : ocrCalls (trace (safeFetch W req s)) = [].
Proof.
  unfold safeFetch. exec. destruct (net_fetch W req); exec; [| reflexivity].
  destruct (bool_decide _); reflexivity.
Qed.

Lemma openAICompletion_ocr W base key model msgs temp signal s :
  ocrCalls (trace (openAICompletion W base key model msgs temp signal s)) = [].
Proof.
  unfold openAICompletion. cbv zeta. rewrite trace_bind, ocrCalls_app.
  rewrite safeFetch_ocr.
  destruct (outcome (safeFetch W _ s)) as [r | e]; [| reflexivity].
  rewrite trace_bind. destruct (fr_ok r); cbn; [| reflexivity].
  destruct (fr_data r); reflexivity.
Qed.

Lemma getAiClient_ocr W s : ocrCalls (trace (getAiClient W s)) = [].
Proof.
  unfold getAiClient. exec. destruct (aiInstance s); [reflexivity |].
  destruct (truthyOpt _); exec; destruct (sdk_construct W _); reflexivity.
Qed.

Lemma generateContent_ocr W ai req s :
  ocrCalls (trace (generateContent W ai req s)) = [].
Proof. rewrite generateContent_run. reflexivity. Qed.

Lemma translateDeepLX_ocr W p s :
  ocrCalls (trace (translateDeepLX W p s)) = [].
Proof.
  unfold translateDeepLX.
  rewrite trace_bind. cbn [getConfig outcome final trace app].
  rewrite trace_bind.
  destruct (truthy (deeplxEndpoint (activeConfig s)));
    cbn [negb throwIf ret throw outcome final trace app]; [| reflexivity].
  rewrite trace_bind, ocrCalls_app, safeFetch_ocr.
  destruct (outcome (safeFetch W _ s)) as [r | e]; [| reflexivity].
  rewrite trace_bind. destruct (fr_ok r); cbn; [| reflexivity].
  destruct (fr_data r) as [d |]; [| reflexivity].
  rewrite trace_bind. destruct (bool_decide _); reflexivity.
Qed.

Lemma translateOpenAI_ocr W p s :
  ocrCalls (trace (translateOpenAI W p s)) = [].
Proof.
  unfold translateOpenAI.
  rewrite trace_bind. cbn [getConfig outcome final trace app].
  rewrite trace_bind.
  destruct (truthy (openaiKey (activeConfig s)));
    cbn [negb throwIf ret throw outcome final trace app]; [| reflexivity].
  rewrite trace_tryCatch, ocrCalls_app, trace_bind, ocrCalls_app.
  rewrite openAICompletion_ocr, outcome_bind.
  destruct (outcome (openAICompletion W _ _ _ _ _ _ s)); reflexivity.
Qed.

Lemma translateGemini_ocr W p s :
  ocrCalls (trace (translateGemini W p s)) = [].
Proof.
  unfold translateGemini.
  rewrite trace_tryCatch, ocrCalls_app, trace_bind, ocrCalls_app.
  rewrite getAiClient_ocr, outcome_bind.
  destruct (outcome (getAiClient W s)) as [ai | e]; cbn; [| reflexivity].
  rewrite trace_bind, ocrCalls_app, generateContent_ocr, outcome_bind.
  destruct (outcome (generateContent W ai _ _)); reflexivity.
Qed.

(** X23: OCR runs only where it is needed: never for a provider other
    than DeepLX (the image goes to the model itself), and for DeepLX
    neither when the request has text nor when it has no image. *)
Theorem translate_ocr_only_when_needed W provider p s :
  provider <> lit "DeepLX" \/ tp_text p <> [] \/
  truthyOpt (tp_imageBase64 p) = false ->
  ocrCalls (trace (translate W provider p s)) = [].
Proof.
  intros H. unfold translate.
  destruct (bool_decide (provider = lit "DeepLX")) eqn:Hd.
  - apply bool_decide_eq_true in Hd.
    assert ((if truthyOpt (tp_imageBase64 p) && negb (truthy (tp_text p))
             then performOCR W (default [] (tp_imageBase64 p))
                    (tp_sourceLang p)
             else ret (tp_text p)) = ret (tp_text p)) as ->.
    { destruct H as [H | [H | H]]; [contradiction | |].
      - rewrite (proj2 (truthy_true _) H), andb_false_r. reflexivity.
      - rewrite H. reflexivity. }
    rewrite (bind_returns _ _ s (tp_text p) s []) by reflexivity.
    destruct (truthy (JS.trim (tp_text p))); cbn [negb app];
      [apply translateDeepLX_ocr | reflexivity].
  - destruct (bool_decide (provider = lit "OpenAI"));
      [apply translateOpenAI_ocr |].
    destruct (bool_decide (provider = lit "Gemini"));
      [apply translateGemini_ocr | reflexivity].
Qed.

Lemma translate_ocr_only_when_needed_witness :
  ocrCalls (trace (translate (Ex.world (Ok Ex.cited) (Ok (lit "text")))
                     (lit "Gemini")
                     (Ex.request "" (Some (lit "data:image/png;base64,AAAA")))
                     (Ex.state "" "" "g-key" ""))) = [].
Proof.
  apply translate_ocr_only_when_needed. left. vm_compute. discriminate.
Defined.

(** ** Languages *)

Lemma NoDup_fmap_inj_on {A B} (f : A -> B) (l : list A) x y :
  NoDup (f <$> l) -> x ∈ l -> y ∈ l -> f x = f y -> x = y.
Proof.
  induction l as [| a l IH]; intros Hnd Hx Hy Heq; [inversion Hx |].
  rewrite fmap_cons in Hnd. apply NoDup_cons in Hnd as [Ha Hnd].
  apply elem_of_cons in Hx as [-> | Hx], Hy as [-> | Hy]; auto.
  - exfalso. apply Ha, list_elem_of_fmap. eauto.
  - exfalso. apply Ha, list_elem_of_fmap. eauto.
Qed.

(** Every language the interface offers ([LANGUAGES]) has an entry of its
    own in the OCR language table, so none falls back, and two distinct
    languages never share an engine language; [auto] reads as English. *)
Lemma getTesseractLang_covers_LANGUAGES :
  (forall code, code ∈ LANGUAGES.*1 ->
     is_Some (getTesseractLang_map !! code)) /\
  (forall c1 c2, c1 ∈ LANGUAGES.*1 -> c2 ∈ LANGUAGES.*1 ->
     getTesseractLang c1 = getTesseractLang c2 -> c1 = c2) /\
  getTesseractLang (lit "auto") = getTesseractLang (lit "EN").
Proof.
  assert (Forall (fun c => is_Some (getTesseractLang_map !! c)) LANGUAGES.*1)
    as H1 by (vm_compute; repeat constructor; eexists; reflexivity).
  assert (NoDup (getTesseractLang <$> LANGUAGES.*1)) as H2
    by (apply (bool_decide_unpack _); vm_compute; exact I).
  split; [apply Forall_forall, H1 |]. split.
  - intros c1 c2. apply NoDup_fmap_inj_on, H2.
  - vm_compute. reflexivity.
Qed.

(** ** History handlers *)

Lemma toggle_toggle h : History.toggle (History.toggle h) = h.
Proof. destruct h. unfold History.toggle. cbn. rewrite negb_involutive. reflexivity. Qed.

Lemma toggle_id h : hi_id (History.toggle h) = hi_id h.
Proof. reflexivity. Qed.

(** X25: the favourite toggle and the delete of the history panel.
    Toggling twice restores the history; a toggle keeps every identifier
    in its place; a delete removes exactly the entries carrying the
    identifier and is idempotent; delete and toggle commute; and deleting
    the entry just added, when its identifier is fresh and nothing was
    pushed out, gives back the previous history. *)
Theorem history_toggle_delete id prev :
  History.onToggleFavorite id (History.onToggleFavorite id prev) = prev /\
  hi_id <$> History.onToggleFavorite id prev = hi_id <$> prev /\
  (forall h, h ∈ History.onDelete id prev <-> h ∈ prev /\ hi_id h <> id) /\
  History.onDelete id (History.onDelete id prev) = History.onDelete id prev /\
  (forall id',
     History.onDelete id' (History.onToggleFavorite id prev) =
     History.onToggleFavorite id (History.onDelete id' prev)) /\
  (forall ts its now src res isImage,
     (length prev < 50)%nat -> id ∉ hi_id <$> prev ->
     History.onDelete id
       (History.addToHistory ts its id now src res isImage prev) = prev).
Proof.
  unfold History.onToggleFavorite, History.onDelete.
  split; [| split; [| split; [| split; [| split]]]].
  - rewrite <- list_fmap_compose. rewrite <- (list_fmap_id prev) at 2.
    apply list_fmap_ext. intros _ h _. unfold compose.
    destruct (bool_decide (hi_id h = id)) eqn:Hd.
    + rewrite toggle_id, Hd. apply toggle_toggle.
    + rewrite Hd. reflexivity.
  - rewrite <- list_fmap_compose. apply list_fmap_ext. intros _ h _.
    unfold compose. destruct (bool_decide (hi_id h = id)); reflexivity.
  - intros h. rewrite list_elem_of_filter. tauto.
  - apply list_filter_filter_l. auto.
  - intros id'. induction prev as [| h prev IH]; [reflexivity |].
    rewrite fmap_cons, !filter_cons.
    assert (hi_id (if bool_decide (hi_id h = id) then History.toggle h else h)
            = hi_id h) as -> by (destruct (bool_decide _); reflexivity).
    destruct (decide (hi_id h <> id')); [rewrite fmap_cons |]; rewrite IH;
      reflexivity.
  - intros ts its now src res isImage Hlen Hfresh.
    rewrite addToHistory_eq, take_ge by lia. rewrite filter_cons.
    cbn [History.newItem hi_id].
    destruct (decide (id <> id)) as [Hne | _]; [contradiction |].
    clear Hlen. induction prev as [| h prev IH]; [reflexivity |].
    rewrite fmap_cons in Hfresh. apply not_elem_of_cons in Hfresh as [Hh Hp].
    rewrite filter_cons.
    destruct (decide (hi_id h <> id)) as [_ | Hn];
      [| exfalso; apply Hn; intros Heq; apply Hh; symmetry; exact Heq].
    f_equal. apply IH, Hp.
Qed.

(** X26: swapping languages exchanges the two texts and makes the old
    target the new source.  The new target is never [auto]: a detected
    source becomes English.  So a swap is undone by a second swap exactly
    when neither language was [auto], and from the first swap on (the
    target not being [auto]) swapping is an involution. *)
Theorem handleSwapLanguages_twice prev :
  let once := App.handleSwapLanguages prev in
  let twice := App.handleSwapLanguages once in
  ts_sourceText once = ts_translatedText prev /\
  ts_translatedText once = ts_sourceText prev /\
  ts_sourceLang once = ts_targetLang prev /\
  ts_targetLang once <> lit "auto" /\
  (ts_sourceLang prev = lit "auto" ->
   ts_targetLang once = lit "EN" /\ ts_sourceLang twice = lit "EN") /\
  (ts_sourceLang prev <> lit "auto" -> ts_targetLang prev <> lit "auto" ->
   twice = prev) /\
  (ts_targetLang prev <> lit "auto" ->
   App.handleSwapLanguages twice = once).
Proof.
  cbv zeta. destruct prev as [st tt ld er sl tl pr md ind im tmp].
  unfold App.handleSwapLanguages.
  cbn [ts_sourceText ts_translatedText ts_isLoading ts_error ts_sourceLang
       ts_targetLang ts_selectedProvider ts_selectedModel ts_industry
       ts_attachedImage ts_tempImage].
  split; [reflexivity |]. split; [reflexivity |]. split; [reflexivity |].
  split; [| split; [| split]].
  - destruct (bool_decide (sl = lit "auto")) eqn:Hs;
      [discriminate | apply bool_decide_eq_false in Hs; exact Hs].
  - intros ->. rewrite bool_decide_eq_true_2 by reflexivity. auto.
  - intros Hs Ht. rewrite (bool_decide_eq_false_2 _ Hs), (bool_decide_eq_false_2 _ Ht).
    reflexivity.
  - intros Ht. rewrite (bool_decide_eq_false_2 _ Ht).
    destruct (bool_decide (sl = lit "auto")) eqn:Hs.
    + rewrite (bool_decide_eq_false_2 (lit "EN" = lit "auto"))
        by discriminate. reflexivity.
    + rewrite Hs. reflexivity.
Qed.

Lemma handleSwapLanguages_twice_witness :
  App.handleSwapLanguages (App.handleSwapLanguages Ex.panel) = Ex.panel.
Proof.
  apply (proj1 (proj2 (proj2 (proj2 (proj2 (proj2
           (handleSwapLanguages_twice Ex.panel)))))));
    vm_compute; discriminate.
Defined.

(** What [try { result <- call; k result } catch (e) { handler e }]
    does when neither continuation has effects of its own. *)
Lemma tryCatch_pure {A B} (call : M A) (k : A -> B) (handler : JsError -> B) s :
  tryCatch (bind call (fun a => ret (k a))) (fun e => ret (handler e)) s =
  {| outcome := Ok match outcome (call s) with
                   | Ok a => k a
                   | Throw e => handler e
                   end;
     final := final (call s); trace := trace (call s) |}.
Proof.
  unfold tryCatch, bind, ret. destruct (outcome (call s)); cbn;
    rewrite ?app_nil_r; reflexivity.
Qed.

(** X27: what a click on Translate does.  With no source text nothing
    happens.  Otherwise the service is called once, with the rendered
    text, languages, model and industry and without image; the handler
    never rejects and always clears the loading flag; the image panel, the
    view and the history drawer are left alone.  On success the panel
    shows the result without error and the history gets one entry at its
    front (the rendered text, languages and provider, not a favourite, not
    an image), the 50th being pushed out; selecting that entry brings the
    panel back to what it shows now.  On failure the panel shows the
    error's message, keeps its translation and the history is
    unchanged. *)
Theorem handleTranslate_outcome W rendered id now st s :
  let ts := App.transState rendered in
  let call := translate W (providerName (ts_selectedProvider ts))
                (App.textParams ts) s in
  let run := App.handleTranslate W rendered id now st s in
  (ts_sourceText ts = [] ->
   run = {| outcome := Ok st; final := s; trace := [] |}) /\
  (ts_sourceText ts <> [] ->
   trace run = trace call /\ final run = final call /\
   exists st',
     outcome run = Ok st' /\
     ts_isLoading (App.transState st') = false /\
     App.imgTransState st' = App.imgTransState st /\
     App.currentView st' = App.currentView st /\
     App.isHistoryOpen st' = App.isHistoryOpen st /\
     (forall result,
        outcome call = Ok result ->
        ts_translatedText (App.transState st') = result /\
        ts_error (App.transState st') = None /\
        exists item,
          App.history st' = item :: take 49 (App.history st) /\
          hi_id item = id /\ hi_timestamp item = now /\
          hi_sourceText item = ts_sourceText ts /\
          hi_translatedText item = result /\
          hi_sourceLang item = ts_sourceLang ts /\
          hi_targetLang item = ts_targetLang ts /\
          hi_provider item = ts_selectedProvider ts /\
          isFavorite item = false /\ wasImage item = false /\
          App.currentView (App.onSelect item st') = App.ViewTranslate /\
          (App.transState st = ts ->
           App.transState (App.onSelect item st') = App.transState st')) /\
     (forall e,
        outcome call = Throw e ->
        ts_error (App.transState st') = Some (err_message e) /\
        ts_translatedText (App.transState st') =
          ts_translatedText (App.transState st) /\
        App.history st' = App.history st)).
Proof.
  cbv zeta. unfold App.handleTranslate. cbv zeta. split.
  - intros ->. reflexivity.
  - intros Hne. rewrite (proj2 (truthy_true _) Hne). cbn [negb].
    rewrite tryCatch_pure. cbn [outcome final trace].
    split; [reflexivity |]. split; [reflexivity |].
    destruct (outcome (translate W _ _ s)) as [result | e];
      eexists; (split; [reflexivity |]); cbn;
      (split; [reflexivity |]); (split; [reflexivity |]);
      (split; [reflexivity |]); (split; [reflexivity |]).
    + split; [| intros e [=]]. intros r [= <-].
      split; [reflexivity |]. split; [reflexivity |].
      rewrite addToHistory_eq. eexists. split; [reflexivity |].
      cbn. do 10 (split; [reflexivity |]). intros <-. reflexivity.
    + split; [intros r [=] |]. intros e' [= <-]. repeat split; reflexivity.
Qed.

Lemma handleTranslate_outcome_witness :
  let W := Ex.server (FetchResponds true 200 (lit "{json}"))
             (Some (DeepLXData 200 (lit "bonne nuit") [])) in
  let s := Ex.state "https://api.deeplx.org/translate" "" "" "" in
  ts_sourceText (App.transState Ex.app) <> [] /\
  trace (App.handleTranslate W Ex.app (lit "fresh") 1 Ex.app s) =
  trace (translate W (lit "Gemini") (App.textParams Ex.panel) s).
Proof.
  cbv zeta. split; [vm_compute; discriminate |].
  apply (proj2 (handleTranslate_outcome
                  (Ex.server (FetchResponds true 200 (lit "{json}"))
                     (Some (DeepLXData 200 (lit "bonne nuit") [])))
                  Ex.app (lit "fresh") 1 Ex.app
                  (Ex.state "https://api.deeplx.org/translate" "" "" ""))).
  vm_compute. discriminate.
Defined.

Lemma translate_DeepLX_blank_scan W p img text s :
  tp_imageBase64 p = Some img -> img <> [] -> tp_text p = [] ->
  tesseract_recognize W (getTesseractLang (tp_sourceLang p)) img = Ok text ->
  JS.trim text = [] ->
  outcome (translate W (lit "DeepLX") p s) = Ok [].
Proof.
  intros Himg Hne Htext Hrec Htrim. rewrite translate_DeepLX, Himg, Htext.
  cbn [truthyOpt truthy negb default id].
  rewrite (proj2 (truthy_true img) Hne). cbn [andb].
  assert (performOCR W img (tp_sourceLang p) s =
          {| outcome := Ok text; final := s;
             trace := [EvOCR (getTesseractLang (tp_sourceLang p)) img] |})
    as Hocr by (rewrite performOCR_run, Hrec; reflexivity).
  rewrite (bind_returns _ _ s text s _ Hocr), Htrim. reflexivity.
Qed.

(** X28: the same for the image panel: the call carries the attached
    image and an empty text, the entry recorded is labelled
    [[Image Translation]] and flagged as an image, the attached image stays,
    and the text panel is left alone.  A DeepLX image translation whose
    scan reads only blanks is a success: no error is shown, the
    translation is empty, and an entry with an empty translation is
    recorded. *)
Theorem handleImageTranslate_outcome W rendered id now st s :
  let ts := App.imgTransState rendered in
  let call := translate W (providerName (ts_selectedProvider ts))
                (App.imageParams ts) s in
  let run := App.handleImageTranslate W rendered id now st s in
  (truthyOpt (ts_attachedImage ts) = false ->
   run = {| outcome := Ok st; final := s; trace := [] |}) /\
  (truthyOpt (ts_attachedImage ts) = true ->
   trace run = trace call /\ final run = final call /\
   exists st',
     outcome run = Ok st' /\
     ts_isLoading (App.imgTransState st') = false /\
     ts_attachedImage (App.imgTransState st') =
       ts_attachedImage (App.imgTransState st) /\
     App.transState st' = App.transState st /\
     App.currentView st' = App.currentView st /\
     (forall result,
        outcome call = Ok result ->
        ts_translatedText (App.imgTransState st') = result /\
        ts_error (App.imgTransState st') = None /\
        exists item,
          App.history st' = item :: take 49 (App.history st) /\
          hi_id item = id /\ hi_timestamp item = now /\
          hi_sourceText item = lit "[Image Translation]" /\
          hi_translatedText item = result /\
          hi_sourceLang item = ts_sourceLang ts /\
          hi_targetLang item = ts_targetLang ts /\
          hi_provider item = ts_selectedProvider ts /\
          isFavorite item = false /\ wasImage item = true /\
          App.currentView (App.onSelect item st') = App.ViewImageTranslate /\
          (App.imgTransState st = ts ->
           App.imgTransState (App.onSelect item st') =
           App.imgTransState st')) /\
     (forall e,
        outcome call = Throw e ->
        ts_error (App.imgTransState st') = Some (err_message e) /\
        ts_translatedText (App.imgTransState st') =
          ts_translatedText (App.imgTransState st) /\
        App.history st' = App.history st) /\
     (forall img text,
        ts_selectedProvider ts = DeepLX ->
        ts_attachedImage ts = Some img ->
        tesseract_recognize W (getTesseractLang (ts_sourceLang ts)) img =
          Ok text ->
        JS.trim text = [] ->
        ts_translatedText (App.imgTransState st') = [] /\
        ts_error (App.imgTransState st') = None /\
        hi_translatedText <$> head (App.history st') = Some [])).
Proof.
  cbv zeta. unfold App.handleImageTranslate. cbv zeta. split.
  - intros ->. reflexivity.
  - intros Himg. rewrite Himg. cbn [negb].
    rewrite tryCatch_pure. cbn [outcome final trace].
    split; [reflexivity |]. split; [reflexivity |].
    eexists. split; [reflexivity |].
    split; [destruct (outcome (translate W _ _ s)); reflexivity |].
    split; [destruct (outcome (translate W _ _ s)); reflexivity |].
    split; [destruct (outcome (translate W _ _ s)); reflexivity |].
    split; [destruct (outcome (translate W _ _ s)); reflexivity |].
    split; [| split].
    + intros result ->. split; [reflexivity |]. split; [reflexivity |].
      cbn [App.history App.setHistory]. rewrite addToHistory_eq.
      eexists. split; [reflexivity |].
      cbn. do 10 (split; [reflexivity |]). intros <-. reflexivity.
    + intros e ->. repeat split; reflexivity.
    + intros img text Hp Hi Hrec Htrim.
      assert (outcome (translate W
                         (providerName
                            (ts_selectedProvider (App.imgTransState rendered)))
                         (App.imageParams (App.imgTransState rendered)) s) =
              Ok []) as ->.
      { rewrite Hp.
        apply (translate_DeepLX_blank_scan W _ img text);
          [exact Hi | | reflexivity | exact Hrec | exact Htrim].
        intros ->. rewrite Hi in Himg. discriminate. }
      split; [reflexivity |]. split; [reflexivity |].
      cbn [App.history App.setHistory]. rewrite addToHistory_eq. reflexivity.
Qed.

Lemma handleImageTranslate_outcome_witness :
  let W := Ex.world (Ok Ex.cited) (Ok (lit "  ")) in
  let s := Ex.state "https://api.deeplx.org/translate" "" "" "" in
  exists st',
    outcome (App.handleImageTranslate W Ex.app (lit "fresh") 1 Ex.app s) =
      Ok st' /\
    hi_translatedText <$> head (App.history st') = Some [].
Proof.
  cbv zeta.
  destruct (proj2 (handleImageTranslate_outcome
                     (Ex.world (Ok Ex.cited) (Ok (lit "  ")))
                     Ex.app (lit "fresh") 1 Ex.app
                     (Ex.state "https://api.deeplx.org/translate" "" "" ""))
              eq_refl)
    as (_ & _ & st' & Ho & _ & _ & _ & _ & _ & _ & Hblank).
  exists st'. split; [exact Ho |].
  apply (Hblank (lit "data:image/png;base64,AAAA") (lit "  "));
    reflexivity.
Defined.

(** ** Chat sessions *)

Lemma updateSession_ids id updates now prev :
  up_id updates = None ->
  cs_id <$> ChatPanel.updateSession id updates now prev = cs_id <$> prev.
Proof.
  intros Hu. unfold ChatPanel.updateSession. rewrite <- list_fmap_compose.
  apply list_fmap_ext. intros _ x _. unfold compose.
  destruct (bool_decide (cs_id x = id)); [| reflexivity].
  cbn. rewrite Hu. reflexivity.
Qed.

Lemma currentSession_Some st :
  selectionValid st ->
  (is_Some (ChatPanel.currentSession st) <-> ChatPanel.sessions st <> []).
Proof.
  unfold selectionValid, ChatPanel.currentSession.
  destruct (ChatPanel.currentSessionId st) as [id |].
  - intros (x & Hid & Hx)%list_elem_of_fmap. split.
    + intros _ Hnil. rewrite Hnil in Hx. inversion Hx.
    + intros _.
      destruct (List.find _ (ChatPanel.sessions st)) as [c |] eqn:Hf; [eauto |].
      apply list_elem_of_In in Hx. apply (List.find_none _ _ Hf x) in Hx.
      apply bool_decide_eq_false in Hx. congruence.
  - intros ->. split; [intros [? [=]] | congruence].
Qed.

(** X29: the selection of the chat panel stays valid: when the current
    session identifier refers to a session of the list (or is null with an
    empty list), it still does after creating, deleting or renaming a
    session and after deleting a message.  Under this invariant a current
    session exists exactly when the list is not empty.  Deleting another
    session keeps the selection; deleting the selected one selects the
    first of those that remain. *)
Theorem session_selection_invariant st :
  selectionValid st ->
  (forall provider model id now,
     selectionValid (ChatPanel.createNewSession provider model st id now st)) /\
  (forall id, selectionValid (ChatPanel.deleteSession st id st)) /\
  (forall id title now, selectionValid (ChatPanel.handleRename id title now st)) /\
  (forall msgId now,
     selectionValid (ChatPanel.handleDeleteMessage st msgId now st)) /\
  (is_Some (ChatPanel.currentSession st) <-> ChatPanel.sessions st <> []) /\
  (forall id,
     ChatPanel.currentSessionId st <> Some id ->
     ChatPanel.currentSessionId (ChatPanel.deleteSession st id st) =
     ChatPanel.currentSessionId st) /\
  (forall id first rest,
     ChatPanel.currentSessionId st = Some id ->
     filter (fun s => cs_id s ≠ id) (ChatPanel.sessions st) = first :: rest ->
     ChatPanel.currentSessionId (ChatPanel.deleteSession st id st) =
     Some (cs_id first)).
Proof.
  intros Hv. split; [| split; [| split; [| split; [| split; [| split]]]]].
  - intros provider model id now. unfold ChatPanel.createNewSession.
    cbv zeta. destruct (ChatPanel.isMobile st); cbn; left.
  - intros id. unfold ChatPanel.deleteSession. cbv zeta.
    assert (forall c, ChatPanel.currentSessionId st = Some c -> c <> id ->
              c ∈ cs_id <$> filter (fun s => cs_id s ≠ id)
                              (ChatPanel.sessions st)) as Hkeep.
    { intros c Hc Hne. unfold selectionValid in Hv. rewrite Hc in Hv.
      apply list_elem_of_fmap in Hv as (x & -> & Hx).
      apply list_elem_of_fmap. exists x. split; [reflexivity |].
      apply list_elem_of_filter. split; [exact Hne | exact Hx]. }
    destruct (filter _ (ChatPanel.sessions st)) as [| first rest] eqn:Hf;
      [reflexivity |].
    destruct (bool_decide (ChatPanel.currentSessionId st = Some id)) eqn:Hc;
      unfold selectionValid; cbn; [left |].
    apply bool_decide_eq_false in Hc.
    destruct (ChatPanel.currentSessionId st) as [c |] eqn:Hcur.
    + apply (Hkeep c eq_refl). congruence.
    + unfold selectionValid in Hv. rewrite Hcur in Hv. rewrite Hv in Hf.
      discriminate Hf.
  - intros id title now. unfold selectionValid, ChatPanel.handleRename in *.
    cbn. rewrite updateSession_ids by reflexivity.
    destruct (ChatPanel.currentSessionId st); [exact Hv |].
    rewrite Hv. reflexivity.
  - intros msgId now. unfold ChatPanel.handleDeleteMessage.
    destruct (ChatPanel.currentSession st) as [cur |]; [| exact Hv].
    unfold selectionValid in *. cbn. rewrite updateSession_ids by reflexivity.
    destruct (ChatPanel.currentSessionId st); [exact Hv |].
    rewrite Hv. reflexivity.
  - apply currentSession_Some, Hv.
  - intros id Hne. unfold ChatPanel.deleteSession. cbv zeta.
    destruct (filter _ (ChatPanel.sessions st)) as [| first rest] eqn:Hf.
    + cbn. unfold selectionValid in Hv.
      destruct (ChatPanel.currentSessionId st) as [c |]; [| reflexivity].
      apply list_elem_of_fmap in Hv as (x & -> & Hx).
      assert (x ∈ filter (fun s => cs_id s ≠ id) (ChatPanel.sessions st)) as Hin
        by (apply list_elem_of_filter; split; [congruence | exact Hx]).
      rewrite Hf in Hin. inversion Hin.
    + rewrite bool_decide_eq_false_2 by exact Hne. reflexivity.
  - intros id first rest Hc Hf. unfold ChatPanel.deleteSession. cbv zeta.
    rewrite Hf, bool_decide_eq_true_2 by exact Hc. reflexivity.
Qed.

Lemma settle_pure {A B} (call : M A) (k : Outcome A -> B) s :
  bind (settle call) (fun r => ret (k r)) s =
  {| outcome := Ok (k (outcome (call s)));
     final := final (call s); trace := trace (call s) |}.
Proof. unfold bind, settle, ret. cbn. rewrite app_nil_r. reflexivity. Qed.



Lemma history_toggle_delete_witness :
  History.onDelete (lit "fresh")
    (History.addToHistory Ex.panel Ex.panel (lit "fresh") 1
       (lit "good night") (lit "bonne nuit") false [Ex.item "plain" false]) =
  [Ex.item "plain" false].
Proof.
  apply (proj2 (proj2 (proj2 (proj2 (proj2
           (history_toggle_delete (lit "fresh") [Ex.item "plain" false])))))).
  - cbn. lia.
  - intros H. apply list_elem_of_singleton in H. discriminate H.
Defined.

Lemma session_selection_invariant_witness :
  selectionValid Ex.chatPanel /\
  selectionValid
    (ChatPanel.deleteSession Ex.chatPanel (lit "s1") Ex.chatPanel).
Proof.
  assert (selectionValid Ex.chatPanel) as Hv by (vm_compute; left).
  split; [exact Hv |].
  apply (proj1 (proj2 (session_selection_invariant Ex.chatPanel Hv))).
Defined.


(** ** Providers are kept apart *)

Lemma translate_DeepLX_calls W p s ev :
  ev ∈ networkCalls (trace (translate W (lit "DeepLX") p s)) ->
  exists text,
    ev = EvFetch (deepLXRequest (deeplxEndpoint (activeConfig s))
                    (withText p text)).
Proof.
  destruct (decide (deeplxEndpoint (activeConfig s) = [])) as [He | He].
  { rewrite translate_DeepLX_no_endpoint_calls by exact He.
    intros H. inversion H. }
  rewrite translate_DeepLX, trace_bind, networkCalls_app.
  assert (forall text,
            ev ∈ networkCalls
                   (trace ((if negb (truthy (JS.trim text)) then ret []
                            else translateDeepLX W (withText p text)) s)) ->
            exists text,
              ev = EvFetch (deepLXRequest (deeplxEndpoint (activeConfig s))
                              (withText p text))) as Hrest.
  { intros text. destruct (truthy (JS.trim text)); cbn [negb].
    - rewrite translateDeepLX_calls by exact He.
      intros ->%list_elem_of_singleton. eauto.
    - intros H. inversion H. }
  destruct (truthyOpt (tp_imageBase64 p) && negb (truthy (tp_text p))).
  - rewrite performOCR_run. cbn [outcome final trace].
    destruct (tesseract_recognize W _ _) as [text | e].
    + cbn [networkCalls List.filter isNetworkCall app]. apply Hrest.
    + intros H. inversion H.
  - cbn [ret outcome final trace networkCalls List.filter app]. apply Hrest.
Qed.

Lemma translate_OpenAI_calls W p s ev :
  ev ∈ networkCalls (trace (translate W (lit "OpenAI") p s)) ->
  exists msgs,
    ev = EvFetch (completionRequest (openaiBaseUrl (activeConfig s))
                    (openaiKey (activeConfig s)) (tp_model p) msgs (3 # 10)
                    None).
Proof.
  rewrite translate_OpenAI. unfold translateOpenAI.
  rewrite trace_bind. cbn [getConfig outcome final trace app].
  rewrite trace_bind.
  destruct (truthy (openaiKey (activeConfig s)));
    cbn [negb throwIf ret throw outcome final trace app];
    [| intros H; inversion H].
  rewrite trace_tryCatch, networkCalls_app, trace_bind, networkCalls_app.
  rewrite openAICompletion_calls, outcome_bind.
  destruct (outcome (openAICompletion W _ _ _ _ _ _ s)); cbn;
    intros ->%list_elem_of_singleton; eauto.
Qed.

(** X5: providers are kept apart.  Whatever happens, the network calls
    of a translation go to the selected provider only: for DeepLX, POSTs
    to the configured endpoint, carrying the request with some text and no
    credential; for OpenAI, the completion request under the configured
    base URL with the OpenAI key, at temperature 0.3 and without signal;
    for Gemini, the generate call of the request.  Names are matched
    exactly: any other name (a misspelt or lower-case one too) fails at
    once with [Unknown provider: <name>], before any effect. *)
Theorem translate_provider_isolation W provider p s :
  let cfg := activeConfig s in
  (forall ev,
     ev ∈ networkCalls (trace (translate W provider p s)) ->
     (provider = lit "DeepLX" /\
      exists text,
        ev = EvFetch (deepLXRequest (deeplxEndpoint cfg) (withText p text))) \/
     (provider = lit "OpenAI" /\
      exists msgs,
        ev = EvFetch (completionRequest (openaiBaseUrl cfg) (openaiKey cfg)
                        (tp_model p) msgs (3 # 10) None)) \/
     (provider = lit "Gemini" /\
      exists ai, ev = EvGenerate ai (geminiTranslateRequest p))) /\
  (provider <> lit "DeepLX" -> provider <> lit "OpenAI" ->
   provider <> lit "Gemini" ->
   translate W provider p s =
   {| outcome := Throw (newError (lit "Unknown provider: " ++ provider));
      final := s; trace := [] |}).
Proof.
  cbv zeta. split.
  - intros ev.
    destruct (decide (provider = lit "DeepLX")) as [-> | H1];
      [intros H%translate_DeepLX_calls; auto |].
    destruct (decide (provider = lit "OpenAI")) as [-> | H2];
      [intros H%translate_OpenAI_calls; auto |].
    destruct (decide (provider = lit "Gemini")) as [-> | H3].
    + rewrite translate_Gemini, translateGemini_calls.
      destruct (outcome (getAiClient W s)) as [ai | e];
        [| intros H; inversion H].
      intros ->%list_elem_of_singleton. right. right. eauto.
    + unfold translate. rewrite !bool_decide_eq_false_2 by assumption.
      intros H. inversion H.
  - intros H1 H2 H3. unfold translate.
    rewrite !bool_decide_eq_false_2 by assumption. reflexivity.
Qed.

Lemma translate_provider_isolation_witness :
  translate Ex.abortingWorld (lit "deeplx") (Ex.request "Hello" None)
    (Ex.state "" "" "" "") =
  {| outcome := Throw (newError (lit "Unknown provider: deeplx"));
     final := Ex.state "" "" "" ""; trace := [] |}.
Proof.
  rewrite (proj2 (translate_provider_isolation Ex.abortingWorld (lit "deeplx")
                    (Ex.request "Hello" None) (Ex.state "" "" "" "")));
    [reflexivity | vm_compute; discriminate ..].
Defined.

(** ** The history panel *)

Lemma insert_Permutation x l : HistoryPanel.insert x l ≡ₚ x :: l.
Proof.
  induction l as [| y l IH]; [reflexivity |]. cbn.
  destruct (hi_timestamp y <=? hi_timestamp x); [reflexivity |].
  rewrite IH. apply Permutation_swap.
Qed.

Lemma sort_Permutation l : HistoryPanel.sort l ≡ₚ l.
Proof.
  induction l as [| x l IH]; [reflexivity |]. cbn.
  rewrite insert_Permutation, IH. reflexivity.
Qed.

Lemma insert_newestFirst x l :
  newestFirst l -> newestFirst (HistoryPanel.insert x l).
Proof.
  unfold newestFirst. induction 1 as [| y l Hl IH Hy]; cbn.
  - repeat constructor.
  - destruct (Z.leb_spec (hi_timestamp y) (hi_timestamp x)) as [Hle | Hgt].
    + constructor; [constructor; assumption |].
      constructor; [exact Hle |].
      eapply Forall_impl; [exact Hy |]. cbn. intros z Hz. lia.
    + constructor; [exact IH |].
      rewrite insert_Permutation. constructor; [lia | exact Hy].
Qed.

Lemma sort_newestFirst l : newestFirst (HistoryPanel.sort l).
Proof.
  induction l as [| x l IH]; [constructor |]. cbn.
  apply insert_newestFirst, IH.
Qed.

Lemma sort_sorted l : newestFirst l -> HistoryPanel.sort l = l.
Proof.
  unfold newestFirst. induction 1 as [| x l Hl IH Hx]; [reflexivity |].
  cbn. rewrite IH. destruct l as [| y l]; [reflexivity |]. cbn.
  apply Forall_cons in Hx as [Hy _].
  destruct (Z.leb_spec (hi_timestamp y) (hi_timestamp x)); [reflexivity | lia].
Qed.

Lemma filter_newestFirst (P : HistoryItem -> Prop) `{!forall x, Decision (P x)} l :
  newestFirst l -> newestFirst (filter P l).
Proof.
  unfold newestFirst. induction 1 as [| x l Hl IH Hx]; [constructor |].
  rewrite filter_cons. destruct (decide (P x)); [| exact IH].
  constructor; [exact IH |]. apply Forall_forall.
  intros y [_ Hy]%list_elem_of_filter.
  rewrite Forall_forall in Hx. apply Hx, Hy.
Qed.

Lemma insert_stable t x l :
  newestFirst l ->
  filter (fun h => hi_timestamp h = t) (HistoryPanel.insert x l) =
  filter (fun h => hi_timestamp h = t) (x :: l).
Proof.
  unfold newestFirst. induction 1 as [| y l Hl IH Hy]; [reflexivity |].
  cbn [HistoryPanel.insert].
  destruct (Z.leb_spec (hi_timestamp y) (hi_timestamp x)) as [Hle | Hgt];
    [reflexivity |].
  rewrite (filter_cons _ y (HistoryPanel.insert x l)), IH.
  rewrite (filter_cons _ x (y :: l)), (filter_cons _ y l),
    (filter_cons _ x l).
  destruct (decide (hi_timestamp x = t)), (decide (hi_timestamp y = t));
    try reflexivity; lia.
Qed.

Lemma sort_stable t l :
  filter (fun h => hi_timestamp h = t) (HistoryPanel.sort l) =
  filter (fun h => hi_timestamp h = t) l.
Proof.
  induction l as [| x l IH]; [reflexivity |]. cbn [HistoryPanel.sort].
  rewrite insert_stable by apply sort_newestFirst.
  rewrite !filter_cons, IH. reflexivity.
Qed.

Lemma take_newestFirst n l : newestFirst l -> newestFirst (take n l).
Proof.
  unfold newestFirst. intros H. revert n.
  induction H as [| x l Hl IH Hx]; intros [| n]; cbn; try constructor.
  - apply IH.
  - apply Forall_forall. intros y Hy%subseteq_take.
    rewrite Forall_forall in Hx. apply Hx, Hy.
Qed.

(** X24: what the history panel lists: exactly the entries of the
    history that belong to the tab and match the query (case folded on
    both sides), none more often than the history holds it, newest first.
    The sort is stable: entries of one timestamp keep their order.  When
    the history itself is newest first the list is a sublist of it, and
    the recent tab without query shows the history as it is; appending
    with a clock that does not run backwards keeps the history newest
    first. *)
Theorem filteredItems_shown toLowerCase history tab query :
  let shown := HistoryPanel.filteredItems toLowerCase history tab query in
  (forall h,
     h ∈ shown <->
     h ∈ history /\
     (tab = HistoryPanel.favorites -> isFavorite h = true) /\
     (query <> [] ->
      HistoryPanel.matches toLowerCase (toLowerCase query) h = true)) /\
  newestFirst shown /\
  shown ⊆+ history /\
  (newestFirst history -> sublist shown history) /\
  (newestFirst history -> tab = HistoryPanel.recent -> query = [] ->
   shown = history) /\
  (forall t,
     filter (fun h => hi_timestamp h = t) (HistoryPanel.sort history) =
     filter (fun h => hi_timestamp h = t) history) /\
  (forall ts its id now src res isImage,
     newestFirst history ->
     (forall h, h ∈ history -> hi_timestamp h <= now) ->
     newestFirst (History.addToHistory ts its id now src res isImage history)).
Proof.
  cbv zeta. unfold HistoryPanel.filteredItems. cbv zeta.
  set (items := match tab with
                | HistoryPanel.recent => history
                | HistoryPanel.favorites =>
                    filter (fun h => isFavorite h = true) history
                end).
  assert (forall h, h ∈ items <->
            h ∈ history /\
            (tab = HistoryPanel.favorites -> isFavorite h = true)) as Hitems.
  { intros h. subst items. destruct tab.
    - split; [intros H; split; [exact H | discriminate] | tauto].
    - rewrite list_elem_of_filter. split; [tauto |].
      intros [Hh Hf]. split; [apply Hf; reflexivity | exact Hh]. }
  assert (items ⊆+ history) as Hsub.
  { subst items. destruct tab; [reflexivity |].
    apply sublist_submseteq, sublist_filter. }
  assert (newestFirst history -> newestFirst items) as Hsorted.
  { subst items. destruct tab; [auto |]. apply filter_newestFirst. }
  assert (sublist items history) as Hsl.
  { subst items. destruct tab; [reflexivity | apply sublist_filter]. }
  split; [| split; [| split; [| split; [| split; [| split]]]]].
  - intros h. destruct query as [| c query]; cbn [truthy].
    + rewrite sort_Permutation, Hitems. split; [| tauto].
      intros [Hh Hf]. split; [exact Hh |]. split; [exact Hf | congruence].
    + rewrite list_elem_of_filter, sort_Permutation, Hitems. split.
      * intros [Hm [Hh Hf]]. auto.
      * intros (Hh & Hf & Hm). split; [apply Hm; discriminate | auto].
  - destruct (truthy query); [apply filter_newestFirst |];
      apply sort_newestFirst.
  - destruct (truthy query).
    + etransitivity; [apply sublist_submseteq, sublist_filter |].
      rewrite sort_Permutation. exact Hsub.
    + rewrite sort_Permutation. exact Hsub.
  - intros Hn. rewrite (sort_sorted items (Hsorted Hn)).
    destruct (truthy query); [| exact Hsl].
    etransitivity; [apply sublist_filter | exact Hsl].
  - intros Hn -> ->. subst items. cbn [truthy]. apply sort_sorted, Hn.
  - intros t. apply sort_stable.
  - intros ts its id now src res isImage Hn Hnow. rewrite addToHistory_eq.
    constructor.
    + apply take_newestFirst, Hn.
    + apply Forall_forall. intros h Hh. cbn [History.newItem hi_timestamp].
      apply Hnow. apply (subseteq_take 49). exact Hh.
Qed.

Lemma filteredItems_shown_witness :
  HistoryPanel.filteredItems (fun t => t) Ex.fullHistory HistoryPanel.recent []
  = Ex.fullHistory.
Proof.
  apply (proj1 (proj2 (proj2 (proj2 (proj2
           (filteredItems_shown (fun t => t) Ex.fullHistory
              HistoryPanel.recent [])))))); [| reflexivity ..].
  apply (bool_decide_unpack _). vm_compute. exact I.
Defined.

(** ** The search panel *)

Lemma search_returns_text W q model s :
  exists res, outcome (search W q model s) = Ok res /\ sr_text res <> [].
Proof.
  eexists. split; [apply search_outcome |].
  destruct (synthesis W q model s) as [r | e].
  - unfold searchAnswer. cbn [sr_text]. apply or_else_nonempty. discriminate.
  - unfold searchUnavailable. cbn [sr_text]. discriminate.
Qed.

Lemma summarizePage_returns_text W url model s :
  exists text, outcome (summarizePage W url model s) = Ok text /\ text <> [].
Proof.
  eexists. split; [apply summarizePage_outcome |].
  destruct (outcome (getAiClient W s)) as [ai | e]; [| discriminate].
  destruct (sdk_generateContent W ai _);
    [apply or_else_nonempty |]; discriminate.
Qed.

Section SettleFacts.
Context {A B : Type} (call : M A) (k : Outcome A -> B) (s : ServiceState).

Lemma outcome_settle_pure :
  outcome (bind (settle call) (fun r => ret (k r)) s) =
  Ok (k (outcome (call s))).
Proof. rewrite settle_pure. reflexivity. Qed.

Lemma trace_settle_pure :
  trace (bind (settle call) (fun r => ret (k r)) s) = trace (call s).
Proof. rewrite settle_pure. reflexivity. Qed.

Lemma final_settle_pure :
  final (bind (settle call) (fun r => ret (k r)) s) = final (call s).
Proof. rewrite settle_pure. reflexivity. Qed.

End SettleFacts.

(** X15: the search panel never shows an error.  A blank query does
    nothing.  Otherwise one [search] with the panel's model; since
    [search] reports its failures in the text, the handler's catch is
    never entered: the error stays null, the result is what the service
    returned and has a non-empty text, the spinner is off, and source
    selection, page summary and panel mode are reset.  Likewise for the
    page summary: without an active URL nothing happens; with one the
    summary shown is what [summarizePage] returned, never empty. *)
Theorem search_panel_never_errs W defaultModel rendered st s :
  let q := SearchPanel.query rendered in
  let searched := SearchPanel.handleSearch W defaultModel rendered st s in
  let summed := SearchPanel.handleSummarizePage W defaultModel rendered st s in
  (JS.trim q = [] ->
   searched = {| outcome := Ok st; final := s; trace := [] |}) /\
  (JS.trim q <> [] ->
   trace searched = trace (search W q (Some defaultModel) s) /\
   exists st' data,
     outcome searched = Ok st' /\
     outcome (search W q (Some defaultModel) s) = Ok data /\
     SearchPanel.result st' = Some data /\
     sr_text data <> [] /\
     SearchPanel.error st' = None /\
     SearchPanel.loadingSearch st' = false /\
     SearchPanel.hasSearched st' = true /\
     SearchPanel.activeUrl st' = None /\
     SearchPanel.pageSummary st' = None /\
     SearchPanel.rightPanelMode st' = SearchPanel.ModeSummary) /\
  (truthyOpt (SearchPanel.activeUrl rendered) = false ->
   summed = {| outcome := Ok st; final := s; trace := [] |}) /\
  (forall url,
     SearchPanel.activeUrl rendered = Some url -> url <> [] ->
     trace summed = trace (summarizePage W url (Some defaultModel) s) /\
     exists st' summary,
       outcome summed = Ok st' /\
       outcome (summarizePage W url (Some defaultModel) s) = Ok summary /\
       SearchPanel.pageSummary st' = Some summary /\
       summary <> [] /\
       SearchPanel.loadingPageSummary st' = false /\
       SearchPanel.rightPanelMode st' = SearchPanel.ModePageAi /\
       SearchPanel.result st' = SearchPanel.result st /\
       SearchPanel.error st' = SearchPanel.error st).
Proof.
  cbv zeta. split; [| split; [| split]].
  - unfold SearchPanel.handleSearch. intros ->. reflexivity.
  - intros Hq. unfold SearchPanel.handleSearch.
    rewrite (proj2 (truthy_true _) Hq). cbn [negb]. cbv zeta.
    split; [apply trace_settle_pure |].
    destruct (search_returns_text W (SearchPanel.query rendered)
                (Some defaultModel) s) as (data & Ho & Hne).
    exists (SearchPanel.setLoadingSearch false
              (SearchPanel.setResult data (SearchPanel.searching st))), data.
    split; [rewrite outcome_settle_pure, Ho; reflexivity |].
    split; [exact Ho |]. split; [reflexivity |]. split; [exact Hne |].
    repeat split.
  - unfold SearchPanel.handleSummarizePage. intros ->. reflexivity.
  - intros url Hu Hne. unfold SearchPanel.handleSummarizePage.
    rewrite Hu. cbn [truthyOpt default id].
    rewrite (proj2 (truthy_true _) Hne). cbn [negb]. cbv zeta.
    split; [apply trace_settle_pure |].
    destruct (summarizePage_returns_text W url (Some defaultModel) s)
      as (summary & Ho & Hs).
    exists (SearchPanel.summarized summary (SearchPanel.summarizing st)),
      summary.
    split; [rewrite outcome_settle_pure, Ho; reflexivity |].
    split; [exact Ho |]. split; [reflexivity |]. split; [exact Hs |].
    repeat split.
Qed.

Lemma search_panel_never_errs_witness :
  let W := Ex.world (Ok Ex.cited) (Throw Ex.netDown) in
  let s := Ex.state "" "" "g-key" "t-key" in
  exists st',
    outcome (SearchPanel.handleSearch W (lit "gemini-2.0-flash") Ex.searchPanel
               Ex.searchPanel s) = Ok st' /\
    SearchPanel.error st' = None.
Proof.
  cbv zeta.
  assert (JS.trim (SearchPanel.query Ex.searchPanel) <> []) as Hq
    by (vm_compute; discriminate).
  destruct (proj1 (proj2 (search_panel_never_errs
                            (Ex.world (Ok Ex.cited) (Throw Ex.netDown))
                            (lit "gemini-2.0-flash") Ex.searchPanel
                            Ex.searchPanel (Ex.state "" "" "g-key" "t-key")))
              Hq)
    as (_ & st' & data & Ho & _ & _ & _ & He & _).
  exists st'. split; [exact Ho | exact He].
Defined.

(** X14: the inline Markdown links of an answer.  Every source extracted
    is a link that literally occurs in the text: the title between
    brackets followed by the URI between parentheses is a substring, the
    title is non-empty and holds no closing bracket, the URI starts with
    [https://] or [http://], goes on with at least one more code unit and
    holds no closing parenthesis, and there is no snippet.  And links are
    found: when the text starts with bracket-free prose followed by a
    well-formed link, that link is the first source and extraction goes on
    right after its closing parenthesis. *)
Theorem linkSources_links text :
  (forall x,
     x ∈ linkSources text ->
     ss_snippet x = None /\
     ss_title x <> [] /\ Forall (fun c => c <> 93%N) (ss_title x) /\
     (exists rest,
        rest <> [] /\ Forall (fun c => c <> 41%N) rest /\
        (ss_uri x = lit "https://" ++ rest \/
         ss_uri x = lit "http://" ++ rest)) /\
     exists before after,
       text = before ++ lit "[" ++ ss_title x ++ lit "](" ++ ss_uri x ++
              lit ")" ++ after) /\
  (forall before title sch rest after,
     text = before ++ lit "[" ++ title ++ lit "](" ++ sch ++ rest ++
            lit ")" ++ after ->
     Forall (fun c => c <> 91%N) before ->
     title <> [] -> Forall (fun c => c <> 93%N) title ->
     rest <> [] -> Forall (fun c => c <> 41%N) rest ->
     sch = lit "https://" \/ sch = lit "http://" ->
     linkSources text =
     {| ss_title := title; ss_uri := sch ++ rest; ss_snippet := None |} ::
     linkSources after).
Proof.
  split.
  - apply linkSources_shape.
  - intros before title sch rest after ->. apply linkSources_extracts.
Qed.

Lemma linkSources_links_witness :
  linkSources (lit "See [the guide](https://a.example/guide).") =
  [Ex.src "the guide" "https://a.example/guide"].
Proof.
  rewrite (proj2 (linkSources_links
                    (lit "See [the guide](https://a.example/guide)."))
             (lit "See ") (lit "the guide") (lit "https://")
             (lit "a.example/guide") (lit "."));
    [reflexivity | reflexivity | ..].
  - vm_compute. repeat constructor; discriminate.
  - vm_compute. discriminate.
  - vm_compute. repeat constructor; discriminate.
  - vm_compute. discriminate.
  - vm_compute. repeat constructor; discriminate.
  - left. reflexivity.
Defined.
